(** * Therapy term normalization: the source adapters, the RxNorm linker
      and the cross-reference backfill job

    A shallow embedding of
      - [therapy/etl/rxnorm.py]   (the two-pass RxNorm linker),
      - [therapy/etl/drugbank.py] and [therapy/etl/wikidata.py]
        (the parts of the adapters that build and cap identity records),
      - [dynamodb_revisions/add_xrefs.py] (the backfill job),
    followed by the properties of the specification stated over it.

    Conventions.  A Python [str] is a [string] of 8-bit characters; the
    string methods below are the ASCII restrictions of the Python ones.
    A Python dict whose values are lists of strings is a
    [gmap string (list string)]; a dict whose iteration order reaches the
    sink (the [records] of the RxNorm transform, the stored table of the
    backfill job) is an association list in insertion order.  A record
    ("therapy") is a dict in the source; here its scalar entries are record
    fields of type [option _] ([None]: the key is absent) and its list-valued
    entries live in one [gmap], so that "the attribute is absent" is a
    statement about a lookup.  Code that can raise ([KeyError]) returns
    [option]; the backfill job, which also loops, returns a [result]. *)

From Stdlib Require Import Ascii String.
From stdpp Require Import gmap strings list fin_maps.

Open Scope string_scope.

(** ** Python string methods (ASCII) *)

Module PyStr.

Definition is_upper (c : ascii) : bool :=
  let n := nat_of_ascii c in (65 <=? n)%nat && (n <=? 90)%nat.

Definition is_lower (c : ascii) : bool :=
  let n := nat_of_ascii c in (97 <=? n)%nat && (n <=? 122)%nat.

Definition is_digit (c : ascii) : bool :=
  let n := nat_of_ascii c in (48 <=? n)%nat && (n <=? 57)%nat.

(** [str.isspace] on the ASCII range: TAB, LF, VT, FF, CR, the four
    separators 0x1c-0x1f and the space. *)
Definition is_space (c : ascii) : bool :=
  let n := nat_of_ascii c in
  ((9 <=? n)%nat && (n <=? 13)%nat) || ((28 <=? n)%nat && (n <=? 32)%nat).

Definition lower_char (c : ascii) : ascii :=
  if is_upper c then ascii_of_nat (nat_of_ascii c + 32) else c.

Definition upper_char (c : ascii) : ascii :=
  if is_lower c then ascii_of_nat (nat_of_ascii c - 32) else c.

Fixpoint map_chars (f : ascii -> ascii) (s : string) : string :=
  match s with
  | EmptyString => EmptyString
  | String c s' => String (f c) (map_chars f s')
  end.

(** [s.lower()], [s.upper()] *)
Definition lower (s : string) : string := map_chars lower_char s.
Definition upper (s : string) : string := map_chars upper_char s.

(** [s.casefold()].  On ASCII text Python's case folding is lowercasing;
    the theorems that speak about case folding in general take the
    folding function as a parameter and use this one for concrete runs. *)
Definition casefold (s : string) : string := lower s.

(** [s.startswith(p)], returning what follows the prefix. *)
Fixpoint strip_prefix (p s : string) : option string :=
  match p, s with
  | EmptyString, _ => Some s
  | String a p', String b s' =>
      if Ascii.eqb a b then strip_prefix p' s' else None
  | String _ _, EmptyString => None
  end.

Definition startswith (p s : string) : bool :=
  match strip_prefix p s with Some _ => true | None => false end.

(** [sub in s] *)
Fixpoint contains (sub s : string) : bool :=
  startswith sub s ||
  match s with
  | EmptyString => false
  | String _ s' => contains sub s'
  end.

(** [s.replace(old, new)] for a non-empty [old]: leftmost occurrences,
    not overlapping.  [skip] counts the characters of an occurrence that
    are still to be dropped. *)
Fixpoint replace_from (old new : string) (skip : nat) (s : string) : string :=
  match s with
  | EmptyString => EmptyString
  | String c s' =>
      match skip with
      | S k => replace_from old new k s'
      | O =>
          if startswith old s
          then new ++ replace_from old new (String.length old - 1) s'
          else String c (replace_from old new 0 s')
      end
  end.

Fixpoint interleave (new s : string) : string :=
  match s with
  | EmptyString => new
  | String c s' => new ++ String c (interleave new s')
  end.

Definition replace (old new s : string) : string :=
  match old with
  | EmptyString => interleave new s
  | String _ _ => replace_from old new 0 s
  end.

(** [s.split(sep)] for a one-character separator: the fields between
    the separators, at least one field. *)
Fixpoint split (sep : ascii) (s : string) : list string :=
  match s with
  | EmptyString => [EmptyString]
  | String c s' =>
      if Ascii.eqb c sep then EmptyString :: split sep s'
      else match split sep s' with
           | f :: fs => String c f :: fs
           | [] => [String c EmptyString]
           end
  end.

(** [l[0]] and [l[-1]] of a list that [split] returned (never empty). *)
Definition first_field (l : list string) : string := hd EmptyString l.
Definition last_field (l : list string) : string := List.last l EmptyString.

Fixpoint lstrip (s : string) : string :=
  match s with
  | EmptyString => EmptyString
  | String c s' => if is_space c then lstrip s' else s
  end.

Fixpoint rstrip (s : string) : string :=
  match s with
  | EmptyString => EmptyString
  | String c s' =>
      match rstrip s' with
      | EmptyString => if is_space c then EmptyString else String c EmptyString
      | r => String c r
      end
  end.

(** [s.strip()] *)
Definition strip (s : string) : string := rstrip (lstrip s).

(** [":" not in s] *)
Definition colon_free (s : string) : bool := negb (contains ":" s).

(** Python truthiness of a string and of a list. *)
Definition truthy (s : string) : bool :=
  match s with EmptyString => false | _ => true end.

End PyStr.

(** ** The regular expression of [_get_brands]

    A backtracking matcher with Python's priorities (greedy repetition,
    leftmost alternative first), for the constructs the pattern uses. *)

Module Re.

Inductive regex : Type :=
| Chr (c : ascii)
| Str (s : string)
| Star (cls : ascii -> bool)      (* [cls*], greedy *)
| Plus (cls : ascii -> bool)      (* [cls+], greedy *)
| Seq (r1 r2 : regex)
| Alt (r1 r2 : regex)
| Opt (r : regex).                (* [r?], greedy *)

Definition orelse {A} (x y : option A) : option A :=
  match x with Some _ => x | None => y end.

Fixpoint star_match (cls : ascii -> bool) (s : string)
    (k : string -> option string) : option string :=
  match s with
  | String c s' =>
      if cls c then orelse (star_match cls s' k) (k s) else k s
  | EmptyString => k s
  end.

(** [go r s k]: match [r] at the start of [s], then continue with [k] on
    the rest; the first success in priority order. *)
Fixpoint go (r : regex) (s : string) (k : string -> option string)
    : option string :=
  match r with
  | Chr c =>
      match s with
      | String c' s' => if Ascii.eqb c c' then k s' else None
      | EmptyString => None
      end
  | Str p =>
      match PyStr.strip_prefix p s with Some s' => k s' | None => None end
  | Star cls => star_match cls s k
  | Plus cls =>
      match s with
      | String c s' => if cls c then star_match cls s' k else None
      | EmptyString => None
      end
  | Seq r1 r2 => go r1 s (fun s' => go r2 s' k)
  | Alt r1 r2 => orelse (go r1 s k) (go r2 s k)
  | Opt r1 => orelse (go r1 s k) (k s)
  end.

(** [re.match]: what is left of [s] after the match, if there is one. *)
Definition match_prefix (r : regex) (s : string) : option string :=
  go r s Some.

(** [re.sub(r, "", s)]: every match, leftmost first, is deleted.  [skip]
    counts the characters of the current match still to be dropped; an
    empty match deletes nothing. *)
Fixpoint sub_from (r : regex) (skip : nat) (s : string) : string :=
  match s with
  | EmptyString => EmptyString
  | String c s' =>
      match skip with
      | S k => sub_from r k s'
      | O =>
          match match_prefix r s with
          | Some rest =>
              match String.length s - String.length rest with
              | O => String c (sub_from r 0 s')
              | S k => sub_from r k s'
              end
          | None => String c (sub_from r 0 s')
          end
      end
  end.

Definition sub_delete (r : regex) (s : string) : string := sub_from r 0 s.

End Re.

(** ** [therapy/etl/rxnorm.py] *)

Module RxNorm.

Import PyStr.

(** [ALIASES], [TRADE_NAMES], [RXNORM_XREFS] *)
Definition ALIASES : list string :=
  ["SYN"; "SY"; "TMSY"; "PM"; "GN"; "PT"; "PEP"; "CD"; "ET"; "RXN_PT"].

Definition TRADE_NAMES : list string := ["BD"; "BN"; "SBD"].

Definition RXNORM_XREFS : list string :=
  ["ATC"; "CVX"; "DRUGBANK"; "MMSL"; "MSH"; "MTHCMSFRF"; "MTHSPL";
   "RXNORM"; "USP"; "VANDF"].

(** [x in l] for a list of strings *)
Definition mem (x : string) (l : list string) : bool :=
  bool_decide (x ∈ l).

(** The pattern of [_get_brands], token by token:
    ( \d* ) ( \d* \. )? \d+ SPACE ( MG | UNT | ML )? ( / ( ML | HR | MG ) )?
    (the source writes it without the blanks, SPACE being one blank). *)
Definition strength_pattern : Re.regex :=
  Re.Seq (Re.Star is_digit)
 (Re.Seq (Re.Opt (Re.Seq (Re.Star is_digit) (Re.Chr ".")))
 (Re.Seq (Re.Plus is_digit)
 (Re.Seq (Re.Chr " ")
 (Re.Seq (Re.Opt (Re.Alt (Re.Str "MG") (Re.Alt (Re.Str "UNT") (Re.Str "ML"))))
         (Re.Opt (Re.Seq (Re.Chr "/")
                    (Re.Alt (Re.Str "ML") (Re.Alt (Re.Str "HR") (Re.Str "MG"))))))))).

(** [_add_term_to_field(data_dict, field, term)]: the second argument is
    the key, the third the value appended to the list under that key. *)
Definition _add_term_to_field (data_dict : gmap string (list string))
    (field term : string) : gmap string (list string) :=
  match data_dict !! field with
  | Some (x :: xs) =>
      if mem term (x :: xs) then data_dict
      else <[field := ((x :: xs) ++ [term])%list]> data_dict
  | _ => <[field := [term]]> data_dict
  end.

(** [term.split("[")[-1].split("]")[0]] *)
Definition bracket_brand (term : string) : string :=
  first_field (split "]" (last_field (split "[" term))).

(** A row of RXNCONSO.RRF: the columns the transform reads
    (0 RXCUI, 11 SAB, 12 TTY, 13 CODE, 14 STR, 17 CVF). *)
Record Row := {
  row0 : string; row11 : string; row12 : string;
  row13 : string; row14 : string; row17 : string
}.

(** [_get_brands(row, ingredient_to_brands)] *)
Definition _get_brands (row : Row)
    (ingredient_to_brands : gmap string (list string))
    : gmap string (list string) :=
  let term := row14 row in
  let ingredients_brand := Re.sub_delete strength_pattern term in
  let brand := bracket_brand term in
  let ingredients := replace ("[" ++ brand ++ "]") "" ingredients_brand in
  if contains "/" ingredients then
    foldl (fun tbl ingredient => _add_term_to_field tbl brand (strip ingredient))
          ingredient_to_brands (split "/" ingredients)
  else
    _add_term_to_field ingredient_to_brands brand (strip ingredients).

(** A therapy record under construction.  [fields] holds the list-valued
    entries ("aliases", "trade_names", "xrefs", "associated_with"). *)
Record Therapy := {
  concept_id : string;
  label : option string;
  approval_ratings : option (list string);
  PIN : option string;
  fields : gmap string (list string)
}.

Definition new_record (cid : string) : Therapy :=
  {| concept_id := cid; label := None; approval_ratings := None;
     PIN := None; fields := ∅ |}.

Definition set_label (v : string) (r : Therapy) : Therapy :=
  {| concept_id := concept_id r; label := Some v;
     approval_ratings := approval_ratings r; PIN := PIN r;
     fields := fields r |}.

Definition set_approval_ratings (v : list string) (r : Therapy) : Therapy :=
  {| concept_id := concept_id r; label := label r;
     approval_ratings := Some v; PIN := PIN r; fields := fields r |}.

Definition set_PIN (v : option string) (r : Therapy) : Therapy :=
  {| concept_id := concept_id r; label := label r;
     approval_ratings := approval_ratings r; PIN := v;
     fields := fields r |}.

Definition set_fields (v : gmap string (list string)) (r : Therapy) : Therapy :=
  {| concept_id := concept_id r; label := label r;
     approval_ratings := approval_ratings r; PIN := PIN r; fields := v |}.

(** [_add_term_to_field(record, field, term)] on a record *)
Definition add_term (r : Therapy) (field term : string) : Therapy :=
  set_fields (_add_term_to_field (fields r) field term) r.

(** The [records] dict: concept id to record, in insertion order. *)
Fixpoint records_get (cid : string) (records : list (string * Therapy))
    : option Therapy :=
  match records with
  | [] => None
  | (k, r) :: rest => if decide (k = cid) then Some r else records_get cid rest
  end.

Fixpoint records_set (cid : string) (r : Therapy)
    (records : list (string * Therapy)) : list (string * Therapy) :=
  match records with
  | [] => [(cid, r)]
  | (k, r0) :: rest =>
      if decide (k = cid) then (k, r) :: rest
      else (k, r0) :: records_set cid r rest
  end.

(** The [for df in drug_forms: if df in ...: ...; break] loop of
    [_add_str_field]: the first drug form that occurs in the string. *)
Fixpoint first_drug_form (drug_forms : list string) (s : string)
    : option string :=
  match drug_forms with
  | [] => None
  | df :: rest => if contains df s then Some df else first_drug_form rest s
  end.

Section Schema.

(** Names that [rxnorm.py] imports from [therapy] and
    [therapy.schemas]: the members of [XREF_SOURCES] and
    [ASSOC_WITH_SOURCES], the enumeration [NamespacePrefix] (member
    name to value, [None] for a name that is no member), and two
    enumeration values. *)
Variable XREF_SOURCES ASSOC_WITH_SOURCES : list string.
Variable NamespacePrefix : string -> option string.
Variable SourceName_RXNORM : string.
Variable RXNORM_PRESCRIBABLE : string.

(** [_add_str_field(params, row, precise_ingredient, drug_forms, sbdfs)];
    the three mutated dicts are returned. *)
Definition _add_str_field (params : Therapy) (row : Row)
    (precise_ingredient : gmap string (list string))
    (drug_forms : list string) (sbdfs : gmap string (list string))
    : Therapy * gmap string (list string) * gmap string (list string) :=
  let term := row14 row in
  let term_type := row12 row in
  let source := row11 row in
  let params :=
    if (bool_decide (term_type = "IN") || bool_decide (term_type = "PIN"))
       && bool_decide (source = "RXNORM")
    then
      let params := set_label term params in
      if bool_decide (row17 row = "4096")
      then set_approval_ratings [RXNORM_PRESCRIBABLE] params
      else params
    else if mem term_type ALIASES then add_term params "aliases" term
    else if mem term_type TRADE_NAMES then add_term params "trade_names" term
    else params in
  if bool_decide (source = "RXNORM") then
    if bool_decide (term_type = "SBDF") then
      let brand := bracket_brand term in
      let ingredient_strength := replace ("[" ++ brand ++ "]") "" term in
      match first_drug_form drug_forms ingredient_strength with
      | Some df =>
          let ingredient := strip (replace df "" ingredient_strength) in
          (params, precise_ingredient,
           _add_term_to_field sbdfs (lower ingredient) brand)
      | None => (params, precise_ingredient, sbdfs)
      end
    else (params, precise_ingredient, sbdfs)
  else if bool_decide (source = "MSH") then
    if bool_decide (term_type = "MH") then
      (set_PIN (Some (row13 row)) params, precise_ingredient, sbdfs)
    else if bool_decide (term_type = "PEP") then
      (params, _add_term_to_field precise_ingredient (row13 row) term, sbdfs)
    else (params, precise_ingredient, sbdfs)
  else (params, precise_ingredient, sbdfs).

(** [_add_xref_assoc(params, row)]; [None] is the [KeyError] of
    [NamespacePrefix[xref_assoc]]. *)
Definition _add_xref_assoc (params : Therapy) (row : Row) : option Therapy :=
  let ref := row11 row in
  let lui := row13 row in
  if truthy ref && negb (bool_decide (lui = "NOCODE")) then
    let xref_assoc :=
      if bool_decide (ref = "MTHSPL") then "UNII" else upper (row11 row) in
    if mem xref_assoc XREF_SOURCES then
      prefix ← NamespacePrefix xref_assoc;
      let source_id := prefix ++ ":" ++ lui in
      if bool_decide (source_id = concept_id params) then Some params
      else Some (add_term params "xrefs" source_id)
    else if mem xref_assoc ASSOC_WITH_SOURCES then
      prefix ← NamespacePrefix xref_assoc;
      let source_id := prefix ++ ":" ++ lui in
      Some (add_term params "associated_with" source_id)
    else Some params
  else Some params.

(** The five dicts of [_transform_data]. *)
Record Tables := {
  records : list (string * Therapy);
  ingredient_to_brands : gmap string (list string);
  precise_ingredient_to_brand : gmap string (list string);
  ingredient_to_sbdf : gmap string (list string);
  brand_to_concept_id : gmap string string
}.

Definition empty_tables : Tables :=
  {| records := []; ingredient_to_brands := ∅;
     precise_ingredient_to_brand := ∅; ingredient_to_sbdf := ∅;
     brand_to_concept_id := ∅ |}.

(** The body of the [for row in rff_data] loop.  [NamespacePrefix.RXNORM]
    is read as the member named RXNORM of the enumeration. *)
Definition pass1_row (drug_forms : list string) (t : Tables) (row : Row)
    : option Tables :=
  if mem (row11 row) RXNORM_XREFS then
    prefix ← NamespacePrefix "RXNORM";
    let cid := prefix ++ ":" ++ row0 row in
    let brands :=
      if bool_decide (row12 row = "BN") && bool_decide (row11 row = "RXNORM")
      then <[row14 row := cid]> (brand_to_concept_id t)
      else brand_to_concept_id t in
    if bool_decide (row12 row = "SBDC") && bool_decide (row11 row = "RXNORM")
    then
      Some {| records := records t;
              ingredient_to_brands := _get_brands row (ingredient_to_brands t);
              precise_ingredient_to_brand := precise_ingredient_to_brand t;
              ingredient_to_sbdf := ingredient_to_sbdf t;
              brand_to_concept_id := brands |}
    else
      let record :=
        match records_get cid (records t) with
        | None => new_record cid
        | Some r => r
        end in
      let '(record, pin, sbdf) :=
        _add_str_field record row (precise_ingredient_to_brand t)
                       drug_forms (ingredient_to_sbdf t) in
      record ← _add_xref_assoc record row;
      Some {| records := records_set cid record (records t);
              ingredient_to_brands := ingredient_to_brands t;
              precise_ingredient_to_brand := pin;
              ingredient_to_sbdf := sbdf;
              brand_to_concept_id := brands |}
  else Some t.

(** Pass 1: the sweep over all rows. *)
Fixpoint pass1 (drug_forms : list string) (t : Tables) (rows : list Row)
    : option Tables :=
  match rows with
  | [] => Some t
  | row :: rest => t' ← pass1_row drug_forms t row; pass1 drug_forms t' rest
  end.

(** The trade names found for one label: the comprehension over
    [ingredient_brands.items()] and the set built from it, in the
    order in which the set is iterated. *)
Definition brands_of_label (ingredient_brands : gmap string (list string))
    (label : string) : list string :=
  let trade_names :=
    omap (fun kv => if bool_decide (label = lower kv.1) then Some kv.2 else None)
         (map_to_list ingredient_brands) in
  elements (list_to_set (concat trade_names) : gset string).

(** [_get_trade_names(record, precise_ingredient, ingredient_brands,
    sbdfs)]; [None] is the [KeyError] of [record["label"]]. *)
Definition _get_trade_names (record : Therapy)
    (precise_ingredient ingredient_brands sbdfs : gmap string (list string))
    : option Therapy :=
  l ← label record;
  let record_label := lower l in
  let pins :=
    match PIN record with
    | Some pin =>
        match precise_ingredient !! pin with
        | Some ps => map lower ps
        | None => []
        end
    | None => []
    end in
  let labels := record_label :: pins in
  let record :=
    foldl (fun r label =>
             foldl (fun r tn => add_term r "trade_names" tn) r
                   (brands_of_label ingredient_brands label))
          record labels in
  match sbdfs !! record_label with
  | Some tns => Some (foldl (fun r tn => add_term r "trade_names" tn) record tns)
  | None => Some record
  end.

(** What reaches the sink: the items put on the batch writer by
    [_load_brand_concepts], and the records handed to
    [_load_therapy]. *)
Record BrandItem := {
  label_and_type : string;
  item_concept_id : string;
  src_name : string;
  item_type : string
}.

Inductive SinkOp :=
| PutItem (i : BrandItem)
| LoadTherapy (r : Therapy).

(** The concept an operation of the sink is about. *)
Definition sink_concept_id (op : SinkOp) : string :=
  match op with
  | PutItem i => item_concept_id i
  | LoadTherapy r => concept_id r
  end.

(** [_load_brand_concepts(record, brands, batch)] *)
Definition _load_brand_concepts (record : Therapy)
    (brands : gmap string string) : list BrandItem :=
  match fields record !! "trade_names" with
  | Some tns =>
      omap (fun tn =>
              match brands !! tn with
              | Some b =>
                  if truthy b
                  then Some {| label_and_type := b ++ "##rx_brand";
                               item_concept_id := concept_id record;
                               src_name := SourceName_RXNORM;
                               item_type := "rx_brand" |}
                  else None
              | None => None
              end) tns
  | None => []
  end.

(** The body of the [for record in records.values()] loop.  The
    [breakpoint()] left in the source stops in the debugger and changes
    no data. *)
Definition pass2_record (t : Tables) (record : Therapy) : option (list SinkOp) :=
  match label record with
  | Some _ =>
      record ← _get_trade_names record (precise_ingredient_to_brand t)
                 (ingredient_to_brands t) (ingredient_to_sbdf t);
      let puts := _load_brand_concepts record (brand_to_concept_id t) in
      let record := set_PIN None record in
      Some (map PutItem puts ++ [LoadTherapy record])%list
  | None => Some []
  end.

Fixpoint pass2 (t : Tables) (rs : list (string * Therapy))
    : option (list SinkOp) :=
  match rs with
  | [] => Some []
  | (_, r) :: rest =>
      ops ← pass2_record t r;
      ops' ← pass2 t rest;
      Some (ops ++ ops')%list
  end.

(** [_transform_data], from the rows of the source file and the drug
    forms of the YAML file to the sequence of sink operations. *)
Definition _transform_data (drug_forms : list string) (rows : list Row)
    : option (list SinkOp) :=
  t ← pass1 drug_forms empty_tables rows;
  pass2 t (records t).

End Schema.

End RxNorm.

(** ** [therapy/etl/drugbank.py] *)

Module DrugBank.

Import PyStr.

(** The [params] dict of [_transform_data].  The scalar entries are
    always present and may hold Python's [None]; the list-valued entries
    ("aliases", "other_identifiers", "trade_names") are in [fields] and
    can be deleted.  An entry of a list is a string or Python's [None]:
    the [text] of an empty XML element is [None], and the loaders append
    it as it is. *)
Record Params := {
  label_and_type : option string;
  concept_id : option string;
  label : option string;
  approval_status : option string;
  src_name : string;
  fields : gmap string (list (option string))
}.

Definition set_fields (f : gmap string (list (option string))) (p : Params) : Params :=
  {| label_and_type := label_and_type p; concept_id := concept_id p;
     label := label p; approval_status := approval_status p;
     src_name := src_name p; fields := f |}.

(** The dict literal at the head of the [for drug in root] loop. *)
Definition initial_params (SourceName_DRUGBANK : string) : Params :=
  {| label_and_type := None; concept_id := None; label := None;
     approval_status := None; src_name := SourceName_DRUGBANK;
     fields := <["aliases" := []]> (<["other_identifiers" := []]>
                 (<["trade_names" := []]> ∅)) |}.

(** The entries of a list for code that calls a string method on each
    of them ([a.casefold() for a in l]); [None] is the [AttributeError]
    raised on an entry that is Python's [None]. *)
Fixpoint strings (l : list (option string)) : option (list string) :=
  match l with
  | [] => Some []
  | Some a :: rest =>
      match strings rest with
      | Some rest' => Some (a :: rest')
      | None => None
      end
  | None :: _ => None
  end.

Section Casefold.

(** [str.casefold] *)
Variable casefold : string -> string.

(** [len({a.casefold() for a in l})], for a list of strings *)
Definition distinct_casefolded (l : list string) : nat :=
  size (list_to_set (casefold <$> l) : gset string).

(** One round of the [for label_type in ...] loop of [_load_therapy]:
    an empty list is deleted without a look at its entries; [None] is
    the [AttributeError] of [a.casefold()]. *)
Definition cap_field (label_type : string) (f : gmap string (list (option string)))
    : option (gmap string (list (option string))) :=
  match f !! label_type with
  | Some l =>
      if bool_decide (l = []) then Some (delete label_type f)
      else
        a ← strings l;
        if (20 <? distinct_casefolded a)%nat then Some (delete label_type f)
        else Some f
  | None => Some f
  end.

(** [_load_therapy(batch, params)]: the item put on the batch writer
    (it is [params] itself, as mutated); [None] is the [KeyError] of
    [params['other_identifiers']] or the [AttributeError] of
    [a.casefold()]. *)
Definition _load_therapy (params : Params) : option Params :=
  other_ids ← fields params !! "other_identifiers";
  let f :=
    if bool_decide (other_ids = []) then delete "other_identifiers" (fields params)
    else fields params in
  f ← cap_field "trade_names" f;
  f ← cap_field "aliases" f;
  Some (set_fields f params).

End Casefold.

(** A child of the <synonyms> element: its [text] ([None] when the
    element is empty) and its [language] attribute ([None] when the
    element has no such attribute). *)
Record Synonym := { text : option string; language : option string }.

(** [_load_synonyms(element, params)]; [None] is the [KeyError] of
    [params['aliases']] or of [alias.attrib['language']], which is read
    only when the text is not yet among the aliases. *)
Fixpoint _load_synonyms (element : list Synonym) (params : Params)
    : option Params :=
  match element with
  | [] => Some params
  | alias :: rest =>
      aliases ← fields params !! "aliases";
      if bool_decide (text alias ∈ aliases) then _load_synonyms rest params
      else
        lang ← language alias;
        if bool_decide (lang = "english")
        then _load_synonyms rest
               (set_fields (<["aliases" := (aliases ++ [text alias])%list]> (fields params))
                           params)
        else _load_synonyms rest params
  end.

End DrugBank.

(** ** [therapy/etl/wikidata.py] *)

Module Wikidata.

Import PyStr.

(** An identity item under construction: "other_identifiers", "xrefs"
    and "aliases" are entries of [fields]. *)
Record Item := {
  label_and_type : string;
  concept_id : string;
  src_name : string;
  label : option string;
  fields : gmap string (list string)
}.

Definition set_fields (f : gmap string (list string)) (i : Item) : Item :=
  {| label_and_type := label_and_type i; concept_id := concept_id i;
     src_name := src_name i; label := label i; fields := f |}.

(** [d[k]] and [d.keys()] of a dict given in insertion order. *)
Fixpoint dict_get {V} (k : string) (d : list (string * V)) : option V :=
  match d with
  | [] => None
  | (k', v) :: rest => if decide (k' = k) then Some v else dict_get k rest
  end.

Fixpoint dict_set {V} (k : string) (v : V) (d : list (string * V))
    : list (string * V) :=
  match d with
  | [] => [(k, v)]
  | (k', v') :: rest =>
      if decide (k' = k) then (k', v) :: rest else (k', v') :: dict_set k v rest
  end.

(** What is put on the batch writer by [_load_therapy]. *)
Record Lookup := {
  lk_label_and_type : string;
  lk_concept_id : string;
  lk_src_name : string
}.

Inductive SinkOp :=
| PutIdentity (i : Item)
| PutLookup (l : Lookup).

Section Schema.

(** Names that [wikidata.py] imports: the dict [IDENTIFIER_PREFIXES] of
    [therapy/etl/base.py], the enumeration [SourceIDAfterNamespace]
    (member name to value), the member names of [SourceName], and
    three enumeration values. *)
Variable IDENTIFIER_PREFIXES : list (string * string).
Variable SourceIDAfterNamespace : string -> option string.
Variable SourceName_members : list string.
Variable SourceName_CHEMIDPLUS SourceName_WIKIDATA : string.
Variable NamespacePrefix_WIKIDATA : string.
Variable casefold : string -> string.

(** [normalizer_srcs = {src for src in SourceName.__members__}] *)
Definition normalizer_srcs : list string := SourceName_members.

(** Where an identifier goes. *)
Inductive Class := OtherId (s : string) | Xref (s : string).

(** The body of [for key in IDENTIFIER_PREFIXES.keys()] for a key that
    the record has, with value [other_id]; [None] is a [KeyError]. *)
Definition remap (key : string) : string :=
  if bool_decide (upper key = "CASREGISTRY") then SourceName_CHEMIDPLUS
  else key.

Definition classify_key (key other_id : string) : option Class :=
  let key := remap key in
  if bool_decide (upper key ∈ normalizer_srcs) then
    if negb (bool_decide (key = "chembl")) then
      prefix ← dict_get key IDENTIFIER_PREFIXES;
      infix ← SourceIDAfterNamespace (upper key);
      Some (OtherId (prefix ++ ":" ++ infix ++ other_id))
    else
      prefix ← dict_get key IDENTIFIER_PREFIXES;
      Some (OtherId (prefix ++ ":" ++ other_id))
  else
    prefix ← dict_get key IDENTIFIER_PREFIXES;
    Some (Xref (prefix ++ ":" ++ other_id)).

(** The [for key in IDENTIFIER_PREFIXES.keys()] loop: the two lists
    [other_ids] and [xrefs]. *)
Fixpoint classify_keys (keys : list string) (record : gmap string string)
    (other_ids xrefs : list string) : option (list string * list string) :=
  match keys with
  | [] => Some (other_ids, xrefs)
  | key :: rest =>
      match record !! key with
      | Some other_id =>
          c ← classify_key key other_id;
          match c with
          | OtherId s => classify_keys rest record (other_ids ++ [s])%list xrefs
          | Xref s => classify_keys rest record other_ids (xrefs ++ [s])%list
          end
      | None => classify_keys rest record other_ids xrefs
      end
  end.

(** The item built for a concept id seen for the first time. *)
Definition new_item (cid : string) (record : gmap string string)
    : option Item :=
  '(other_ids, xrefs) ← classify_keys (IDENTIFIER_PREFIXES.*1) record [] [];
  Some {| label_and_type := lower cid ++ "##identity";
          concept_id := cid;
          src_name := SourceName_WIKIDATA;
          label := record !! "itemLabel";
          fields := <["xrefs" := xrefs]> (<["other_identifiers" := other_ids]> ∅) |}.

(** The body of the [for record in records] loop. *)
Definition transform_record (items : list (string * Item))
    (record : gmap string string) : option (list (string * Item)) :=
  it ← record !! "item";
  let record_id := last_field (split "/" it) in
  let cid := NamespacePrefix_WIKIDATA ++ ":" ++ record_id in
  items ←
    match dict_get cid items with
    | None => item ← new_item cid record; Some (dict_set cid item items)
    | Some _ => Some items
    end;
  match record !! "alias" with
  | Some alias =>
      item ← dict_get cid items;
      let aliases :=
        match fields item !! "aliases" with
        | Some l => (l ++ [alias])%list
        | None => [alias]
        end in
      Some (dict_set cid (set_fields (<["aliases" := aliases]> (fields item)) item) items)
  | None => Some items
  end.

Fixpoint transform_records (items : list (string * Item))
    (records : list (gmap string string)) : option (list (string * Item)) :=
  match records with
  | [] => Some items
  | record :: rest =>
      items ← transform_record items record;
      transform_records items rest
  end.

(** The first half of [_load_therapy(item, batch)]: [aliases] without
    repeated strings, in the iteration order of the set, and dropped
    when more than 20 distinct case-folded values remain. *)
Definition cap_aliases (item : Item) : Item :=
  match fields item !! "aliases" with
  | Some l =>
      let l' := elements (list_to_set l : gset string) in
      if (20 <? size (list_to_set (casefold <$> l') : gset string))%nat
      then set_fields (delete "aliases" (fields item)) item
      else set_fields (<["aliases" := l']> (fields item)) item
  | None => item
  end.

(** [_load_therapy(item, batch)]: the identity item, then one lookup
    per lowercased alias, then the label lookup. *)
Definition _load_therapy (item : Item) : list SinkOp :=
  let item := cap_aliases item in
  let concept_id_lower := lower (concept_id item) in
  let lookup pk :=
    PutLookup {| lk_label_and_type := pk; lk_concept_id := concept_id_lower;
                 lk_src_name := SourceName_WIKIDATA |} in
  let alias_ops :=
    match fields item !! "aliases" with
    | Some l =>
        (fun alias => lookup (alias ++ "##alias")) <$>
          elements (list_to_set (lower <$> l) : gset string)
    | None => []
    end in
  let label_ops :=
    match label item with
    | Some l => [lookup (lower l ++ "##label")]
    | None => []
    end in
  (PutIdentity item :: alias_ops ++ label_ops)%list.

(** An item whose two identifier attributes are those that [new_item]
    computed from one of the records. *)
Definition from_record (records : list (gmap string string))
    (i : Item) : Prop :=
  ∃ record cid item0,
    record ∈ records ∧ new_item cid record = Some item0 ∧
    fields i !! "other_identifiers" = fields item0 !! "other_identifiers" ∧
    fields i !! "xrefs" = fields item0 !! "xrefs".

(** [_transform_data]: from the decoded JSON records to the sequence
    of items put on the batch writer. *)
Definition _transform_data (records : list (gmap string string))
    : option (list SinkOp) :=
  items ← transform_records [] records;
  Some (items ≫= (fun kv => _load_therapy kv.2)).

End Schema.

End Wikidata.

(** ** [dynamodb_revisions/add_xrefs.py] *)

Module Backfill.

Import PyStr.

(** A typed DynamoDB attribute value, as the low-level client returns
    it: a one-entry dict such as [{'S': ...}], [{'L': [...]}] or
    [{'NULL': True}]. *)
#[local] Unset Elimination Schemes.
Inductive AttributeValue :=
| AvS (s : string)
| AvN (n : string)
| AvNULL
| AvL (l : list AttributeValue).
#[local] Set Elimination Schemes.

(** An item of the [therapy_concepts] table.  The table's primary key is
    the pair of string attributes [label_and_type] and [concept_id];
    [attrs] holds the other attributes. *)
Record Item := {
  label_and_type : string;
  concept_id : string;
  attrs : gmap string AttributeValue
}.

Definition Key : Type := string * string.

Definition key_of (i : Item) : Key := (label_and_type i, concept_id i).

Definition set_attrs (a : gmap string AttributeValue) (i : Item) : Item :=
  {| label_and_type := label_and_type i; concept_id := concept_id i;
     attrs := a |}.

(** The two kinds of [UpdateExpression] the job sends. *)
Inductive UpdateExpr :=
| SetIds (other_ids xrefs : list string)   (* set other_identifiers=:o, xrefs=:x *)
| Remove (attr : string).                  (* remove <attr> *)

Definition apply_expr (e : UpdateExpr) (a : gmap string AttributeValue)
    : gmap string AttributeValue :=
  match e with
  | SetIds o x =>
      <["xrefs" := AvL (AvS <$> x)]> (<["other_identifiers" := AvL (AvS <$> o)]> a)
  | Remove attr => delete attr a
  end.

(** [Table.update_item]: the item with the given key is edited in
    place; an item that does not exist is created. *)
Fixpoint upsert (k : Key) (e : UpdateExpr) (t : list Item) : list Item :=
  match t with
  | [] => [ {| label_and_type := k.1; concept_id := k.2;
               attrs := apply_expr e ∅ |} ]
  | i :: rest =>
      if decide (key_of i = k) then set_attrs (apply_expr e (attrs i)) i :: rest
      else i :: upsert k e rest
  end.

(** The database handle: the stored table, in the order in which a scan
    walks it, and the update requests received so far. *)
Record Db := {
  therapies : list Item;
  requests : list (Key * UpdateExpr)
}.

Definition db_update_item (db : Db) (k : Key) (e : UpdateExpr) : Db :=
  {| therapies := upsert k e (therapies db);
     requests := (requests db ++ [(k, e)])%list |}.

(** [FilterExpression='src_name <> :src_name'] with the value 'ChEMBL':
    an item without the attribute, or with another value, passes. *)
Definition passes_filter (i : Item) : bool :=
  match attrs i !! "src_name" with
  | Some (AvS s) => negb (bool_decide (s = "ChEMBL"))
  | _ => true
  end.

Fixpoint after_key (k : Key) (t : list Item) : list Item :=
  match t with
  | [] => []
  | i :: rest => if decide (key_of i = k) then rest else after_key k rest
  end.

Record Response := {
  Items : list Item;
  LastEvaluatedKey : option Key
}.

(** The outcome of code that can raise or loop. *)
Inductive result (A : Type) :=
| Ok (a : A)
| KeyError
| OutOfFuel.
Arguments Ok {A} a.
Arguments KeyError {A}.
Arguments OutOfFuel {A}.

#[global] Instance result_bind : MBind result := fun A B f m =>
  match m with
  | Ok a => f a
  | KeyError => KeyError
  | OutOfFuel => OutOfFuel
  end.

Section Job.

(** The number of items a scan evaluates per page, and the set
    [normalizer_srcs] (the [NamespacePrefix] values of the members of
    [SourceName]; both enumerations are in [therapy/schemas.py]). *)
Variable page_size : nat.
Variable normalizer_srcs : list string.

(** [ddb_client.scan]: the page of items evaluated after
    [ExclusiveStartKey], those that pass the filter, and the key of the
    last evaluated item when items remain. *)
Definition scan (t : list Item) (ExclusiveStartKey : option Key) : Response :=
  let rest :=
    match ExclusiveStartKey with
    | Some k => after_key k t
    | None => t
    end in
  let page := take page_size rest in
  {| Items := List.filter passes_filter page;
     LastEvaluatedKey :=
       match drop page_size rest with
       | [] => None
       | _ :: _ => key_of <$> last page
       end |}.

(** [other_id_xref.split(':')[0] in normalizer_srcs] *)
Definition is_native (other_id_xref : string) : bool :=
  bool_decide (first_field (split ":" other_id_xref) ∈ normalizer_srcs).

(** The [for prev_id in prev_ids] loop of [_add_xrefs_other_ids]. *)
Fixpoint classify_ids (prev_ids : list AttributeValue)
    (other_ids xrefs : list string) : result (list string * list string) :=
  match prev_ids with
  | [] => Ok (other_ids, xrefs)
  | AvS other_id_xref :: rest =>
      if is_native other_id_xref
      then classify_ids rest (other_ids ++ [other_id_xref])%list xrefs
      else classify_ids rest other_ids (xrefs ++ [other_id_xref])%list
  | _ :: _ => KeyError
  end.

(** [_add_xrefs_other_ids(record, attr, other_ids, xrefs,
    normalizer_srcs)]; the two lists it appends to are returned. *)
Definition _add_xrefs_other_ids (record : Item) (attr : string)
    (other_ids xrefs : list string) : result (list string * list string) :=
  match attrs record !! attr with
  | Some AvNULL => Ok (other_ids, xrefs)
  | Some (AvL prev_ids) => classify_ids prev_ids other_ids xrefs
  | Some _ => KeyError
  | None => Ok (other_ids, xrefs)
  end.

(** [update_item(db, record_identity, record_concept_id, other_ids,
    xrefs)] *)
Definition update_item (db : Db) (record_identity record_concept_id : string)
    (other_ids xrefs : list string) : Db :=
  let k := (record_identity, record_concept_id) in
  let db := db_update_item db k (SetIds other_ids xrefs) in
  let db :=
    match xrefs with
    | [] => db_update_item db k (Remove "xrefs")
    | _ :: _ => db
    end in
  match other_ids with
  | [] => db_update_item db k (Remove "other_identifiers")
  | _ :: _ => db
  end.

(** The two lists the job derives for a record. *)
Definition reclassify (record : Item) : result (list string * list string) :=
  '(other_ids, xrefs) ← _add_xrefs_other_ids record "other_identifiers" [] [];
  _add_xrefs_other_ids record "xrefs" other_ids xrefs.

(** The body of the [for record in records] loop. *)
Definition process_record (db : Db) (record : Item) : result Db :=
  let record_identity := label_and_type record in
  let record_concept_id := concept_id record in
  if contains "##identity" record_identity then
    '(other_ids, xrefs) ← reclassify record;
    Ok (update_item db record_identity record_concept_id other_ids xrefs)
  else Ok db.

Fixpoint process_records (db : Db) (records : list Item) : result Db :=
  match records with
  | [] => Ok db
  | record :: rest => db' ← process_record db record; process_records db' rest
  end.

(** The [while True] loop of [update_xrefs_other_ids]; [fuel] bounds
    the number of pages. *)
Fixpoint scan_loop (fuel : nat) (last_evaluated_key : option Key) (db : Db)
    : result Db :=
  match fuel with
  | O => OutOfFuel
  | S fuel' =>
      let response := scan (therapies db) last_evaluated_key in
      let last_evaluated_key := LastEvaluatedKey response in
      db' ← process_records db (Items response);
      match last_evaluated_key with
      | None => Ok db'
      | Some _ => scan_loop fuel' last_evaluated_key db'
      end
  end.

(** [update_xrefs_other_ids(db)] *)
Definition update_xrefs_other_ids (fuel : nat) (db : Db) : result Db :=
  scan_loop fuel None db.

(** *** What the job does to one item

    The definitions below are not in the source: they name the effect
    of [update_item] on the attributes of the item it addresses, and
    the records the loop reaches, so that the properties of the job can
    be stated. *)

(** The three updates of [update_item], on the attributes. *)
Definition migrated_attrs (other_ids xrefs : list string)
    (a : gmap string AttributeValue) : gmap string AttributeValue :=
  let a := apply_expr (SetIds other_ids xrefs) a in
  let a :=
    match xrefs with
    | [] => apply_expr (Remove "xrefs") a
    | _ :: _ => a
    end in
  match other_ids with
  | [] => apply_expr (Remove "other_identifiers") a
  | _ :: _ => a
  end.

(** The requests of [update_item], in order. *)
Definition update_requests (k : Key) (other_ids xrefs : list string)
    : list (Key * UpdateExpr) :=
  ((k, SetIds other_ids xrefs) ::
   match xrefs with [] => [(k, Remove "xrefs")] | _ :: _ => [] end ++
   match other_ids with [] => [(k, Remove "other_identifiers")] | _ :: _ => [] end)%list.

(** A record the loop updates: the scan returns it and its
    [label_and_type] contains ##identity. *)
Definition is_processed (record : Item) : bool :=
  passes_filter record && contains "##identity" (label_and_type record).

(** A record on which the job does not raise. *)
Definition classifiable (record : Item) : Prop :=
  is_processed record = true → ∃ ox, reclassify record = Ok ox.

Definition migrate (record : Item) : Item :=
  if is_processed record then
    match reclassify record with
    | Ok (other_ids, xrefs) =>
        set_attrs (migrated_attrs other_ids xrefs (attrs record)) record
    | _ => record
    end
  else record.

Definition requests_for (record : Item) : list (Key * UpdateExpr) :=
  if is_processed record then
    match reclassify record with
    | Ok (other_ids, xrefs) => update_requests (key_of record) other_ids xrefs
    | _ => []
    end
  else [].

(** The cursor of the scan loop: no key before the first page, then
    the key of the last item evaluated. *)
Definition cursor_at (last : option Key) (done : list Item) : Prop :=
  match last with
  | None => done = []
  | Some k => ∃ done' i, done = (done' ++ [i])%list ∧ key_of i = k
  end.

End Job.

(** [Table.get_item]: the stored item with a given key, and one of its
    attributes. *)
Fixpoint stored (k : Key) (t : list Item) : option Item :=
  match t with
  | [] => None
  | i :: rest => if decide (key_of i = k) then Some i else stored k rest
  end.

Definition stored_attr (t : list Item) (k : Key) (attr : string)
    : option AttributeValue :=
  i ← stored k t; attrs i !! attr.

(** The identifiers a stored record holds under an attribute. *)
Definition legacy_ids (record : Item) (attr : string) : list AttributeValue :=
  match attrs record !! attr with
  | Some (AvL prev_ids) => prev_ids
  | _ => []
  end.

(** The attributes a request writes. *)
Definition written (e : UpdateExpr) : list string :=
  match e with
  | SetIds _ _ => ["other_identifiers"; "xrefs"]
  | Remove attr => [attr]
  end.

(** From [db] to [db'] nothing but "other_identifiers" and "xrefs" was
    written: every other attribute of every stored item reads as before,
    and every new request writes only these two. *)
Definition only_ids_written (db db' : Db) : Prop :=
  (∀ k attr, attr ≠ "other_identifiers" → attr ≠ "xrefs" →
     stored_attr (therapies db') k attr = stored_attr (therapies db) k attr) ∧
  (∀ k e, (k, e) ∈ requests db' →
     (k, e) ∈ requests db ∨
     ∀ attr, attr ∈ written e → attr = "other_identifiers" ∨ attr = "xrefs").

End Backfill.

(** ** Concrete inputs *)

Module Examples.

Import PyStr.

(** A registry in the shape of [therapy/schemas.py], for concrete runs. *)
Definition demo_XREF_SOURCES : list string :=
  ["WIKIDATA"; "CHEMBL"; "DRUGBANK"; "RXNORM"; "CHEMIDPLUS"].

Definition demo_ASSOC_WITH_SOURCES : list string :=
  ["ATC"; "MSH"; "MMSL"; "UNII"; "VANDF"].

Definition demo_NamespacePrefix (name : string) : option string :=
  if bool_decide (name ∈ demo_XREF_SOURCES ++ demo_ASSOC_WITH_SOURCES)%list
  then Some (if bool_decide (name = "RXNORM") then "rxcui" else lower name)
  else None.

(** A row of the RxNorm file whose own code is its RXCUI. *)
Definition rxnorm_row (rxcui sab tty str : string) : RxNorm.Row :=
  {| RxNorm.row0 := rxcui; RxNorm.row11 := sab; RxNorm.row12 := tty;
     RxNorm.row13 := rxcui; RxNorm.row14 := str; RxNorm.row17 := "" |}.

Definition sbdc_row : RxNorm.Row :=
  rxnorm_row "2" "RXNORM" "SBDC" "Aspirin 325 MG [Bufferin]".

(** The three rows of the linker example. *)
Definition aspirin_rows : list RxNorm.Row :=
  [ rxnorm_row "1" "RXNORM" "IN" "Aspirin";
    sbdc_row;
    rxnorm_row "3" "RXNORM" "BN" "Bufferin" ].

(** The record of concept rxcui:1 after pass 1 of the example. *)
Definition aspirin_record : RxNorm.Therapy :=
  RxNorm.set_label "Aspirin" (RxNorm.new_record "rxcui:1").

(** The registries that rows of the terminology's own authority can tell
    apart: RXNORM is a member or not, and its prefix is rxcui. *)
Definition own_registry (b : bool) : list string :=
  if b then ["RXNORM"] else [].

Definition own_prefix (name : string) : option string :=
  if bool_decide (name = "RXNORM") then Some "rxcui" else None.

Definition demo_transform (rows : list RxNorm.Row) : option (list RxNorm.SinkOp) :=
  RxNorm._transform_data demo_XREF_SOURCES demo_ASSOC_WITH_SOURCES
    demo_NamespacePrefix "RxNorm" "rxnorm_prescribable" [] rows.

(** Twenty-one aliases that stay distinct under case folding, and the
    last twenty of them. *)
Definition aliases_21 : list string :=
  ["Alias A"; "Alias B"; "Alias C"; "Alias D"; "Alias E"; "Alias F";
   "Alias G"; "Alias H"; "Alias I"; "Alias J"; "Alias K"; "Alias L";
   "Alias M"; "Alias N"; "Alias O"; "Alias P"; "Alias Q"; "Alias R";
   "Alias S"; "Alias T"; "Alias U"].

Definition aliases_20 : list string := tail aliases_21.

(** A DrugBank record with 21 aliases and 20 trade names. *)
Definition drugbank_params : DrugBank.Params :=
  DrugBank.set_fields
    (<["aliases" := Some <$> aliases_21]> (<["trade_names" := Some <$> aliases_20]>
       (<["other_identifiers" := [Some "chembl:CHEMBL25"]]> ∅)))
    (DrugBank.initial_params "DrugBank").

(** Two synonyms that differ only in case. *)
Definition aspirin_synonyms : list DrugBank.Synonym :=
  [ {| DrugBank.text := Some "Aspirin"; DrugBank.language := Some "english" |};
    {| DrugBank.text := Some "ASPIRIN"; DrugBank.language := Some "english" |} ].

(** Wikidata items with 21 and with 20 aliases. *)
Definition wikidata_item (aliases : list string) : Wikidata.Item :=
  {| Wikidata.label_and_type := "wikidata:q1##identity";
     Wikidata.concept_id := "wikidata:Q1";
     Wikidata.src_name := "Wikidata";
     Wikidata.label := Some "Aspirin";
     Wikidata.fields :=
       <["aliases" := aliases]> (<["xrefs" := []]> (<["other_identifiers" := []]> ∅)) |}.

(** A registry for the Wikidata adapter, and two decoded records of one
    entity: the first has identifiers, the second only an alias. *)
Definition demo_IDENTIFIER_PREFIXES : list (string * string) :=
  [("casRegistry", "chemidplus"); ("ChemIDplus", "chemidplus");
   ("pubchemCompound", "pubchem.compound");
   ("pubchemSubstance", "pubchem.substance");
   ("chembl", "chembl"); ("rxnorm", "rxcui"); ("drugbank", "drugbank");
   ("wikidata", "wikidata")].

Definition demo_SourceIDAfterNamespace (name : string) : option string :=
  if bool_decide (name = "WIKIDATA") then Some "Q"
  else if bool_decide (name = "DRUGBANK") then Some "DB"
  else if bool_decide (name = "CHEMIDPLUS") then Some "CAS:"
  else if bool_decide (name ∈ ["CHEMBL"; "RXNORM"]) then Some ""
  else None.

Definition demo_SourceName_members : list string :=
  ["WIKIDATA"; "CHEMBL"; "DRUGBANK"; "RXNORM"; "CHEMIDPLUS"].

Definition wikidata_records : list (gmap string string) :=
  [ <["item" := "http://www.wikidata.org/entity/Q18216"]>
      (<["itemLabel" := "aspirin"]> (<["casRegistry" := "50-78-2"]>
      (<["pubchemCompound" := "2244"]> (<["chembl" := "CHEMBL25"]>
      (<["alias" := "ASA"]> ∅)))));
    <["item" := "http://www.wikidata.org/entity/Q18216"]>
      (<["alias" := "Acetylsalicylic acid"]> ∅);
    <["item" := "http://www.wikidata.org/entity/Q2"]>
      (<["itemLabel" := "water"]> ∅) ].

(** The item of the third record, which has no identifier. *)
Definition water_item : Wikidata.Item :=
  {| Wikidata.label_and_type := "wikidata:q2##identity";
     Wikidata.concept_id := "wikidata:Q2";
     Wikidata.src_name := "Wikidata";
     Wikidata.label := Some "water";
     Wikidata.fields := <["xrefs" := []]> (<["other_identifiers" := []]> ∅) |}.

Definition demo_wikidata_transform (records : list (gmap string string))
    : option (list Wikidata.SinkOp) :=
  Wikidata._transform_data demo_IDENTIFIER_PREFIXES demo_SourceIDAfterNamespace
    demo_SourceName_members "ChemIDplus" "Wikidata" "wikidata" casefold records.

(** The identity item of the first entity, as the transform puts it. *)
Definition aspirin_item : Wikidata.Item :=
  match demo_wikidata_transform wikidata_records with
  | Some (Wikidata.PutIdentity i :: _) => i
  | _ => water_item
  end.

(** A stored table: two identity records of sources other than ChEMBL
    (one with legacy identifiers of both kinds in "other_identifiers", one
    with a null marker and nothing else), a label lookup, and a ChEMBL
    identity record. *)
Definition demo_normalizer_srcs : list string :=
  ["wikidata"; "chembl"; "drugbank"; "rxcui"; "chemidplus"].

Definition stored_item (lt cid src : string)
    (extra : list (string * Backfill.AttributeValue)) : Backfill.Item :=
  {| Backfill.label_and_type := lt; Backfill.concept_id := cid;
     Backfill.attrs :=
       <["src_name" := Backfill.AvS src]> (list_to_map extra) |}.

Definition demo_table : list Backfill.Item :=
  [ stored_item "wikidata:q18216##identity" "wikidata:Q18216" "Wikidata"
      [("label", Backfill.AvS "aspirin");
       ("aliases", Backfill.AvL [Backfill.AvS "ASA"]);
       ("other_identifiers",
        Backfill.AvL [Backfill.AvS "chembl:CHEMBL25";
                      Backfill.AvS "pubchem.compound:2244"])];
    stored_item "aspirin##label" "wikidata:q18216" "Wikidata" [];
    stored_item "chembl:chembl25##identity" "chembl:CHEMBL25" "ChEMBL"
      [("label", Backfill.AvS "ASPIRIN")];
    stored_item "drugbank:db00945##identity" "drugbank:DB00945" "DrugBank"
      [("label", Backfill.AvS "Acetylsalicylic acid");
       ("approval_status", Backfill.AvS "approved");
       ("other_identifiers", Backfill.AvNULL)] ].

Definition demo_db : Backfill.Db :=
  {| Backfill.therapies := demo_table; Backfill.requests := [] |}.

(** One run of the job over a database, two items per page. *)
Definition demo_run (db : Backfill.Db) : Backfill.result Backfill.Db :=
  Backfill.update_xrefs_other_ids 2 demo_normalizer_srcs 10 db.

(** The database after a first run, and the one a second run starts
    from: the same table, with an empty request log. *)
Definition first_run_db : Backfill.Db :=
  match demo_run demo_db with
  | Backfill.Ok db => db
  | _ => demo_db
  end.

Definition after_first_run : Backfill.Db :=
  {| Backfill.therapies := Backfill.therapies first_run_db;
     Backfill.requests := [] |}.

Definition second_run_db : Backfill.Db :=
  match demo_run after_first_run with
  | Backfill.Ok db => db
  | _ => after_first_run
  end.

(** The first record of the table, and the fourth, whose lists come out
    empty. *)
Definition wikidata_stored : Backfill.Item :=
  stored_item "wikidata:q18216##identity" "wikidata:Q18216" "Wikidata"
    [("label", Backfill.AvS "aspirin");
     ("aliases", Backfill.AvL [Backfill.AvS "ASA"]);
     ("other_identifiers",
      Backfill.AvL [Backfill.AvS "chembl:CHEMBL25";
                    Backfill.AvS "pubchem.compound:2244"])].

Definition drugbank_stored : Backfill.Item :=
  stored_item "drugbank:db00945##identity" "drugbank:DB00945" "DrugBank"
    [("label", Backfill.AvS "Acetylsalicylic acid");
     ("approval_status", Backfill.AvS "approved");
     ("other_identifiers", Backfill.AvNULL)].

End Examples.

(** ** The statements of the specification, in its words *)

Module Spec.

Import RxNorm.

(** The [records] dict is keyed by the concept ids of its records. *)
Definition records_wf (rs : list (string * Therapy)) : Prop :=
  NoDup rs.*1 ∧ ∀ cid r, (cid, r) ∈ rs → concept_id r = cid.

(** The linker example as the specification puts it: the record of
    rxcui:1 is loaded with label Aspirin and a trade name Bufferin, and
    exactly one rx_brand item is put, keyed by the lowercased brand
    text and carrying the concept id of the brand table's entry. *)
Definition is_put (op : SinkOp) : bool :=
  match op with PutItem _ => true | LoadTherapy _ => false end.

Definition linker_example (ops : list SinkOp) : Prop :=
  (∃ r tns, LoadTherapy r ∈ ops ∧ concept_id r = "rxcui:1" ∧
            label r = Some "Aspirin" ∧
            fields r !! "trade_names" = Some tns ∧ "Bufferin" ∈ tns) ∧
  (∃ i, List.filter is_put ops = [PutItem i] ∧
        label_and_type i = "bufferin##rx_brand" ∧
        item_concept_id i = "rxcui:3" ∧ item_type i = "rx_brand").

(** A Wikidata identity item carries both identifier attributes. *)
Definition has_both (i : Wikidata.Item) : Prop :=
  is_Some (Wikidata.fields i !! "other_identifiers") ∧
  is_Some (Wikidata.fields i !! "xrefs").

End Spec.

(** ** More of [therapy/etl/rxnorm.py] *)

Module RxNormFiles.

Import PyStr RxNorm.

(** The loop of [_create_drug_form_yaml]: the list [dfs], extended by the
    rows read from the source file. *)
Fixpoint collect_drug_forms (rows : list Row) (dfs : list string) : list string :=
  match rows with
  | [] => dfs
  | row :: rest =>
      if bool_decide (row12 row = "DF") && bool_decide (row11 row = "RXNORM")
      then if mem (row14 row) dfs
           then collect_drug_forms rest dfs
           else collect_drug_forms rest (dfs ++ [row14 row])%list
      else collect_drug_forms rest dfs
  end.

(** [_create_drug_form_yaml]: the list that is dumped to the YAML file. *)
Definition _create_drug_form_yaml (rows : list Row) : list string :=
  collect_drug_forms rows [].

(** The rows that pass the test [row[11] in RXNORM_XREFS]. *)
Definition allowed (row : Row) : bool := mem (row11 row) RXNORM_XREFS.

(** The rows that take the SBDC branch of the pass-1 loop. *)
Definition is_sbdc (row : Row) : bool :=
  bool_decide (row12 row = "SBDC") && bool_decide (row11 row = "RXNORM").

(** The records a sink sequence loads. *)
Definition loaded (ops : list SinkOp) : list Therapy :=
  omap (fun op => match op with LoadTherapy r => Some r | PutItem _ => None end) ops.

(** From [r] to [r'] only the list under "trade_names" changed, and it
    only grew at its end. *)
Definition trade_names_grew (r r' : Therapy) : Prop :=
  concept_id r' = concept_id r ∧ label r' = label r ∧
  approval_ratings r' = approval_ratings r ∧ PIN r' = PIN r ∧
  (∀ field, field ≠ "trade_names" → fields r' !! field = fields r !! field) ∧
  (∀ old, fields r !! "trade_names" = Some old →
     ∃ new, fields r' !! "trade_names" = Some new ∧ old `prefix_of` new).

(** A record does not list its own concept id among its "xrefs". *)
Definition no_self_xref (r : Therapy) : Prop :=
  ∀ l, fields r !! "xrefs" = Some l → concept_id r ∉ l.

(** No list of the record holds the same string twice. *)
Definition lists_distinct (r : Therapy) : Prop :=
  ∀ field l, fields r !! field = Some l → NoDup l.


(** The character [c] does not occur in [s]. *)
Fixpoint char_free (c : ascii) (s : string) : bool :=
  match s with
  | EmptyString => true
  | String c' s' => negb (Ascii.eqb c' c) && char_free c s'
  end.

End RxNormFiles.

(** ** More of [therapy/etl/drugbank.py]: the walk over the XML tree *)

Module DrugBankXml.

Import PyStr DrugBank.

(** What [parent.find(tag).text] gives for a sub-element of a child:
    [None] when the child has no such sub-element ([find] returns
    Python's [None], and [.text] raises [AttributeError]); otherwise
    the text, itself Python's [None] for an empty element. *)
Definition SubText : Type := option (option string).

(** A child of <products>, by its <name>, <generic>, <approved> and
    <over-the-counter> sub-elements. *)
Record Product := {
  product_name : SubText;
  generic : SubText;
  approved : SubText;
  over_the_counter : SubText
}.

(** A child of <external-identifiers>, by its <resource> and
    <identifier> sub-elements. *)
Record ExternalIdentifier := {
  resource : SubText;
  identifier : SubText
}.

(** A child element of a <drug>, by tag, with what its loader reads of
    it.  A [text] is [None] when the element is empty; a child of
    <international-brands> is given by its <name> sub-element; a child
    with another tag, a comment or a processing instruction is
    [other_element]. *)
Inductive Element :=
| drugbank_id (primary : bool) (id_text : option string)
| name (name_text : option string)
| synonyms (children : list Synonym)
| international_brands (brand_names : list SubText)
| products (children : list Product)
| external_identifiers (children : list ExternalIdentifier)
| cas_number (cas_text : option string)
| groups (group_texts : list (option string))
| other_element.

(** A text inside an f-string: Python's [None] is formatted as the
    string None. *)
Definition fstr (text : option string) : string := default "None" text.

Definition set_ids (cid lt : string) (p : Params) : Params :=
  {| label_and_type := Some lt; concept_id := Some cid;
     label := label p; approval_status := approval_status p;
     src_name := src_name p; fields := fields p |}.

Definition set_label (l : option string) (p : Params) : Params :=
  {| label_and_type := label_and_type p; concept_id := concept_id p;
     label := l; approval_status := approval_status p;
     src_name := src_name p; fields := fields p |}.

Definition set_approval_status (a : string) (p : Params) : Params :=
  {| label_and_type := label_and_type p; concept_id := concept_id p;
     label := label p; approval_status := Some a;
     src_name := src_name p; fields := fields p |}.

(** [params[field].append(v)]; [None] is the [KeyError]. *)
Definition append_to (field : string) (v : option string) (p : Params)
    : option Params :=
  l ← fields p !! field;
  Some (set_fields (<[field := (l ++ [v])%list]> (fields p)) p).

(** [if v not in params[field]: params[field].append(v)] *)
Definition append_new (field : string) (v : option string) (p : Params)
    : option Params :=
  l ← fields p !! field;
  if bool_decide (v ∈ l) then Some p
  else Some (set_fields (<[field := (l ++ [v])%list]> (fields p)) p).

(** A lookup item put on the batch writer. *)
Record Lookup := {
  lk_label_and_type : string;
  lk_concept_id : string;
  lk_src_name : string
}.

Inductive SinkOp :=
| PutIdentity (p : Params)
| PutLookup (l : Lookup).

(** The dict [params] still has its three lists. *)
Definition has_lists (p : Params) : Prop :=
  is_Some (fields p !! "aliases") ∧ is_Some (fields p !! "other_identifiers") ∧
  is_Some (fields p !! "trade_names").

(** An entry of [l] that stands at two places satisfies [R]. *)
Definition repeats_only (R : option string -> Prop) (l : list (option string))
    : Prop :=
  ∀ i j x, (i < j)%nat → l !! i = Some x → l !! j = Some x → R x.

(** From [p] to [p'] nothing changed but the list under [F], to which
    entries that satisfy [Q] were appended; an appended entry that was
    in the list already satisfies [U]. *)
Definition appended (F : string) (Q U : option string -> Prop) (p p' : Params)
    : Prop :=
  ∃ l added, fields p !! F = Some l ∧
    p' = set_fields (<[F := (l ++ added)%list]> (fields p)) p ∧
    Forall Q added ∧
    ∀ R : option string -> Prop,
      (∀ s, U s → R s) → repeats_only R l → repeats_only R (l ++ added)%list.

(** The test of [_load_products] on the three flags of a product. *)
Definition flagged (product : Product) : bool :=
  bool_decide (generic product = Some (Some "true"))
  || bool_decide (approved product = Some (Some "true"))
  || bool_decide (over_the_counter product = Some (Some "true")).

(** A <drugbank-id> element with the attribute [primary]. *)
Definition is_primary_id (e : Element) : bool :=
  match e with drugbank_id true _ => true | _ => false end.

(** [label_and_type] is the identity key of [concept_id], or both are
    still [None]. *)
Definition linked (p : Params) : Prop :=
  label_and_type p = (fun c => lower c ++ "##identity") <$> concept_id p.

(** The child has the sub-elements that its loader dereferences: the
    <name> of an international brand, the four sub-elements of a
    product, the two of an external identifier. *)
Definition has_sub_elements (e : Element) : bool :=
  match e with
  | international_brands brand_names =>
      forallb (fun brand : SubText => bool_decide (is_Some brand)) brand_names
  | products children =>
      forallb (fun product =>
                 bool_decide (is_Some (product_name product))
                 && bool_decide (is_Some (generic product))
                 && bool_decide (is_Some (approved product))
                 && bool_decide (is_Some (over_the_counter product))) children
  | external_identifiers children =>
      forallb (fun external_identifier =>
                 bool_decide (is_Some (resource external_identifier))
                 && bool_decide (is_Some (identifier external_identifier)))
              children
  | _ => true
  end.

(** The child can be read by its loader: it has its sub-elements, and
    every synonym has the attribute [language]. *)
Definition readable (e : Element) : bool :=
  match e with
  | synonyms children =>
      forallb (fun alias => bool_decide (is_Some (language alias))) children
  | _ => has_sub_elements e
  end.

(** Every text that the loaders put among the aliases or the trade
    names is a string: the text of a secondary <drugbank-id>, of an
    English synonym, of the <name> of an international brand and of
    the <name> of a flagged product. *)
Definition has_texts (e : Element) : bool :=
  match e with
  | drugbank_id false id_text => bool_decide (is_Some id_text)
  | synonyms children =>
      forallb (fun alias =>
                 bool_decide (language alias = Some "english" → is_Some (text alias)))
              children
  | international_brands brand_names =>
      forallb (fun brand : SubText => bool_decide (brand ≠ Some None)) brand_names
  | products children =>
      forallb (fun product =>
                 bool_decide (flagged product = true →
                              product_name product ≠ Some None)) children
  | _ => true
  end.

Section Schema.

(** Names that [drugbank.py] imports: the values of the enumeration
    [NamespacePrefix] by member name, [IDENTIFIER_PREFIXES['casRegistry']],
    three values of [ApprovalStatus], [SourceName.DRUGBANK.value], and
    [str.casefold]. *)
Variable NamespacePrefix : string -> string.
Variable casRegistry_prefix : string.
Variable WITHDRAWN APPROVED INVESTIGATIONAL : string.
Variable SourceName_DRUGBANK : string.
Variable casefold : string -> string.

(** [DRUGBANK_IDENTIFIER_PREFIXES] *)
Definition DRUGBANK_IDENTIFIER_PREFIXES : list (string * string) :=
  [("ChEBI", NamespacePrefix "CHEBI");
   ("ChEMBL", NamespacePrefix "CHEMBL");
   ("PubChem Compound", NamespacePrefix "PUBCHEMCOMPOUND");
   ("PubChem Substance", NamespacePrefix "PUBCHEMSUBSTANCE");
   ("KEGG Compound", NamespacePrefix "KEGGCOMPOUND");
   ("KEGG Drug", NamespacePrefix "KEGGDRUG");
   ("ChemSpider", NamespacePrefix "CHEMSPIDER");
   ("BindingDB", NamespacePrefix "BINDINGDB");
   ("PharmGKB", NamespacePrefix "PHARMGKB");
   ("ZINC", NamespacePrefix "ZINC");
   ("RxCUI", NamespacePrefix "RXNORM");
   ("PDB", NamespacePrefix "PDB");
   ("Therapeutic Targets Database", NamespacePrefix "THERAPEUTICTARGETSDB");
   ("IUPHAR", NamespacePrefix "IUPHAR");
   ("Guide to Pharmacology", NamespacePrefix "GUIDETOPHARMACOLOGY")].

(** [_load_drugbank_id(element, params)]: a secondary id is appended to
    the aliases as it is, without a look at the list. *)
Definition _load_drugbank_id (primary : bool) (text : option string)
    (params : Params) : option Params :=
  if primary then
    let cid := NamespacePrefix "DRUGBANK" ++ ":" ++ fstr text in
    Some (set_ids cid (lower cid ++ "##identity") params)
  else append_to "aliases" text params.

(** [_load_international_brands(element, params, xmlns)]; [None] is
    the [AttributeError] of [.text] on a missing <name>. *)
Fixpoint _load_international_brands (element : list SubText) (params : Params)
    : option Params :=
  match element with
  | [] => Some params
  | international_brand :: rest =>
      name ← international_brand;
      params ← append_new "aliases" name params;
      _load_international_brands rest params
  end.

(** [_load_approval_status(element, params)] *)
Definition _load_approval_status (element : list (option string)) (params : Params)
    : Params :=
  let group_type := element in
  if bool_decide (Some "withdrawn" ∈ group_type)
  then set_approval_status WITHDRAWN params
  else if bool_decide (Some "approved" ∈ group_type)
  then set_approval_status APPROVED params
  else if bool_decide (Some "investigational" ∈ group_type)
  then set_approval_status INVESTIGATIONAL params
  else params.

(** [_load_cas_number(element, params)] *)
Definition _load_cas_number (text : option string) (params : Params)
    : option Params :=
  match text with
  | Some t =>
      if truthy t
      then append_to "other_identifiers" (Some (casRegistry_prefix ++ ":" ++ t)) params
      else Some params
  | None => Some params
  end.

(** [_load_external_identifiers(element, params, xmlns)]: both texts
    are read before the resource is looked up; a resource without text
    is no key of the table. *)
Fixpoint _load_external_identifiers (element : list ExternalIdentifier)
    (params : Params) : option Params :=
  match element with
  | [] => Some params
  | external_identifier :: rest =>
      src ← resource external_identifier;
      identifier ← identifier external_identifier;
      match src ≫= (fun src => Wikidata.dict_get src DRUGBANK_IDENTIFIER_PREFIXES) with
      | Some prefix =>
          params ← append_to "other_identifiers"
                     (Some (prefix ++ ":" ++ fstr identifier)) params;
          _load_external_identifiers rest params
      | None => _load_external_identifiers rest params
      end
  end.

(** [_load_products(element, params, xmlns)]: the four texts are read
    before the flags are tested. *)
Fixpoint _load_products (element : list Product) (params : Params)
    : option Params :=
  match element with
  | [] => Some params
  | product :: rest =>
      name ← product_name product;
      generic ← generic product;
      approved ← approved product;
      over_the_counter ← over_the_counter product;
      if bool_decide (generic = Some "true")
         || bool_decide (approved = Some "true")
         || bool_decide (over_the_counter = Some "true")
      then
        params ← append_new "trade_names" name params;
        _load_products rest params
      else _load_products rest params
  end.

(** One round of the [for element in drug] loop of [_transform_data]. *)
Definition load_element (params : Params) (element : Element) : option Params :=
  match element with
  | drugbank_id primary text => _load_drugbank_id primary text params
  | name text => Some (set_label text params)
  | synonyms children => _load_synonyms children params
  | international_brands names => _load_international_brands names params
  | products children => _load_products children params
  | external_identifiers children => _load_external_identifiers children params
  | cas_number text => _load_cas_number text params
  | groups texts => Some (_load_approval_status texts params)
  | other_element => Some params
  end.

Fixpoint load_elements (params : Params) (drug : list Element) : option Params :=
  match drug with
  | [] => Some params
  | element :: rest => params ← load_element params element; load_elements params rest
  end.

Definition lookup_item (key tag : string) (cid : string) : SinkOp :=
  PutLookup {| lk_label_and_type := lower key ++ tag;
               lk_concept_id := lower cid;
               lk_src_name := SourceName_DRUGBANK |}.

(** [_load_label(label, concept_id, batch)]; [None] is the
    [AttributeError] of [concept_id.lower()] on Python's [None]. *)
Definition _load_label (label : string) (concept_id : option string)
    : option (list SinkOp) :=
  cid ← concept_id; Some [lookup_item label "##label" cid].

(** [list(set({a.casefold(): a for a in l}.values()))]: of the values
    with one case-folded form the last one stays; the order is that of
    the set's iteration. *)
Definition one_per_casefold (l : list string) : list string :=
  let d : gmap string string := foldl (fun d a => <[casefold a := a]> d) ∅ l in
  elements (list_to_set (map_to_list d).*2 : gset string).

(** [_load_aliases(aliases, concept_id, batch)], called with a non-empty
    list; [None] is the [AttributeError] of [a.casefold()] on an entry
    that is Python's [None], or that of [concept_id.lower()]. *)
Definition _load_aliases (aliases : list (option string)) (concept_id : option string)
    : option (list SinkOp) :=
  values ← strings aliases;
  match one_per_casefold values with
  | [] => Some []
  | alias :: rest =>
      cid ← concept_id;
      Some ((fun alias => lookup_item alias "##alias" cid) <$> (alias :: rest))
  end.

(** [_load_trade_names(trade_names, concept_id, batch)] *)
Definition _load_trade_names (trade_names : list (option string))
    (concept_id : option string) : option (list SinkOp) :=
  values ← strings trade_names;
  match one_per_casefold values with
  | [] => Some []
  | trade_name :: rest =>
      cid ← concept_id;
      Some ((fun trade_name => lookup_item trade_name "##trade_name" cid)
              <$> (trade_name :: rest))
  end.

(** What [_transform_data] does after the element loop of one drug. *)
Definition load_drug (params : Params) : option (list SinkOp) :=
  item ← _load_therapy casefold params;
  label_ops ←
    match label item with
    | Some l => if truthy l then _load_label l (concept_id item) else Some []
    | None => Some []
    end;
  alias_ops ←
    match fields item !! "aliases" with
    | Some (a :: l) => _load_aliases (a :: l) (concept_id item)
    | _ => Some []
    end;
  trade_name_ops ←
    match fields item !! "trade_names" with
    | Some (a :: l) => _load_trade_names (a :: l) (concept_id item)
    | _ => Some []
    end;
  Some (PutIdentity item :: label_ops ++ alias_ops ++ trade_name_ops)%list.

(** The body of the [for drug in root] loop. *)
Definition transform_drug (drug : list Element) : option (list SinkOp) :=
  params ← load_elements (initial_params SourceName_DRUGBANK) drug;
  load_drug params.

(** [_transform_data], from the children of the root to the sequence of
    items put on the batch writer. *)
Fixpoint _transform_data (root : list (list Element)) : option (list SinkOp) :=
  match root with
  | [] => Some []
  | drug :: rest =>
      ops ← transform_drug drug;
      ops' ← _transform_data rest;
      Some (ops ++ ops')%list
  end.

(** The entry [s] is one that the element [e] contributes to the list
    under [field]. *)
Definition comes_from (field : string) (e : Element) (s : option string) : Prop :=
  match e with
  | drugbank_id false id_text => field = "aliases" ∧ s = id_text
  | synonyms children =>
      field = "aliases" ∧
      ∃ alias, alias ∈ children ∧ language alias = Some "english" ∧ text alias = s
  | international_brands brand_names => field = "aliases" ∧ Some s ∈ brand_names
  | products children =>
      field = "trade_names" ∧
      ∃ product, product ∈ children ∧ flagged product = true ∧
                 product_name product = Some s
  | external_identifiers children =>
      field = "other_identifiers" ∧
      ∃ external_identifier src id prefix,
        external_identifier ∈ children ∧
        resource external_identifier = Some (Some src) ∧
        identifier external_identifier = Some id ∧
        Wikidata.dict_get src DRUGBANK_IDENTIFIER_PREFIXES = Some prefix ∧
        s = Some (prefix ++ ":" ++ fstr id)
  | cas_number (Some t) =>
      field = "other_identifiers" ∧ t ≠ "" ∧ s = Some (casRegistry_prefix ++ ":" ++ t)
  | _ => False
  end.

(** The element [e] appends [s] to the list under [field] without a
    look at what the list holds. *)
Definition unchecked (field : string) (e : Element) (s : option string) : Prop :=
  match e with
  | drugbank_id false id_text => field = "aliases" ∧ s = id_text
  | external_identifiers _ | cas_number _ => field = "other_identifiers"
  | _ => False
  end.

End Schema.

End DrugBankXml.

(** ** More of [therapy/etl/wikidata.py] *)

Module WikidataMore.

Import PyStr Wikidata.

(** [_sqlite_str(string)] *)
Definition _sqlite_str (s : string) : string :=
  if bool_decide (s = "NULL") then "NULL"
  else replace "'" "''" s.

(** The identity items of a sink sequence. *)
Definition identities (ops : list SinkOp) : list Item :=
  omap (fun op => match op with PutIdentity i => Some i | PutLookup _ => None end) ops.

(** A block of the sink sequence: an identity item and the lookups put
    right after it. *)
Definition block (b : Item * list Lookup) : list SinkOp :=
  PutIdentity b.1 :: (PutLookup <$> b.2).

(** The concept id of the entity that an "item" value names. *)
Definition entity (NamespacePrefix_WIKIDATA it : string) : string :=
  NamespacePrefix_WIKIDATA ++ ":" ++ last_field (split "/" it).

(** Every item of the dict is stored under its concept id. *)
Definition keyed (items : list (string * Item)) : Prop :=
  ∀ k i, (k, i) ∈ items → concept_id i = k.

(** Two items that differ at most in their "aliases". *)
Definition same_identity (i i' : Item) : Prop :=
  concept_id i' = concept_id i ∧ label i' = label i ∧
  ∀ attr, attr ≠ "aliases" → fields i' !! attr = fields i !! attr.

End WikidataMore.

(** ** More of [dynamodb_revisions/add_xrefs.py] *)

Module BackfillMore.

Import PyStr Backfill.

(** An identifier attribute that [_add_xrefs_other_ids] can read: it is
    absent, a null marker, or a list of strings. *)
Definition readable (a : option AttributeValue) : Prop :=
  match a with
  | None => True
  | Some AvNULL => True
  | Some (AvL prev_ids) => ∃ ids, prev_ids = AvS <$> ids
  | Some _ => False
  end.

End BackfillMore.

(** ** More concrete inputs *)

Module MoreExamples.

Import PyStr.

Definition df_rows : list RxNorm.Row :=
  [ Examples.rxnorm_row "10" "RXNORM" "DF" "Oral Tablet";
    Examples.rxnorm_row "11" "MSH" "DF" "Chewable Tablet";
    Examples.rxnorm_row "12" "RXNORM" "DF" "Oral Capsule";
    Examples.rxnorm_row "13" "RXNORM" "DF" "Oral Tablet";
    Examples.rxnorm_row "14" "RXNORM" "IN" "Aspirin" ].

(** The record of rxcui:1 with one trade name. *)
Definition ecotrin_record : RxNorm.Therapy :=
  RxNorm.add_term Examples.aspirin_record "trade_names" "Ecotrin".

(** An ingredient row with the prescribable flag, a row of another
    vocabulary for the same concept, and a branded drug component. *)
Definition prescribable_rows : list RxNorm.Row :=
  [ {| RxNorm.row0 := "1"; RxNorm.row11 := "RXNORM"; RxNorm.row12 := "IN";
       RxNorm.row13 := "1"; RxNorm.row14 := "Aspirin"; RxNorm.row17 := "4096" |};
    {| RxNorm.row0 := "1"; RxNorm.row11 := "DRUGBANK"; RxNorm.row12 := "IN";
       RxNorm.row13 := "DB00945"; RxNorm.row14 := "Aspirin"; RxNorm.row17 := "" |};
    Examples.sbdc_row ].

(** The record the transform loads for these rows. *)
Definition prescribable_record : RxNorm.Therapy :=
  match Examples.demo_transform prescribable_rows with
  | Some (RxNorm.LoadTherapy r :: _) => r
  | _ => RxNorm.new_record ""
  end.

(** An ingredient, a brand name that another vocabulary files under the
    ingredient's concept, and the brand's own row. *)
Definition linked_rows : list RxNorm.Row :=
  [ Examples.rxnorm_row "1" "RXNORM" "IN" "Aspirin";
    {| RxNorm.row0 := "1"; RxNorm.row11 := "MMSL"; RxNorm.row12 := "BN";
       RxNorm.row13 := "4455"; RxNorm.row14 := "Bufferin"; RxNorm.row17 := "" |};
    Examples.rxnorm_row "3" "RXNORM" "BN" "Bufferin" ].

Definition linked_ops : list RxNorm.SinkOp :=
  default [] (Examples.demo_transform linked_rows).

Definition linked_item : RxNorm.BrandItem :=
  match linked_ops with
  | RxNorm.PutItem i :: _ => i
  | _ => {| RxNorm.label_and_type := ""; RxNorm.item_concept_id := "";
            RxNorm.src_name := ""; RxNorm.item_type := "" |}
  end.

(** The tables after pass 1 over the rows of the linker example. *)
Definition aspirin_tables : RxNorm.Tables :=
  match RxNorm.pass1 Examples.demo_XREF_SOURCES Examples.demo_ASSOC_WITH_SOURCES
          Examples.demo_NamespacePrefix "rxnorm_prescribable" []
          RxNorm.empty_tables Examples.aspirin_rows with
  | Some t => t
  | None => RxNorm.empty_tables
  end.

(** A drug of the DrugBank file, and a drug without a primary id, a
    name or anything else to look up. *)
Definition aspirin_drug : list DrugBankXml.Element :=
  [ DrugBankXml.drugbank_id true (Some "DB00945");
    DrugBankXml.drugbank_id false (Some "APRD00264");
    DrugBankXml.name (Some "Acetylsalicylic acid");
    DrugBankXml.cas_number (Some "50-78-2");
    DrugBankXml.groups [Some "approved"; Some "vet_approved"];
    DrugBankXml.synonyms
      [ {| DrugBank.text := Some "Aspirin"; DrugBank.language := Some "english" |};
        {| DrugBank.text := Some "Aspirina"; DrugBank.language := Some "spanish" |} ];
    DrugBankXml.products
      [ {| DrugBankXml.product_name := Some (Some "Bufferin");
           DrugBankXml.generic := Some (Some "false");
           DrugBankXml.approved := Some (Some "true");
           DrugBankXml.over_the_counter := Some (Some "true") |};
        {| DrugBankXml.product_name := Some (Some "Bufferin");
           DrugBankXml.generic := Some (Some "true");
           DrugBankXml.approved := Some (Some "true");
           DrugBankXml.over_the_counter := Some (Some "false") |};
        {| DrugBankXml.product_name := Some (Some "Unmarketed");
           DrugBankXml.generic := Some (Some "false");
           DrugBankXml.approved := Some (Some "false");
           DrugBankXml.over_the_counter := Some (Some "false") |} ];
    DrugBankXml.international_brands [Some (Some "Aspro")];
    DrugBankXml.external_identifiers
      [ {| DrugBankXml.resource := Some (Some "ChEBI");
           DrugBankXml.identifier := Some (Some "15365") |};
        {| DrugBankXml.resource := Some (Some "Wikipedia");
           DrugBankXml.identifier := Some (Some "Aspirin") |} ];
    DrugBankXml.other_element ].

Definition anonymous_drug : list DrugBankXml.Element :=
  [ DrugBankXml.name None; DrugBankXml.groups [Some "approved"] ].

(** A drug that lists the same secondary id twice, and one whose two
    English synonyms differ in case only. *)
Definition repeated_id_drug : list DrugBankXml.Element :=
  [ DrugBankXml.drugbank_id true (Some "DB00001");
    DrugBankXml.drugbank_id false (Some "BTD00024");
    DrugBankXml.drugbank_id false (Some "BTD00024") ].

Definition case_variant_drug : list DrugBankXml.Element :=
  [ DrugBankXml.drugbank_id true (Some "DB00945");
    DrugBankXml.synonyms Examples.aspirin_synonyms ].

(** Children that their loaders cannot read: a synonym without the
    attribute [language], an international brand without <name>, and a
    secondary id without text. *)
Definition no_language_drug : list DrugBankXml.Element :=
  [ DrugBankXml.drugbank_id true (Some "DB00945");
    DrugBankXml.synonyms
      [ {| DrugBank.text := Some "Aspirin"; DrugBank.language := None |} ] ].

Definition no_brand_name_drug : list DrugBankXml.Element :=
  [ DrugBankXml.drugbank_id true (Some "DB00945");
    DrugBankXml.international_brands [None] ].

Definition empty_id_drug : list DrugBankXml.Element :=
  [ DrugBankXml.drugbank_id true (Some "DB00945");
    DrugBankXml.drugbank_id false None ].

(** The DrugBank transform with a registry in the shape of
    [therapy/schemas.py]. *)
Definition demo_transform_drug (drug : list DrugBankXml.Element)
    : option (list DrugBankXml.SinkOp) :=
  DrugBankXml.transform_drug lower "chemidplus" "withdrawn" "approved"
    "investigational" "DrugBank" casefold drug.

(** The list under [field] of the identity item that the transform
    puts for a drug. *)
Definition stored_list (drug : list DrugBankXml.Element) (field : string)
    : option (list (option string)) :=
  match demo_transform_drug drug with
  | Some (DrugBankXml.PutIdentity item :: _) => DrugBank.fields item !! field
  | _ => None
  end.

Definition demo_drugbank_transform (root : list (list DrugBankXml.Element))
    : option (list DrugBankXml.SinkOp) :=
  DrugBankXml._transform_data lower "chemidplus" "withdrawn" "approved"
    "investigational" "DrugBank" casefold root.

Definition aspirin_drug_ops : list DrugBankXml.SinkOp :=
  match demo_transform_drug aspirin_drug with
  | Some ops => ops
  | None => []
  end.

Definition aspirin_drug_item : DrugBank.Params :=
  match aspirin_drug_ops with
  | DrugBankXml.PutIdentity item :: _ => item
  | _ => DrugBank.initial_params ""
  end.

Definition anonymous_drug_ops : list DrugBankXml.SinkOp :=
  match demo_transform_drug anonymous_drug with
  | Some ops => ops
  | None => []
  end.

(** Decoded Wikidata records: one of the entity Q2, then two of the
    entity Q18216, the second with another label and one more
    identifier. *)
Definition water_record : gmap string string :=
  <["item" := "http://www.wikidata.org/entity/Q2"]> (<["itemLabel" := "water"]> ∅).

Definition aspirin_first_record : gmap string string :=
  <["item" := "http://www.wikidata.org/entity/Q18216"]>
    (<["itemLabel" := "aspirin"]> (<["casRegistry" := "50-78-2"]>
    (<["pubchemCompound" := "2244"]> (<["chembl" := "CHEMBL25"]>
    (<["alias" := "ASA"]> ∅))))).

Definition aspirin_second_record : gmap string string :=
  <["item" := "http://www.wikidata.org/entity/Q18216"]>
    (<["itemLabel" := "acetylsalicylic acid"]> (<["rxnorm" := "1191"]>
    (<["alias" := "Acetylsalicylic acid"]> ∅))).

Definition reordered_records : list (gmap string string) :=
  [water_record; aspirin_first_record; aspirin_second_record].

Definition reordered_ops : list Wikidata.SinkOp :=
  default [] (Examples.demo_wikidata_transform reordered_records).

Definition reordered_aspirin_item : Wikidata.Item :=
  match WikidataMore.identities reordered_ops with
  | _ :: i :: _ => i
  | _ => Examples.water_item
  end.

(** The example table after a run of the job with one item per page. *)
Definition one_per_page_db : Backfill.Db :=
  match Backfill.update_xrefs_other_ids 1 Examples.demo_normalizer_srcs 10
          Examples.demo_db with
  | Backfill.Ok db => db
  | _ => Examples.demo_db
  end.

End MoreExamples.

(** * Properties *)

(** ** The RxNorm linker *)

Module RxNormFacts.

Import PyStr RxNorm Examples.

(** C2 (what the code does at the failing input).  For the row
    {RXNORM, SBDC, "Aspirin 325 MG [Bufferin]"} and an empty table,
    [_get_brands] strips "325 MG", finds the brand "Bufferin" and the
    ingredient "Aspirin", and then stores the ingredient in a list under
    the key "Bufferin": the table is keyed by brand, and looking the
    ingredient up in it, as pass 2 does, finds no brand. *)
Theorem C2_get_brands_keys_by_brand :
  Re.sub_delete strength_pattern (row14 sbdc_row) = "Aspirin  [Bufferin]" ∧
  bracket_brand (row14 sbdc_row) = "Bufferin" ∧
  map_to_list (_get_brands sbdc_row ∅) = [("Bufferin", ["Aspirin"])] ∧
  _get_brands sbdc_row ∅ !! "Aspirin" = None ∧
  brands_of_label (_get_brands sbdc_row ∅) "aspirin" = [].
Proof. vm_compute. repeat split; reflexivity. Qed.

(** C1 (counterexample).  On the three rows of the example the
    transform hands one record to the loader, rxcui:1 with label
    Aspirin and without any trade name, and puts no rx_brand item; so
    the example as the specification states it does not hold. *)
Lemma C1_linker_example_fails :
  demo_transform aspirin_rows = Some [LoadTherapy aspirin_record] ∧
  ¬ Spec.linker_example [LoadTherapy aspirin_record].
Proof.
  split; [vm_compute; reflexivity|].
  intros [_ (i & Hi & _)]. discriminate Hi.
Qed.

(** *** Rows of the terminology's own authority depend on the
    registry only through three lookups *)

Section OwnRows.

Variables (XS AS XS' AS' : list string) (NP NP' : string -> option string).
Variables (presc : string) (drug_forms : list string).
Hypothesis HX : mem "RXNORM" XS = mem "RXNORM" XS'.
Hypothesis HA : mem "RXNORM" AS = mem "RXNORM" AS'.
Hypothesis HN : NP "RXNORM" = NP' "RXNORM".

Lemma add_xref_assoc_own params row :
  row11 row = "RXNORM" →
  _add_xref_assoc XS AS NP params row = _add_xref_assoc XS' AS' NP' params row.
Proof.
  intros H11. unfold _add_xref_assoc. rewrite H11.
  change (upper "RXNORM") with "RXNORM".
  change (bool_decide ("RXNORM" = "MTHSPL")) with false. cbv iota.
  by rewrite HX, HA, HN.
Qed.

Lemma pass1_row_own t row :
  row11 row = "RXNORM" →
  pass1_row XS AS NP presc drug_forms t row
  = pass1_row XS' AS' NP' presc drug_forms t row.
Proof.
  intros H11. pose proof add_xref_assoc_own as Hx.
  unfold pass1_row. rewrite HN.
  destruct (mem (row11 row) RXNORM_XREFS); [|done].
  destruct (NP' "RXNORM") as [prefix|]; [|done]. cbn.
  destruct (bool_decide (row12 row = "SBDC") && bool_decide (row11 row = "RXNORM"));
    [done|].
  destruct (_add_str_field _ _ _ _ _ _) as [[record pin] sbdf].
  by rewrite Hx.
Qed.

Lemma pass1_own rows t :
  Forall (λ row, row11 row = "RXNORM") rows →
  pass1 XS AS NP presc drug_forms t rows
  = pass1 XS' AS' NP' presc drug_forms t rows.
Proof.
  intros Hrows. revert t.
  induction Hrows as [|row rows H11 _ IH]; intros t; [done|].
  cbn. rewrite (pass1_row_own _ _ H11).
  destruct (pass1_row XS' AS' NP' presc drug_forms t row); [apply IH|done].
Qed.

End OwnRows.

(** *** The items of [_load_brand_concepts] *)

Lemma load_brand_concepts_elem src record brands i :
  i ∈ _load_brand_concepts src record brands ↔
  ∃ tns tn b,
    fields record !! "trade_names" = Some tns ∧ tn ∈ tns ∧
    brands !! tn = Some b ∧ b ≠ "" ∧
    i = {| label_and_type := b ++ "##rx_brand";
           item_concept_id := concept_id record;
           src_name := src; item_type := "rx_brand" |}.
Proof.
  unfold _load_brand_concepts. split.
  - destruct (fields record !! "trade_names") as [tns|]; [|by intros ?%elem_of_nil].
    intros (tn & Htn & Hi)%list_elem_of_omap.
    destruct (brands !! tn) as [b|] eqn:Hb; [|done].
    destruct b as [|c b]; [done|]. cbn in Hi. injection Hi as <-.
    by exists tns, tn, (String c b).
  - intros (tns & tn & b & -> & Htn & Hb & Hne & ->).
    apply list_elem_of_omap. exists tn. split; [done|]. rewrite Hb.
    by destruct b.
Qed.

(** *** The [records] dict is keyed by the records' own concept ids *)

Lemma records_get_Some cid r rs :
  records_get cid rs = Some r → (cid, r) ∈ rs.
Proof.
  induction rs as [|[k r0] rs IH]; cbn; [done|].
  case_decide as Hk.
  - intros [= ->]. subst k. apply list_elem_of_here.
  - intros H. apply list_elem_of_further, IH, H.
Qed.

Lemma records_get_elem cid r rs :
  NoDup rs.*1 → (cid, r) ∈ rs → records_get cid rs = Some r.
Proof.
  induction rs as [|[k r0] rs IH]; cbn; [by intros _ ?%elem_of_nil|].
  intros [Hk Hnd]%NoDup_cons [[= -> ->]|Hin]%elem_of_cons.
  - by rewrite decide_True.
  - rewrite decide_False; [by apply IH|].
    intros ->. apply Hk. apply list_elem_of_fmap. by exists (cid, r).
Qed.

Lemma records_set_keys cid r rs :
  (records_set cid r rs).*1 =
  if bool_decide (cid ∈ rs.*1) then rs.*1 else (rs.*1 ++ [cid])%list.
Proof.
  induction rs as [|[k r0] rs IH]; [done|].
  cbn [records_set]. destruct (decide (k = cid)) as [->|Hk].
  - cbn. rewrite bool_decide_eq_true_2; [done|apply list_elem_of_here].
  - cbn [fmap list_fmap fst]. rewrite IH. destruct (bool_decide (cid ∈ rs.*1)) eqn:Hin.
    + apply bool_decide_eq_true in Hin.
      rewrite bool_decide_eq_true_2; [done|by apply list_elem_of_further].
    + apply bool_decide_eq_false in Hin.
      rewrite bool_decide_eq_false_2; [done|].
      intros [->|?]%elem_of_cons; done.
Qed.

Lemma records_set_elem cid r rs k r' :
  (k, r') ∈ records_set cid r rs → (k, r') = (cid, r) ∨ (k, r') ∈ rs.
Proof.
  induction rs as [|[k0 r0] rs IH]; cbn.
  - intros ->%list_elem_of_singleton. by left.
  - case_decide as Hk.
    + subst k0. intros [->|Hin]%elem_of_cons; [by left|].
      right. by apply list_elem_of_further.
    + intros [->|Hin]%elem_of_cons; [right; apply list_elem_of_here|].
      destruct (IH Hin) as [?|?]; [by left|right; by apply list_elem_of_further].
Qed.

Lemma records_set_wf cid r rs :
  Spec.records_wf rs → concept_id r = cid → Spec.records_wf (records_set cid r rs).
Proof.
  intros [Hnd Hids] Hr. split.
  - rewrite records_set_keys. case_bool_decide as Hin; [done|].
    apply NoDup_app. split; [done|]. split; [|apply NoDup_singleton].
    intros x Hx ->%list_elem_of_singleton. done.
  - intros k r' [[= -> ->]|Hin]%records_set_elem; [done|by apply Hids].
Qed.

Section Transform.

Variables (XS AS : list string) (NP : string -> option string).
Variables (src presc : string) (drug_forms : list string).

Lemma add_str_field_concept_id params row pin sbdfs :
  concept_id (_add_str_field presc params row pin drug_forms sbdfs).1.1
  = concept_id params.
Proof.
  unfold _add_str_field.
  repeat (match goal with |- context [if ?b then _ else _] => destruct b end);
    try done.
  all: by destruct (first_drug_form _ _).
Qed.

Lemma add_xref_assoc_concept_id params row params' :
  _add_xref_assoc XS AS NP params row = Some params' →
  concept_id params' = concept_id params.
Proof.
  unfold _add_xref_assoc.
  repeat (match goal with |- context [if ?b then _ else _] => destruct b end);
    try destruct (NP _); cbn; try done.
  all: try case_bool_decide; by intros [= <-].
Qed.

Lemma pass1_row_wf t row t' :
  pass1_row XS AS NP presc drug_forms t row = Some t' →
  Spec.records_wf (records t) → Spec.records_wf (records t').
Proof.
  unfold pass1_row. destruct (mem (row11 row) RXNORM_XREFS); [|by intros [= <-]].
  destruct (NP "RXNORM") as [prefix|]; [|done]. cbn.
  destruct (bool_decide (row12 row = "SBDC") && bool_decide (row11 row = "RXNORM"));
    [by intros [= <-]|].
  set (cid := prefix ++ ":" ++ row0 row).
  set (old := match records_get cid (records t) with
              | Some r => r | None => new_record cid end).
  pose proof (add_str_field_concept_id old row (precise_ingredient_to_brand t)
                (ingredient_to_sbdf t)) as Hs.
  destruct (_add_str_field _ _ _ _ _ _) as [[record pin] sbdf]. cbn in Hs.
  destruct (_add_xref_assoc XS AS NP record row) as [record'|] eqn:Hx; [|done].
  cbn. intros [= <-] Hwf. cbn. apply records_set_wf; [done|].
  rewrite (add_xref_assoc_concept_id _ _ _ Hx), Hs. subst old.
  destruct (records_get cid (records t)) as [r|] eqn:Hr; [|done].
  destruct Hwf as [_ Hids]. by apply Hids, records_get_Some.
Qed.

Lemma pass1_wf rows t t' :
  pass1 XS AS NP presc drug_forms t rows = Some t' →
  Spec.records_wf (records t) → Spec.records_wf (records t').
Proof.
  revert t. induction rows as [|row rows IH]; intros t; cbn.
  - by intros [= <-].
  - destruct (pass1_row XS AS NP presc drug_forms t row) as [t1|] eqn:H1; [|done].
    cbn. intros H Hwf. eapply IH; [done|]. by eapply pass1_row_wf.
Qed.

Lemma add_terms_concept_id r field tns :
  concept_id (foldl (λ r tn, add_term r field tn) r tns) = concept_id r ∧
  label (foldl (λ r tn, add_term r field tn) r tns) = label r.
Proof.
  revert r. induction tns as [|tn tns IH]; intros r; [done|].
  cbn. destruct (IH (add_term r field tn)) as [-> ->]. done.
Qed.

Lemma add_brands_concept_id brands r ls :
  concept_id (foldl (λ r label, foldl (λ r tn, add_term r "trade_names" tn) r
                                      (brands_of_label brands label)) r ls)
  = concept_id r ∧
  label (foldl (λ r label, foldl (λ r tn, add_term r "trade_names" tn) r
                                 (brands_of_label brands label)) r ls)
  = label r.
Proof.
  revert r. induction ls as [|x ls IH]; intros r; [done|].
  cbn. destruct (IH (foldl (λ r tn, add_term r "trade_names" tn) r
                           (brands_of_label brands x))) as [-> ->].
  apply add_terms_concept_id.
Qed.

Lemma get_trade_names_concept_id record pin brands sbdfs record' :
  _get_trade_names record pin brands sbdfs = Some record' →
  concept_id record' = concept_id record ∧ label record' = label record.
Proof.
  unfold _get_trade_names. destruct (label record) as [l|] eqn:Hl; [|done].
  cbn [mbind option_bind].
  match goal with |- context [foldl ?f record (?x :: ?ls)] =>
    destruct (add_brands_concept_id brands record (x :: ls)) as [Hc Hlab];
    set (record1 := foldl f record (x :: ls)) in *
  end.
  destruct (sbdfs !! lower l) as [tns|]; intros [= <-].
  - destruct (add_terms_concept_id record1 "trade_names" tns) as [H1 H2].
    split; congruence.
  - split; congruence.
Qed.

(** Every operation of pass 2 is about a labelled record. *)
Lemma pass2_record_ops t record ops op :
  pass2_record src t record = Some ops → op ∈ ops →
  is_Some (label record) ∧ sink_concept_id op = concept_id record ∧
  ∀ r', op = LoadTherapy r' → label r' = label record.
Proof.
  unfold pass2_record. destruct (label record) as [l|] eqn:Hl;
    [|by intros [= <-] ?%elem_of_nil].
  destruct (_get_trade_names record _ _ _) as [record'|] eqn:Hg; [|done].
  apply get_trade_names_concept_id in Hg as [Hc Hlab].
  cbn. intros [= <-] [Hop|Hop]%elem_of_app.
  - apply list_elem_of_fmap in Hop as (i & -> & Hi).
    apply load_brand_concepts_elem in Hi as (? & ? & ? & _ & _ & _ & _ & ->).
    cbn. split; [done|]. split; [done|]. intros r' [=].
  - apply list_elem_of_singleton in Hop as ->. cbn.
    split; [done|]. split; [done|]. intros r' [= <-]. cbn. congruence.
Qed.

Lemma pass2_ops t rs ops op :
  pass2 src t rs = Some ops → op ∈ ops →
  ∃ cid r, (cid, r) ∈ rs ∧ is_Some (label r) ∧
           sink_concept_id op = concept_id r ∧
           ∀ r', op = LoadTherapy r' → label r' = label r.
Proof.
  revert ops. induction rs as [|[cid r] rs IH]; intros ops; cbn.
  - by intros [= <-] ?%elem_of_nil.
  - destruct (pass2_record src t r) as [ops1|] eqn:H1; [|done]. cbn.
    destruct (pass2 src t rs) as [ops2|]; [|done]. cbn.
    intros [= <-] [Hop|Hop]%elem_of_app.
    + destruct (pass2_record_ops _ _ _ _ H1 Hop) as (? & ? & ?).
      exists cid, r. split; [apply list_elem_of_here|done].
    + destruct (IH _ eq_refl Hop) as (cid' & r' & Hin & ?).
      exists cid', r'. split; [by apply list_elem_of_further|done].
Qed.

(** Dropping the records without a label before pass 2 changes
    nothing. *)
Lemma pass2_labelled_only t rs :
  pass2 src t rs
  = pass2 src t (List.filter (λ kr, bool_decide (is_Some (label kr.2))) rs).
Proof.
  induction rs as [|[cid r] rs IH]; [done|]. cbn.
  case_bool_decide as Hl; cbn; rewrite <- IH.
  - done.
  - unfold pass2_record. destruct (label r); [by destruct Hl|]. cbn.
    by destruct (pass2 src t rs).
Qed.

(** C7.  A record that has no label when pass 1 ends is dropped: the
    body of the pass-2 loop does nothing for it, pass 2 gives the same
    result without it, and no operation that reaches the sink (no
    loaded record, no brand association) carries its concept id; every
    record that is loaded has a label. *)
Theorem C7_unlabelled_record_dropped rows t ops cid r :
  pass1 XS AS NP presc drug_forms empty_tables rows = Some t →
  _transform_data XS AS NP src presc drug_forms rows = Some ops →
  records_get cid (records t) = Some r →
  label r = None →
  pass2_record src t r = Some [] ∧
  pass2 src t (records t)
  = pass2 src t (List.filter (λ kr, bool_decide (is_Some (label kr.2))) (records t)) ∧
  (∀ op, op ∈ ops → sink_concept_id op ≠ cid) ∧
  (∀ r', LoadTherapy r' ∈ ops → is_Some (label r')).
Proof.
  intros Hp Ht Hget Hlab. unfold _transform_data in Ht. rewrite Hp in Ht.
  cbn in Ht.
  assert (Hwf : Spec.records_wf (records t)).
  { eapply pass1_wf; [exact Hp|]. split; [apply NoDup_nil_2|].
    by intros ? ? ?%elem_of_nil. }
  split; [unfold pass2_record; by rewrite Hlab|].
  split; [apply pass2_labelled_only|].
  split.
  - intros op Hop Heq.
    destruct (pass2_ops _ _ _ _ Ht Hop) as (cid' & r2 & Hin & Hsome & Hc & _).
    destruct Hwf as [Hnd Hids].
    rewrite Hc, (Hids _ _ Hin) in Heq. subst cid'.
    rewrite (records_get_elem _ _ _ Hnd Hin) in Hget.
    injection Hget as ->. rewrite Hlab in Hsome. by destruct Hsome.
  - intros r' Hop.
    destruct (pass2_ops _ _ _ _ Ht Hop) as (cid' & r2 & _ & Hsome & _ & Hl).
    by rewrite (Hl r' eq_refl).
Qed.

End Transform.

Lemma C7_unlabelled_record_dropped_witness :
  ∃ t r,
    records_get "rxcui:3" (records t) = Some r ∧ label r = None ∧
    pass2_record "RxNorm" t r = Some [] ∧
    pass2 "RxNorm" t (records t)
    = pass2 "RxNorm" t
        (List.filter (λ kr, bool_decide (is_Some (label kr.2))) (records t)) ∧
    (∀ op, op ∈ [LoadTherapy aspirin_record] → sink_concept_id op ≠ "rxcui:3") ∧
    (∀ r', LoadTherapy r' ∈ [LoadTherapy aspirin_record] → is_Some (label r')).
Proof.
  eexists _, _.
  split; [|split; [|eapply (C7_unlabelled_record_dropped
             demo_XREF_SOURCES demo_ASSOC_WITH_SOURCES demo_NamespacePrefix
             "RxNorm" "rxnorm_prescribable" [] aspirin_rows _ _ "rxcui:3")]].
  3: vm_compute; reflexivity.
  3: vm_compute; reflexivity.
  1: vm_compute; reflexivity.
  1: reflexivity.
  1: vm_compute; reflexivity.
  1: reflexivity.
Defined.

Lemma aspirin_pass1 (b1 b2 : bool) src presc drug_forms :
  ∃ t r,
    pass1 (own_registry b1) (own_registry b2) own_prefix presc drug_forms
          empty_tables aspirin_rows = Some t ∧
    brand_to_concept_id t = <["Bufferin" := "rxcui:3"]> ∅ ∧
    pass2 src t (records t) = Some [LoadTherapy r] ∧
    concept_id r = "rxcui:1" ∧ label r = Some "Aspirin".
Proof.
  destruct b1, b2; eexists _, _;
    (split; [vm_compute; reflexivity|]);
    (split; [vm_compute; reflexivity|]);
    (split; [vm_compute; reflexivity|]); split; reflexivity.
Qed.

(** C1 (amended).  On the three rows of the example, whatever the
    registry (as long as RxNorm's prefix is rxcui): pass 1 records
    Bufferin -> rxcui:3 in the brand table; the transform hands the
    record of rxcui:1 to the loader, with label Aspirin, and no record of
    another concept; and a brand association put for a record is keyed
    by the brand's concept id, "rxcui:3##rx_brand", and carries the
    record's own concept id: with Bufferin among the trade names of
    rxcui:1 it links rxcui:3 to rxcui:1. *)
Theorem C1_linker_example_amended
    (XS AS : list string) (NP : string -> option string)
    (src presc : string) (drug_forms : list string) :
  NP "RXNORM" = Some "rxcui" →
  ∃ t ops,
    pass1 XS AS NP presc drug_forms empty_tables aspirin_rows = Some t ∧
    brand_to_concept_id t = <["Bufferin" := "rxcui:3"]> ∅ ∧
    _transform_data XS AS NP src presc drug_forms aspirin_rows = Some ops ∧
    (∃ r, LoadTherapy r ∈ ops ∧ concept_id r = "rxcui:1" ∧
          label r = Some "Aspirin") ∧
    (∀ r, LoadTherapy r ∈ ops → concept_id r = "rxcui:1") ∧
    (∀ r tns, concept_id r = "rxcui:1" →
       fields r !! "trade_names" = Some tns → "Bufferin" ∈ tns →
       {| label_and_type := "rxcui:3##rx_brand"; item_concept_id := "rxcui:1";
          src_name := src; item_type := "rx_brand" |}
       ∈ _load_brand_concepts src r (brand_to_concept_id t)) ∧
    (∀ r i, i ∈ _load_brand_concepts src r (brand_to_concept_id t) →
       label_and_type i = "rxcui:3##rx_brand" ∧
       item_concept_id i = concept_id r ∧ item_type i = "rx_brand").
Proof.
  intros HNP.
  destruct (aspirin_pass1 (mem "RXNORM" XS) (mem "RXNORM" AS) src presc drug_forms)
    as (t & r & Ht & Hb & Hops & Hcid & Hlabel).
  assert (Hrows : Forall (λ row, row11 row = "RXNORM") aspirin_rows)
    by (repeat constructor).
  assert (Hp : pass1 XS AS NP presc drug_forms empty_tables aspirin_rows = Some t).
  { rewrite <- Ht. apply pass1_own; [by destruct (mem "RXNORM" XS)
      | by destruct (mem "RXNORM" AS) | by rewrite HNP | done]. }
  exists t, [LoadTherapy r]. split; [done|]. split; [done|].
  split; [unfold _transform_data; by rewrite Hp|].
  split; [exists r; split; [apply list_elem_of_singleton|]; done|].
  split; [by intros r' [= ->]%list_elem_of_singleton|].
  split.
  - intros r' tns Hr' Htns Hin. apply load_brand_concepts_elem.
    exists tns, "Bufferin", "rxcui:3". rewrite Hb, Hr'.
    by rewrite lookup_insert_eq.
  - intros r' i (tns & tn & b & _ & _ & Hl & _ & ->)%load_brand_concepts_elem.
    rewrite Hb in Hl. apply lookup_insert_Some in Hl as [[_ <-]|[_ Hl]]; [done|].
    by rewrite lookup_empty in Hl.
Qed.

Lemma C1_linker_example_amended_witness :
  ∃ t ops,
    pass1 demo_XREF_SOURCES demo_ASSOC_WITH_SOURCES demo_NamespacePrefix
          "rxnorm_prescribable" [] empty_tables aspirin_rows = Some t ∧
    brand_to_concept_id t = <["Bufferin" := "rxcui:3"]> ∅ ∧
    demo_transform aspirin_rows = Some ops ∧
    (∃ r, LoadTherapy r ∈ ops ∧ concept_id r = "rxcui:1" ∧
          label r = Some "Aspirin") ∧
    (∀ r, LoadTherapy r ∈ ops → concept_id r = "rxcui:1") ∧
    (∀ r tns, concept_id r = "rxcui:1" →
       fields r !! "trade_names" = Some tns → "Bufferin" ∈ tns →
       {| label_and_type := "rxcui:3##rx_brand"; item_concept_id := "rxcui:1";
          src_name := "RxNorm"; item_type := "rx_brand" |}
       ∈ _load_brand_concepts "RxNorm" r (brand_to_concept_id t)) ∧
    (∀ r i, i ∈ _load_brand_concepts "RxNorm" r (brand_to_concept_id t) →
       label_and_type i = "rxcui:3##rx_brand" ∧
       item_concept_id i = concept_id r ∧ item_type i = "rx_brand").
Proof.
  apply (C1_linker_example_amended demo_XREF_SOURCES demo_ASSOC_WITH_SOURCES
           demo_NamespacePrefix "RxNorm" "rxnorm_prescribable" []).
  reflexivity.
Defined.

End RxNormFacts.

(** ** The DrugBank and Wikidata adapters *)

Module AdapterFacts.

Import PyStr Examples.

(** *** Sets of case-folded values *)

Lemma casefolded_set_elements (f : string -> string) (l : list string) :
  (list_to_set (f <$> elements (list_to_set l : gset string)) : gset string)
  = list_to_set (f <$> l).
Proof.
  apply set_eq. intros x. rewrite !elem_of_list_to_set, !list_elem_of_fmap.
  split; intros (y & -> & Hy); exists y; split; try done.
  - by apply elem_of_elements, elem_of_list_to_set in Hy.
  - by apply elem_of_elements, elem_of_list_to_set.
Qed.

(** *** The text before the first colon *)

Lemma colon_free_cons c s :
  colon_free (String c s) = negb (Ascii.eqb ":" c) && colon_free s.
Proof.
  unfold colon_free. cbn [contains]. unfold startswith at 1. cbn [strip_prefix].
  by destruct (Ascii.eqb ":" c).
Qed.

Lemma colon_prefix_inj p q a b :
  colon_free p = true → colon_free q = true →
  p ++ ":" ++ a = q ++ ":" ++ b → p = q.
Proof.
  revert q. induction p as [|c p IH]; intros [|d q].
  - done.
  - rewrite colon_free_cons. cbn [String.append]. intros _ Hq [= <- _].
    by rewrite Ascii.eqb_refl in Hq.
  - rewrite colon_free_cons. cbn [String.append]. intros Hp _ [= -> _].
    by rewrite Ascii.eqb_refl in Hp.
  - rewrite !colon_free_cons. cbn [String.append].
    intros [_ Hp]%andb_true_iff [_ Hq]%andb_true_iff [= -> Heq].
    f_equal. by apply IH.
Qed.

(** *** The cap of DrugBank's [_load_therapy] *)

Lemma strings_Some l a : DrugBank.strings l = Some a ↔ l = Some <$> a.
Proof.
  revert a. induction l as [|[s|] l IH]; intros a; cbn.
  - split; [by intros [= <-]|]. by destruct a.
  - destruct (DrugBank.strings l) as [r|] eqn:Hr.
    + split.
      * intros [= <-]. cbn. f_equal. by apply IH.
      * destruct a as [|s' a]; [done|]. cbn. intros [= -> Hl].
        apply IH in Hl. congruence.
    + split; [done|]. destruct a as [|s' a]; [done|]. cbn. intros [= -> Hl].
      by apply IH in Hl.
  - split; [done|]. by destruct a.
Qed.

Section DrugBankCap.

Variable casefold : string -> string.

Lemma cap_field_ne label_type other f f' :
  DrugBank.cap_field casefold label_type f = Some f' →
  other ≠ label_type → f' !! other = f !! other.
Proof.
  unfold DrugBank.cap_field. intros H Hne.
  destruct (f !! label_type) as [l|]; [|by injection H as <-].
  case_bool_decide.
  - injection H as <-. by rewrite lookup_delete_ne.
  - destruct (DrugBank.strings l) as [a|]; [|done]. cbn [mbind option_bind] in H.
    destruct (20 <? _)%nat; injection H as <-; [by rewrite lookup_delete_ne|done].
Qed.

Lemma cap_field_eq label_type f f' :
  DrugBank.cap_field casefold label_type f = Some f' →
  match f !! label_type with
  | Some l =>
      ∃ values, l = Some <$> values ∧
        f' !! label_type =
        if bool_decide (l = []) || (20 <? DrugBank.distinct_casefolded casefold values)%nat
        then None else Some l
  | None => f' !! label_type = None
  end.
Proof.
  unfold DrugBank.cap_field.
  destruct (f !! label_type) as [l|] eqn:Hl; [|by intros [= <-]].
  case_bool_decide as Hnil.
  - intros [= <-]. exists []. subst l. split; [done|]. cbn. apply lookup_delete_eq.
  - destruct (DrugBank.strings l) as [a|] eqn:Ha; [|done]. cbn [mbind option_bind].
    apply strings_Some in Ha. intros H. exists a. split; [done|]. cbn [orb].
    destruct (20 <? _)%nat; injection H as <-; [apply lookup_delete_eq|done].
Qed.

Lemma load_therapy_field params item label_type :
  label_type = "aliases" ∨ label_type = "trade_names" →
  DrugBank._load_therapy casefold params = Some item →
  match DrugBank.fields params !! label_type with
  | Some l =>
      ∃ values, l = Some <$> values ∧
        DrugBank.fields item !! label_type =
        if bool_decide (l = []) || (20 <? DrugBank.distinct_casefolded casefold values)%nat
        then None else Some l
  | None => DrugBank.fields item !! label_type = None
  end.
Proof.
  intros Hlt. unfold DrugBank._load_therapy.
  destruct (DrugBank.fields params !! "other_identifiers") as [oi|]; [|done].
  cbn [mbind option_bind].
  set (f := if bool_decide (oi = []) then _ else _).
  assert (Hf : f !! label_type = DrugBank.fields params !! label_type).
  { subst f. case_bool_decide; [|done]. apply lookup_delete_ne.
    by destruct Hlt as [-> | ->]. }
  destruct (DrugBank.cap_field casefold "trade_names" f) as [f1|] eqn:H1; [|done].
  cbn [mbind option_bind].
  destruct (DrugBank.cap_field casefold "aliases" f1) as [f2|] eqn:H2; [|done].
  cbn [mbind option_bind]. intros [= <-]. cbn [DrugBank.fields DrugBank.set_fields].
  rewrite <- Hf. destruct Hlt as [-> | ->].
  - pose proof (cap_field_eq _ _ _ H2) as He.
    by rewrite (cap_field_ne _ "aliases" _ _ H1) in He.
  - pose proof (cap_field_eq _ _ _ H1) as He.
    by rewrite (cap_field_ne _ "trade_names" _ _ H2).
Qed.

End DrugBankCap.

(** *** The cap of Wikidata's [_load_therapy] *)

Lemma wikidata_identity_item src casefold item i :
  Wikidata.PutIdentity i ∈ Wikidata._load_therapy src casefold item →
  i = Wikidata.cap_aliases casefold item.
Proof.
  unfold Wikidata._load_therapy.
  intros [[= ->]|[Hin|Hin]%elem_of_app]%elem_of_cons; [done| |].
  - destruct (Wikidata.fields _ !! "aliases"); [|by apply elem_of_nil in Hin].
    by apply list_elem_of_fmap in Hin as (? & [=] & _).
  - destruct (Wikidata.label _); [|by apply elem_of_nil in Hin].
    by apply list_elem_of_singleton in Hin.
Qed.

Lemma cap_aliases_lookup casefold item :
  Wikidata.fields (Wikidata.cap_aliases casefold item) !! "aliases" =
  match Wikidata.fields item !! "aliases" with
  | Some l =>
      if (20 <? size (list_to_set (casefold <$> l) : gset string))%nat
      then None else Some (elements (list_to_set l : gset string))
  | None => None
  end.
Proof.
  unfold Wikidata.cap_aliases.
  destruct (Wikidata.fields item !! "aliases") as [l|] eqn:Hl; [|done].
  rewrite casefolded_set_elements. destruct (20 <? _)%nat; cbn.
  - apply lookup_delete_eq.
  - apply lookup_insert_eq.
Qed.

Lemma cap_aliases_other casefold item attr :
  attr ≠ "aliases" →
  Wikidata.fields (Wikidata.cap_aliases casefold item) !! attr
  = Wikidata.fields item !! attr.
Proof.
  intros Hne. unfold Wikidata.cap_aliases.
  destruct (Wikidata.fields item !! "aliases") as [l|]; [|done].
  destruct (20 <? _)%nat; cbn.
  - by apply lookup_delete_ne.
  - by apply lookup_insert_ne.
Qed.

(** C3.  The fan-out cap, for every case-folding function.  DrugBank:
    when [_load_therapy] puts the record, the list under "aliases" (and
    likewise "trade_names") holds strings only; the attribute is absent
    from the record put when the list has 21 or more distinct
    case-folded values, and is the whole list when it has exactly 20.
    Wikidata: the identity item put by [_load_therapy] has no "aliases"
    when the list has 21 or more distinct case-folded values, and with
    exactly 20 it stores a list with exactly the values of the original
    one. *)
Theorem C3_fan_out_cap (casefold : string -> string) :
  (∀ params item label_type l,
     label_type = "aliases" ∨ label_type = "trade_names" →
     DrugBank._load_therapy casefold params = Some item →
     DrugBank.fields params !! label_type = Some l →
     ∃ values, l = Some <$> values ∧
       ((21 ≤ DrugBank.distinct_casefolded casefold values)%nat →
        DrugBank.fields item !! label_type = None) ∧
       (DrugBank.distinct_casefolded casefold values = 20 →
        DrugBank.fields item !! label_type = Some l)) ∧
  (∀ src item i l,
     Wikidata.PutIdentity i ∈ Wikidata._load_therapy src casefold item →
     Wikidata.fields item !! "aliases" = Some l →
     ((21 ≤ size (list_to_set (casefold <$> l) : gset string))%nat →
      Wikidata.fields i !! "aliases" = None) ∧
     (size (list_to_set (casefold <$> l) : gset string) = 20 →
      ∃ l', Wikidata.fields i !! "aliases" = Some l' ∧ ∀ a, a ∈ l' ↔ a ∈ l)).
Proof.
  split.
  - intros params item label_type l Hlt Hload Hl.
    pose proof (load_therapy_field casefold _ _ _ Hlt Hload) as Hitem.
    rewrite Hl in Hitem. destruct Hitem as (values & -> & ->).
    exists values. split; [done|]. split.
    + intros Hn. replace (20 <? _)%nat with true
        by (symmetry; apply Nat.ltb_lt; lia).
      by rewrite orb_true_r.
    + intros Hn. rewrite Hn. cbn. rewrite orb_false_r.
      case_bool_decide as Hnil; [|done].
      destruct values; [by vm_compute in Hn|done].
  - intros src item i l ->%wikidata_identity_item Hl.
    rewrite cap_aliases_lookup, Hl. split.
    + intros Hn. by replace (20 <? _)%nat with true
        by (symmetry; apply Nat.ltb_lt; lia).
    + intros ->. cbn. eexists; split; [done|]. intros a.
      by rewrite elem_of_elements, elem_of_list_to_set.
Qed.

Lemma C3_fan_out_cap_witness :
  (∃ item,
     DrugBank._load_therapy casefold drugbank_params = Some item ∧
     DrugBank.fields item !! "aliases" = None ∧
     DrugBank.fields item !! "trade_names" = Some (Some <$> aliases_20)) ∧
  Wikidata.fields (Wikidata.cap_aliases casefold (wikidata_item aliases_21))
    !! "aliases" = None ∧
  (∃ l', Wikidata.fields (Wikidata.cap_aliases casefold (wikidata_item aliases_20))
           !! "aliases" = Some l' ∧ ∀ a, a ∈ l' ↔ a ∈ aliases_20).
Proof.
  destruct (C3_fan_out_cap casefold) as [HD HW].
  split; [|split].
  - assert (Hload : ∃ item, DrugBank._load_therapy casefold drugbank_params = Some item)
      by (vm_compute; by eexists).
    destruct Hload as [item Hload]. exists item. split; [exact Hload|]. split.
    + destruct (HD drugbank_params item "aliases" (Some <$> aliases_21))
        as (values & Hv & H21 & _);
        [by left|exact Hload|vm_compute; reflexivity|].
      apply (inj (fmap Some)) in Hv as <-. apply H21. vm_compute. lia.
    + destruct (HD drugbank_params item "trade_names" (Some <$> aliases_20))
        as (values & Hv & _ & H20);
        [by right|exact Hload|vm_compute; reflexivity|].
      apply (inj (fmap Some)) in Hv as <-. apply H20. vm_compute. reflexivity.
  - eapply (HW "Wikidata" (wikidata_item aliases_21) _ aliases_21);
      [apply list_elem_of_here|vm_compute; reflexivity|].
    vm_compute. lia.
  - eapply (HW "Wikidata" (wikidata_item aliases_20) _ aliases_20);
      [apply list_elem_of_here|vm_compute; reflexivity|].
    vm_compute. reflexivity.
Defined.

(** *** Uniqueness within the alias and trade-name lists *)

Lemma add_term_to_field_NoDup d field term l' :
  (∀ l, d !! field = Some l → NoDup l) →
  RxNorm._add_term_to_field d field term !! field = Some l' → NoDup l'.
Proof.
  intros Hd. unfold RxNorm._add_term_to_field.
  destruct (d !! field) as [[|x xs]|] eqn:Hl.
  - rewrite lookup_insert_eq. intros [= <-]. apply NoDup_singleton.
  - unfold RxNorm.mem. case_bool_decide as Hin.
    + rewrite Hl. intros [= <-]. by apply Hd.
    + rewrite lookup_insert_eq. intros [= <-].
      change (NoDup ((x :: xs) ++ [term])). apply NoDup_app.
      split; [by apply Hd|]. split; [|apply NoDup_singleton].
      by intros y Hy ->%list_elem_of_singleton.
  - rewrite lookup_insert_eq. intros [= <-]. apply NoDup_singleton.
Qed.

Lemma load_synonyms_NoDup element params params' l l' :
  DrugBank._load_synonyms element params = Some params' →
  DrugBank.fields params !! "aliases" = Some l → NoDup l →
  DrugBank.fields params' !! "aliases" = Some l' → NoDup l'.
Proof.
  revert params l. induction element as [|alias rest IH]; intros params l; cbn.
  - intros [= <-] Hl Hnd. rewrite Hl. by intros [= <-].
  - intros H Hl Hnd. rewrite Hl in H. cbn [mbind option_bind] in H.
    case_bool_decide as Hin; [by eapply IH|].
    destruct (DrugBank.language alias) as [lang|]; [|done].
    cbn [mbind option_bind] in H. case_bool_decide; [|by eapply IH].
    eapply (IH _ (l ++ [DrugBank.text alias])%list); [exact H| |].
    + cbn. apply lookup_insert_eq.
    + apply NoDup_app. split; [done|]. split; [|apply NoDup_singleton].
      by intros y Hy ->%list_elem_of_singleton.
Qed.

(** *** Both identifier attributes are always present *)

Section WikidataTransform.

Variable IDENTIFIER_PREFIXES : list (string * string).
Variable SourceIDAfterNamespace : string -> option string.
Variable SourceName_members : list string.
Variables SourceName_CHEMIDPLUS SourceName_WIKIDATA NamespacePrefix_WIKIDATA : string.
Variable casefold : string -> string.

#[local] Abbreviation new_item :=
  (Wikidata.new_item IDENTIFIER_PREFIXES SourceIDAfterNamespace
     SourceName_members SourceName_CHEMIDPLUS SourceName_WIKIDATA).
#[local] Abbreviation classify_keys :=
  (Wikidata.classify_keys IDENTIFIER_PREFIXES SourceIDAfterNamespace
     SourceName_members SourceName_CHEMIDPLUS).
#[local] Abbreviation classify_key :=
  (Wikidata.classify_key IDENTIFIER_PREFIXES SourceIDAfterNamespace
     SourceName_members SourceName_CHEMIDPLUS).
#[local] Abbreviation transform_record :=
  (Wikidata.transform_record IDENTIFIER_PREFIXES SourceIDAfterNamespace
     SourceName_members SourceName_CHEMIDPLUS SourceName_WIKIDATA
     NamespacePrefix_WIKIDATA).
#[local] Abbreviation transform_records :=
  (Wikidata.transform_records IDENTIFIER_PREFIXES SourceIDAfterNamespace
     SourceName_members SourceName_CHEMIDPLUS SourceName_WIKIDATA
     NamespacePrefix_WIKIDATA).
#[local] Abbreviation _transform_data :=
  (Wikidata._transform_data IDENTIFIER_PREFIXES SourceIDAfterNamespace
     SourceName_members SourceName_CHEMIDPLUS SourceName_WIKIDATA
     NamespacePrefix_WIKIDATA casefold).

#[local] Abbreviation remap := (Wikidata.remap SourceName_CHEMIDPLUS).
#[local] Abbreviation from_record :=
  (Wikidata.from_record IDENTIFIER_PREFIXES SourceIDAfterNamespace
     SourceName_members SourceName_CHEMIDPLUS SourceName_WIKIDATA).

Lemma dict_get_Some {V} k (v : V) d :
  Wikidata.dict_get k d = Some v → (k, v) ∈ d.
Proof.
  induction d as [|[k' v'] d IH]; cbn; [done|].
  destruct (decide (k' = k)) as [->|Hne].
  - intros [= ->]. apply list_elem_of_here.
  - intros H. by apply list_elem_of_further, IH.
Qed.

Lemma dict_set_elem {V} k (v : V) d k' v' :
  (k', v') ∈ Wikidata.dict_set k v d → (k', v') = (k, v) ∨ (k', v') ∈ d.
Proof.
  induction d as [|[k0 v0] d IH]; cbn.
  - intros ->%list_elem_of_singleton. by left.
  - destruct (decide (k0 = k)) as [->|Hne].
    + intros [->|Hin]%elem_of_cons; [by left|].
      right. by apply list_elem_of_further.
    + intros [->|Hin]%elem_of_cons; [right; apply list_elem_of_here|].
      destruct (IH Hin) as [?|?]; [by left|right; by apply list_elem_of_further].
Qed.

(** What the key loop appends to the two lists. *)
Lemma classify_keys_elem keys record o x o' x' :
  classify_keys keys record o x = Some (o', x') →
  (∀ s, s ∈ o' ↔ s ∈ o ∨
          ∃ k v, k ∈ keys ∧ record !! k = Some v ∧
                 classify_key k v = Some (Wikidata.OtherId s)) ∧
  (∀ s, s ∈ x' ↔ s ∈ x ∨
          ∃ k v, k ∈ keys ∧ record !! k = Some v ∧
                 classify_key k v = Some (Wikidata.Xref s)).
Proof.
  revert o x. induction keys as [|key keys IH]; intros o x; cbn.
  - intros [= <- <-]. split; intros s; split; try tauto.
    all: intros [?|(k & v & ?%elem_of_nil & _)]; done.
  - destruct (record !! key) as [v|] eqn:Hv.
    + destruct (classify_key key v) as [[s0|s0]|] eqn:Hc; [| |done]; cbn.
      * intros [Ho Hx]%IH. split; intros s.
        -- rewrite Ho, elem_of_app, list_elem_of_singleton. split.
           ++ intros [[?| ->]|(k & v' & ? & ? & ?)]; [by left| |].
              ** right. exists key, v. split; [apply list_elem_of_here|done].
              ** right. exists k, v'. split; [by apply list_elem_of_further|done].
           ++ intros [?|(k & v' & [->|?]%elem_of_cons & Hk & Hck)];
                [by left; left| |].
              ** rewrite Hv in Hk. injection Hk as <-. rewrite Hc in Hck.
                 injection Hck as ->. left; by right.
              ** right. by exists k, v'.
        -- rewrite Hx. split.
           ++ intros [?|(k & v' & ? & ? & ?)]; [by left|].
              right. exists k, v'. split; [by apply list_elem_of_further|done].
           ++ intros [?|(k & v' & [->|?]%elem_of_cons & Hk & Hck)]; [by left| |].
              ** rewrite Hv in Hk. injection Hk as <-. by rewrite Hc in Hck.
              ** right. by exists k, v'.
      * intros [Ho Hx]%IH. split; intros s.
        -- rewrite Ho. split.
           ++ intros [?|(k & v' & ? & ? & ?)]; [by left|].
              right. exists k, v'. split; [by apply list_elem_of_further|done].
           ++ intros [?|(k & v' & [->|?]%elem_of_cons & Hk & Hck)]; [by left| |].
              ** rewrite Hv in Hk. injection Hk as <-. by rewrite Hc in Hck.
              ** right. by exists k, v'.
        -- rewrite Hx, elem_of_app, list_elem_of_singleton. split.
           ++ intros [[?| ->]|(k & v' & ? & ? & ?)]; [by left| |].
              ** right. exists key, v. split; [apply list_elem_of_here|done].
              ** right. exists k, v'. split; [by apply list_elem_of_further|done].
           ++ intros [?|(k & v' & [->|?]%elem_of_cons & Hk & Hck)];
                [by left; left| |].
              ** rewrite Hv in Hk. injection Hk as <-. rewrite Hc in Hck.
                 injection Hck as ->. left; by right.
              ** right. by exists k, v'.
    + intros [Ho Hx]%IH. split; intros s.
      * rewrite Ho. split.
        -- intros [?|(k & v' & ? & ? & ?)]; [by left|].
           right. exists k, v'. split; [by apply list_elem_of_further|done].
        -- intros [?|(k & v' & [->|?]%elem_of_cons & Hk & Hck)]; [by left| |].
           ++ by rewrite Hv in Hk.
           ++ right. by exists k, v'.
      * rewrite Hx. split.
        -- intros [?|(k & v' & ? & ? & ?)]; [by left|].
           right. exists k, v'. split; [by apply list_elem_of_further|done].
        -- intros [?|(k & v' & [->|?]%elem_of_cons & Hk & Hck)]; [by left| |].
           ++ by rewrite Hv in Hk.
           ++ right. by exists k, v'.
Qed.

Lemma new_item_fields cid record item :
  new_item cid record = Some item →
  ∃ other_ids xrefs,
    classify_keys (IDENTIFIER_PREFIXES.*1) record [] [] = Some (other_ids, xrefs) ∧
    Wikidata.fields item !! "other_identifiers" = Some other_ids ∧
    Wikidata.fields item !! "xrefs" = Some xrefs.
Proof.
  unfold Wikidata.new_item.
  destruct (classify_keys _ record [] []) as [[o x]|]; [|done]. cbn.
  intros [= <-]. exists o, x. cbn. split; [done|].
  split; [by rewrite lookup_insert_ne, lookup_insert_eq|apply lookup_insert_eq].
Qed.

Lemma transform_record_inv all items record items' :
  record ∈ all →
  (∀ k i, (k, i) ∈ items → from_record all i) →
  transform_record items record = Some items' →
  ∀ k i, (k, i) ∈ items' → from_record all i.
Proof.
  intros Hrec Hinv. unfold Wikidata.transform_record.
  destruct (record !! "item") as [it|]; [|done]. cbn.
  set (cid := NamespacePrefix_WIKIDATA ++ ":" ++ last_field (split "/" it)).
  assert (∀ items1,
    match Wikidata.dict_get cid items with
    | Some _ => Some items
    | None => item ← new_item cid record; Some (Wikidata.dict_set cid item items)
    end = Some items1 →
    ∀ k i, (k, i) ∈ items1 → from_record all i) as Hstep.
  { intros items1. destruct (Wikidata.dict_get cid items); [by intros [= <-]|].
    destruct (new_item cid record) as [item|] eqn:Hnew; [|done]. cbn.
    intros [= <-] k i [[= -> ->]|Hin]%dict_set_elem; [|by eapply Hinv].
    by exists record, cid, item. }
  destruct (match Wikidata.dict_get cid items with
            | Some _ => _ | None => _ end) as [items1|]; [|done].
  specialize (Hstep items1 eq_refl). cbn.
  destruct (record !! "alias") as [alias|]; [|by intros [= <-]].
  destruct (Wikidata.dict_get cid items1) as [item|] eqn:Hitem; [|done]. cbn.
  intros [= <-] k i [[= -> ->]|Hin]%dict_set_elem; [|by eapply Hstep].
  destruct (Hstep _ _ (dict_get_Some _ _ _ Hitem)) as (r & c & i0 & ? & ? & Ho & Hx).
  exists r, c, i0. cbn. by rewrite !lookup_insert_ne.
Qed.

Lemma transform_records_inv all items records items' :
  (∀ record, record ∈ records → record ∈ all) →
  (∀ k i, (k, i) ∈ items → from_record all i) →
  transform_records items records = Some items' →
  ∀ k i, (k, i) ∈ items' → from_record all i.
Proof.
  revert items. induction records as [|record records IH]; intros items Hsub Hinv; cbn.
  - by intros [= <-].
  - destruct (transform_record items record) as [items1|] eqn:H1; [|done]. cbn.
    apply IH; [intros r Hr; by apply Hsub, list_elem_of_further|].
    eapply transform_record_inv; [|done|done]. apply Hsub, list_elem_of_here.
Qed.

Lemma transform_data_identity records ops i :
  _transform_data records = Some ops → Wikidata.PutIdentity i ∈ ops →
  from_record records i.
Proof.
  unfold Wikidata._transform_data.
  destruct (transform_records [] records) as [items|] eqn:Hitems; [|done]. cbn.
  intros [= <-] (kv & Hi & Hkv)%list_elem_of_bind.
  apply wikidata_identity_item in Hi as ->.
  destruct kv as [k item].
  destruct (transform_records_inv records [] records items) with (k := k) (i := item)
    as (r & c & i0 & ? & ? & Ho & Hx); [done|by intros ? ? ?%elem_of_nil|done|done|].
  exists r, c, i0. cbn. by rewrite !cap_aliases_other.
Qed.

Lemma transform_data_lists records ops i :
  _transform_data records = Some ops →
  Wikidata.PutIdentity i ∈ ops →
  ∃ record other_ids xrefs,
    record ∈ records ∧
    classify_keys (IDENTIFIER_PREFIXES.*1) record [] [] = Some (other_ids, xrefs) ∧
    Wikidata.fields i !! "other_identifiers" = Some other_ids ∧
    Wikidata.fields i !! "xrefs" = Some xrefs.
Proof.
  intros Ht Hi.
  destruct (transform_data_identity _ _ _ Ht Hi) as (r & c & i0 & Hr & Hnew & Ho & Hx).
  apply new_item_fields in Hnew as (o & x & Hck & Ho0 & Hx0).
  rewrite Ho0 in Ho. rewrite Hx0 in Hx. by exists r, o, x.
Qed.

(** C10.  Every identity item the Wikidata transform puts carries both
    "other_identifiers" and "xrefs": they are the two lists the key
    loop built from the record that created the item, and a list is
    empty when no key of the record was classified into it. *)
Theorem C10_wikidata_identifier_attributes_present records ops i :
  _transform_data records = Some ops →
  Wikidata.PutIdentity i ∈ ops →
  Spec.has_both i ∧
  ∃ record other_ids xrefs,
    record ∈ records ∧
    classify_keys (IDENTIFIER_PREFIXES.*1) record [] [] = Some (other_ids, xrefs) ∧
    Wikidata.fields i !! "other_identifiers" = Some other_ids ∧
    Wikidata.fields i !! "xrefs" = Some xrefs ∧
    ((∀ k v s, k ∈ IDENTIFIER_PREFIXES.*1 → record !! k = Some v →
               classify_key k v ≠ Some (Wikidata.OtherId s)) → other_ids = []) ∧
    ((∀ k v s, k ∈ IDENTIFIER_PREFIXES.*1 → record !! k = Some v →
               classify_key k v ≠ Some (Wikidata.Xref s)) → xrefs = []).
Proof.
  intros Ht Hi.
  destruct (transform_data_lists _ _ _ Ht Hi) as (r & o & x & Hr & Hck & Ho & Hx).
  split; [split; by eexists|].
  exists r, o, x. do 4 (split; [done|]).
  destruct (classify_keys_elem _ _ _ _ _ _ Hck) as [Helo Helx].
  split; intros Hnone; apply elem_of_nil_inv; intros s Hs.
  - apply Helo in Hs as [?%elem_of_nil|(k & v & ? & ? & ?)]; [done|].
    by eapply Hnone.
  - apply Helx in Hs as [?%elem_of_nil|(k & v & ? & ? & ?)]; [done|].
    by eapply Hnone.
Qed.

(** *** The two lists of an item do not overlap *)

Lemma classify_key_other k v s :
  classify_key k v = Some (Wikidata.OtherId s) →
  upper (remap k) ∈ SourceName_members ∧
  ∃ p rest, Wikidata.dict_get (remap k) IDENTIFIER_PREFIXES = Some p ∧
            s = (p ++ ":" ++ rest).
Proof.
  unfold Wikidata.classify_key, Wikidata.normalizer_srcs.
  case_bool_decide as Hn; [|by destruct (Wikidata.dict_get _ _)].
  destruct (negb _).
  - destruct (Wikidata.dict_get _ _) as [p|]; [|done]. cbn.
    destruct (SourceIDAfterNamespace _) as [infix|]; [|done]. cbn.
    intros [= <-]. split; [done|]. by exists p, (infix ++ v).
  - destruct (Wikidata.dict_get _ _) as [p|]; [|done]. cbn.
    intros [= <-]. split; [done|]. by exists p, v.
Qed.

Lemma classify_key_xref k v s :
  classify_key k v = Some (Wikidata.Xref s) →
  (upper (remap k) ∉ SourceName_members) ∧
  ∃ p, Wikidata.dict_get (remap k) IDENTIFIER_PREFIXES = Some p ∧
       s = (p ++ ":" ++ v).
Proof.
  unfold Wikidata.classify_key, Wikidata.normalizer_srcs.
  case_bool_decide as Hn.
  - destruct (negb _); destruct (Wikidata.dict_get _ _); cbn; try done.
    by destruct (SourceIDAfterNamespace _).
  - destruct (Wikidata.dict_get _ _) as [p|]; [|done]. cbn.
    intros [= <-]. split; [done|]. by exists p.
Qed.

Lemma wikidata_lists_disjoint records ops i other_ids xrefs :
  (∀ k p, Wikidata.dict_get (remap k) IDENTIFIER_PREFIXES = Some p →
          colon_free p = true) →
  (∀ k1 k2 p,
     Wikidata.dict_get (remap k1) IDENTIFIER_PREFIXES = Some p →
     Wikidata.dict_get (remap k2) IDENTIFIER_PREFIXES = Some p →
     upper (remap k1) ∈ SourceName_members →
     upper (remap k2) ∈ SourceName_members) →
  _transform_data records = Some ops →
  Wikidata.PutIdentity i ∈ ops →
  Wikidata.fields i !! "other_identifiers" = Some other_ids →
  Wikidata.fields i !! "xrefs" = Some xrefs →
  ∀ s, ¬ (s ∈ other_ids ∧ s ∈ xrefs).
Proof.
  intros Hcolon Hclass Ht Hi Ho Hx s [Hso Hsx].
  destruct (transform_data_lists _ _ _ Ht Hi) as (r & o & x & _ & Hck & Ho' & Hx').
  rewrite Ho in Ho'. rewrite Hx in Hx'. injection Ho' as <-. injection Hx' as <-.
  destruct (classify_keys_elem _ _ _ _ _ _ Hck) as [Helo Helx].
  apply Helo in Hso as [?%elem_of_nil|(k1 & v1 & _ & _ & H1)]; [done|].
  apply Helx in Hsx as [?%elem_of_nil|(k2 & v2 & _ & _ & H2)]; [done|].
  apply classify_key_other in H1 as (Hn1 & p1 & rest & Hp1 & ->).
  apply classify_key_xref in H2 as (Hn2 & p2 & Hp2 & Heq).
  apply (colon_prefix_inj _ _ _ _ (Hcolon _ _ Hp1) (Hcolon _ _ Hp2)) in Heq.
  subst p2.
  apply Hn2. exact (Hclass _ _ _ Hp1 Hp2 Hn1).
Qed.

(** *** Every identifier is placed, by the source of its key *)

Lemma first_field_prefix p rest :
  colon_free p = true → first_field (split ":" (p ++ ":" ++ rest)) = p.
Proof.
  induction p as [|c p IH].
  - intros _. change ("" ++ ":" ++ rest) with (String ":" rest).
    cbn [split]. by rewrite Ascii.eqb_refl.
  - rewrite colon_free_cons. intros [Hc%negb_true_iff Hp]%andb_true_iff.
    change (String c p ++ ":" ++ rest) with (String c (p ++ ":" ++ rest)).
    cbn [split]. rewrite Ascii.eqb_sym, Hc. specialize (IH Hp).
    destruct (split ":" (p ++ ":" ++ rest)) as [|f fs]; cbn in *; by subst.
Qed.

Lemma classify_keys_classified keys record : ∀ o x o' x',
  classify_keys keys record o x = Some (o', x') →
  ∀ k v, k ∈ keys → record !! k = Some v → is_Some (classify_key k v).
Proof.
  induction keys as [|key keys IH]; intros o x o' x'; cbn.
  - by intros _ k v ?%elem_of_nil.
  - destruct (record !! key) as [v0|] eqn:Hv0.
    + destruct (classify_key key v0) as [[s0|s0]|] eqn:Hc; [| |done]; cbn.
      * intros H k v [->|Hk]%elem_of_cons Hv; [|by eapply IH].
        rewrite Hv0 in Hv. injection Hv as <-. by rewrite Hc.
      * intros H k v [->|Hk]%elem_of_cons Hv; [|by eapply IH].
        rewrite Hv0 in Hv. injection Hv as <-. by rewrite Hc.
    + intros H k v [->|Hk]%elem_of_cons Hv; [congruence|by eapply IH].
Qed.

Lemma wikidata_lists_placed records ops i other_ids xrefs :
  (∀ k p, Wikidata.dict_get (remap k) IDENTIFIER_PREFIXES = Some p →
          colon_free p = true) →
  (∀ k1 k2 p,
     Wikidata.dict_get (remap k1) IDENTIFIER_PREFIXES = Some p →
     Wikidata.dict_get (remap k2) IDENTIFIER_PREFIXES = Some p →
     upper (remap k1) ∈ SourceName_members →
     upper (remap k2) ∈ SourceName_members) →
  _transform_data records = Some ops →
  Wikidata.PutIdentity i ∈ ops →
  Wikidata.fields i !! "other_identifiers" = Some other_ids →
  Wikidata.fields i !! "xrefs" = Some xrefs →
  ∃ record, record ∈ records ∧
    (∀ k v, k ∈ IDENTIFIER_PREFIXES.*1 → record !! k = Some v →
       ∃ p s, Wikidata.dict_get (remap k) IDENTIFIER_PREFIXES = Some p ∧
              first_field (split ":" s) = p ∧
              if bool_decide (upper (remap k) ∈ SourceName_members)
              then classify_key k v = Some (Wikidata.OtherId s) ∧
                   s ∈ other_ids ∧ s ∉ xrefs
              else classify_key k v = Some (Wikidata.Xref s) ∧
                   s ∈ xrefs ∧ s ∉ other_ids) ∧
    (∀ s, s ∈ other_ids ∨ s ∈ xrefs →
       ∃ k v, k ∈ IDENTIFIER_PREFIXES.*1 ∧ record !! k = Some v ∧
              (classify_key k v = Some (Wikidata.OtherId s) ∨
               classify_key k v = Some (Wikidata.Xref s))).
Proof.
  intros Hcolon Hclass Ht Hi Ho Hx.
  pose proof (wikidata_lists_disjoint _ _ _ _ _ Hcolon Hclass Ht Hi Ho Hx) as Hdis.
  destruct (transform_data_lists _ _ _ Ht Hi) as (r & o & x & Hr & Hck & Ho' & Hx').
  rewrite Ho in Ho'. rewrite Hx in Hx'. injection Ho' as <-. injection Hx' as <-.
  destruct (classify_keys_elem _ _ _ _ _ _ Hck) as [Helo Helx].
  exists r. split; [done|]. split.
  - intros k v Hk Hv.
    destruct (classify_keys_classified _ _ _ _ _ _ Hck k v Hk Hv) as [[s|s] Hc].
    + destruct (classify_key_other _ _ _ Hc) as (Hn & p & rest & Hp & ->).
      exists p, (p ++ ":" ++ rest). split; [done|].
      split; [apply first_field_prefix; by eapply Hcolon|].
      rewrite bool_decide_eq_true_2 by done. split; [done|].
      assert (Hin : (p ++ ":" ++ rest) ∈ other_ids).
      { apply Helo. right. by exists k, v. }
      split; [done|]. intros Hin'. by apply (Hdis (p ++ ":" ++ rest)).
    + destruct (classify_key_xref _ _ _ Hc) as (Hn & p & Hp & ->).
      exists p, (p ++ ":" ++ v). split; [done|].
      split; [apply first_field_prefix; by eapply Hcolon|].
      rewrite bool_decide_eq_false_2 by done. split; [done|].
      assert (Hin : (p ++ ":" ++ v) ∈ xrefs).
      { apply Helx. right. by exists k, v. }
      split; [done|]. intros Hin'. by apply (Hdis (p ++ ":" ++ v)).
  - intros s [Hs|Hs].
    + apply Helo in Hs as [?%elem_of_nil|(k & v & ? & ? & ?)]; [done|].
      exists k, v. split; [done|]. split; [done|]. by left.
    + apply Helx in Hs as [?%elem_of_nil|(k & v & ? & ? & ?)]; [done|].
      exists k, v. split; [done|]. split; [done|]. by right.
Qed.

End WikidataTransform.

Lemma C10_wikidata_identifier_attributes_present_witness :
  Spec.has_both water_item ∧
  ∃ record other_ids xrefs,
    record ∈ wikidata_records ∧
    Wikidata.classify_keys demo_IDENTIFIER_PREFIXES demo_SourceIDAfterNamespace
      demo_SourceName_members "ChemIDplus" (demo_IDENTIFIER_PREFIXES.*1)
      record [] [] = Some (other_ids, xrefs) ∧
    Wikidata.fields water_item !! "other_identifiers" = Some other_ids ∧
    Wikidata.fields water_item !! "xrefs" = Some xrefs ∧
    ((∀ k v s, k ∈ demo_IDENTIFIER_PREFIXES.*1 → record !! k = Some v →
        Wikidata.classify_key demo_IDENTIFIER_PREFIXES demo_SourceIDAfterNamespace
          demo_SourceName_members "ChemIDplus" k v ≠ Some (Wikidata.OtherId s)) →
     other_ids = []) ∧
    ((∀ k v s, k ∈ demo_IDENTIFIER_PREFIXES.*1 → record !! k = Some v →
        Wikidata.classify_key demo_IDENTIFIER_PREFIXES demo_SourceIDAfterNamespace
          demo_SourceName_members "ChemIDplus" k v ≠ Some (Wikidata.Xref s)) →
     xrefs = []).
Proof.
  apply (C10_wikidata_identifier_attributes_present
           demo_IDENTIFIER_PREFIXES demo_SourceIDAfterNamespace
           demo_SourceName_members "ChemIDplus" "Wikidata" "wikidata" casefold
           wikidata_records
           (default [] (demo_wikidata_transform wikidata_records)) water_item).
  - vm_compute. reflexivity.
  - apply (list_elem_of_lookup_2 _ 4). vm_compute. reflexivity.
Defined.

End AdapterFacts.

(** ** The cross-reference backfill job *)

Module BackfillFacts.

Import PyStr Backfill Examples.

(** *** The stored table *)

Lemma upsert_at k e pre i post :
  key_of i = k → k ∉ key_of <$> pre →
  upsert k e (pre ++ i :: post)
  = (pre ++ set_attrs (apply_expr e (attrs i)) i :: post)%list.
Proof.
  intros Hi. induction pre as [|j pre IH]; cbn.
  - intros _. by rewrite decide_True.
  - intros Hk. rewrite decide_False.
    + f_equal. apply IH. intros Hin. apply Hk. by apply list_elem_of_further.
    + intros Hj. apply Hk. rewrite <- Hj. apply list_elem_of_here.
Qed.

Lemma key_of_set_attrs a i : key_of (set_attrs a i) = key_of i.
Proof. done. Qed.

Lemma stored_upsert_ne k e t k' :
  k' ≠ k → stored k' (upsert k e t) = stored k' t.
Proof.
  intros Hne. destruct k as [k1 k2]. induction t as [|i t IH]; cbn [upsert stored].
  - rewrite decide_False; [done|]. by intros <-.
  - destruct (decide (key_of i = (k1, k2))) as [Hi|Hi]; cbn [stored].
    + rewrite key_of_set_attrs, !decide_False; [done|congruence..].
    + by rewrite IH.
Qed.

Lemma stored_attr_upsert k e t k' attr :
  attr ∉ written e →
  stored_attr (upsert k e t) k' attr = stored_attr t k' attr.
Proof.
  intros Hattr.
  assert (Hframe : ∀ a, apply_expr e a !! attr = a !! attr).
  { intros a. destruct e as [o x|attr']; cbn in *.
    - rewrite !lookup_insert_ne; [done|..]; intros <-; apply Hattr.
      + apply list_elem_of_here.
      + apply list_elem_of_further, list_elem_of_here.
    - apply lookup_delete_ne. intros <-. apply Hattr, list_elem_of_here. }
  unfold stored_attr. destruct (decide (k' = k)) as [->|Hne];
    [|by rewrite stored_upsert_ne].
  destruct k as [k1 k2]. induction t as [|i t IH]; cbn [upsert stored].
  - rewrite decide_True by done. cbn. by rewrite Hframe.
  - destruct (decide (key_of i = (k1, k2))) as [Hi|Hi]; cbn [stored].
    + rewrite key_of_set_attrs, decide_True by done. cbn. apply Hframe.
    + rewrite decide_False by done. apply IH.
Qed.

Lemma stored_fmap_key (f : Item → Item) k t :
  (∀ i, key_of (f i) = key_of i) →
  stored k (f <$> t) = f <$> stored k t.
Proof.
  intros Hf. induction t as [|i t IH]; cbn; [done|].
  rewrite Hf. by destruct (decide (key_of i = k)).
Qed.

Lemma stored_elem k i t :
  NoDup (key_of <$> t) → i ∈ t → key_of i = k → stored k t = Some i.
Proof.
  induction t as [|j t IH]; cbn; [by intros _ ?%elem_of_nil|].
  intros [Hj Hnd]%NoDup_cons [->|Hin]%elem_of_cons Hk.
  - by rewrite decide_True.
  - rewrite decide_False; [by apply IH|].
    intros Hjk. apply Hj. rewrite Hjk, <- Hk. by apply list_elem_of_fmap_2.
Qed.

Lemma after_key_at k pre i post :
  key_of i = k → k ∉ key_of <$> pre → after_key k (pre ++ i :: post) = post.
Proof.
  intros Hi. induction pre as [|j pre IH]; cbn.
  - intros _. by rewrite decide_True.
  - intros Hk. rewrite decide_False.
    + apply IH. intros Hin. apply Hk. by apply list_elem_of_further.
    + intros Hj. apply Hk. rewrite <- Hj. apply list_elem_of_here.
Qed.

(** *** One record *)

Lemma migrated_attrs_lookup o x a attr :
  migrated_attrs o x a !! attr =
  if decide (attr = "other_identifiers")
  then match o with [] => None | _ :: _ => Some (AvL (AvS <$> o)) end
  else if decide (attr = "xrefs")
       then match x with [] => None | _ :: _ => Some (AvL (AvS <$> x)) end
       else a !! attr.
Proof.
  unfold migrated_attrs, apply_expr.
  destruct o, x; repeat case_decide; subst; by simplify_map_eq.
Qed.

Lemma migrated_attrs_other_ids o x a :
  migrated_attrs o x a !! "other_identifiers"
  = match o with [] => None | _ :: _ => Some (AvL (AvS <$> o)) end.
Proof. by rewrite migrated_attrs_lookup, decide_True. Qed.

Lemma migrated_attrs_xrefs o x a :
  migrated_attrs o x a !! "xrefs"
  = match x with [] => None | _ :: _ => Some (AvL (AvS <$> x)) end.
Proof. by rewrite migrated_attrs_lookup, decide_False, decide_True. Qed.

Lemma migrated_attrs_frame o x a attr :
  attr ≠ "other_identifiers" → attr ≠ "xrefs" →
  migrated_attrs o x a !! attr = a !! attr.
Proof. intros. by rewrite migrated_attrs_lookup, !decide_False. Qed.

Lemma migrated_attrs_idemp o x a :
  migrated_attrs o x (migrated_attrs o x a) = migrated_attrs o x a.
Proof.
  apply map_eq. intros attr. rewrite !migrated_attrs_lookup.
  by repeat case_decide.
Qed.

Lemma update_item_at db lt cid o x pre i post :
  therapies db = (pre ++ i :: post)%list →
  key_of i = (lt, cid) → (lt, cid) ∉ key_of <$> pre →
  update_item db lt cid o x
  = {| therapies := pre ++ set_attrs (migrated_attrs o x (attrs i)) i :: post;
       requests := requests db ++ update_requests (lt, cid) o x |}.
Proof.
  intros Ht Hi Hpre. unfold update_item, db_update_item, migrated_attrs,
    update_requests.
  destruct x, o; cbn [therapies requests]; rewrite Ht;
    repeat (rewrite upsert_at by done; cbn [attrs set_attrs]);
    f_equal; by rewrite <- ?app_assoc.
Qed.

Lemma stored_upsert_eq k e t :
  attrs <$> stored k (upsert k e t)
  = Some (apply_expr e (default ∅ (attrs <$> stored k t))).
Proof.
  destruct k as [k1 k2]. induction t as [|i t IH]; cbn [upsert stored].
  - by rewrite decide_True.
  - destruct (decide (key_of i = (k1, k2))) as [Hi|Hi]; cbn [stored].
    + by rewrite key_of_set_attrs, decide_True.
    + by rewrite decide_False.
Qed.

Lemma update_item_stored db lt cid o x attr :
  stored_attr (therapies (update_item db lt cid o x)) (lt, cid) attr
  = migrated_attrs o x (default ∅ (attrs <$> stored (lt, cid) (therapies db))) !! attr.
Proof.
  assert (Hs : ∀ t : list Item, stored_attr t (lt, cid) attr
            = default ∅ (attrs <$> stored (lt, cid) t) !! attr).
  { intros t. unfold stored_attr. by destruct (stored (lt, cid) t). }
  rewrite Hs. unfold update_item, db_update_item, migrated_attrs.
  destruct x, o; cbn [therapies]; by rewrite !stored_upsert_eq.
Qed.

Lemma update_item_requests db lt cid o x :
  requests (update_item db lt cid o x)
  = (requests db ++ update_requests (lt, cid) o x)%list.
Proof.
  unfold update_item, db_update_item, update_requests.
  destruct x, o; cbn [requests]; by rewrite <- ?app_assoc.
Qed.

Lemma update_requests_written k o x k' e :
  (k', e) ∈ update_requests k o x →
  ∀ attr, attr ∈ written e → attr = "other_identifiers" ∨ attr = "xrefs".
Proof.
  unfold update_requests. intros [[= -> ->]|Hin]%elem_of_cons attr; cbn.
  - intros [->|[->|?%elem_of_nil]%elem_of_cons]%elem_of_cons; by eauto.
  - destruct x, o; cbn in Hin;
      repeat (apply elem_of_cons in Hin as [[= -> ->]|Hin]);
      try (by apply elem_of_nil in Hin);
      cbn; intros ->%list_elem_of_singleton; by eauto.
Qed.

Lemma only_ids_written_refl db : only_ids_written db db.
Proof. split; [done|]. intros k e ?. by left. Qed.

Lemma only_ids_written_trans db1 db2 db3 :
  only_ids_written db1 db2 → only_ids_written db2 db3 → only_ids_written db1 db3.
Proof.
  intros [Ha1 Hr1] [Ha2 Hr2]. split.
  - intros k attr ? ?. rewrite Ha2, Ha1; done.
  - intros k e [?|?]%Hr2; [by apply Hr1|by right].
Qed.

Lemma update_item_only_ids db lt cid o x :
  only_ids_written db (update_item db lt cid o x).
Proof.
  split.
  - intros k attr Ho Hx. unfold update_item, db_update_item.
    destruct x, o; cbn [therapies]; rewrite !stored_attr_upsert; try done.
    all: cbn; intros H; repeat (apply elem_of_cons in H as [->|H]); try done.
    all: by apply elem_of_nil in H.
  - intros k e. rewrite update_item_requests.
    intros [?|?]%elem_of_app; [by left|right].
    by eapply update_requests_written.
Qed.

Section Job.

Variable page_size : nat.
Variable srcs : list string.

#[local] Abbreviation migrate := (Backfill.migrate srcs).
#[local] Abbreviation requests_for := (Backfill.requests_for srcs).
#[local] Abbreviation classifiable := (Backfill.classifiable srcs).
#[local] Abbreviation reclassify := (Backfill.reclassify srcs).
#[local] Abbreviation process_record := (Backfill.process_record srcs).
#[local] Abbreviation process_records := (Backfill.process_records srcs).
#[local] Abbreviation scan := (Backfill.scan page_size).
#[local] Abbreviation scan_loop := (Backfill.scan_loop page_size srcs).

Lemma key_of_migrate r : key_of (migrate r) = key_of r.
Proof.
  unfold Backfill.migrate. destruct (is_processed r); [|done].
  by destruct (reclassify r) as [[o x]| |].
Qed.

Lemma migrate_unprocessed r : is_processed r = false → migrate r = r.
Proof. unfold Backfill.migrate. by intros ->. Qed.

Lemma requests_for_unprocessed r : is_processed r = false → requests_for r = [].
Proof. unfold Backfill.requests_for. by intros ->. Qed.

Lemma process_record_at db r db' pre post :
  passes_filter r = true →
  therapies db = (pre ++ r :: post)%list →
  key_of r ∉ key_of <$> pre →
  process_record db r = Ok db' →
  therapies db' = (pre ++ migrate r :: post)%list ∧
  requests db' = (requests db ++ requests_for r)%list ∧
  classifiable r.
Proof.
  intros Hf Ht Hpre. unfold Backfill.process_record, Backfill.migrate,
    Backfill.requests_for, Backfill.classifiable, is_processed.
  rewrite Hf. cbn [andb].
  destruct (contains "##identity" (label_and_type r)).
  - destruct (reclassify r) as [[o x]| |]; cbn; [|done..].
    intros [= <-]. rewrite (update_item_at db _ _ o x pre r post) by done.
    cbn. split; [done|]. split; [done|]. by eexists.
  - intros [= <-]. rewrite app_nil_r. by split; [|split].
Qed.

Lemma process_records_at page : ∀ (pre post : list Item) db db',
  therapies db = (pre ++ page ++ post)%list →
  NoDup (key_of <$> (pre ++ page ++ post)%list) →
  process_records db (List.filter passes_filter page) = Ok db' →
  therapies db' = (pre ++ (migrate <$> page) ++ post)%list ∧
  requests db' = (requests db ++ (page ≫= requests_for))%list ∧
  Forall classifiable page.
Proof.
  induction page as [|r page IH]; intros pre post db db' Ht Hnd; cbn.
  - intros [= <-]. by rewrite app_nil_r.
  - assert (Hr : key_of r ∉ key_of <$> pre).
    { rewrite fmap_app in Hnd. apply NoDup_app in Hnd as (_ & Hdis & _).
      intros Hin. apply (Hdis _ Hin). cbn. apply list_elem_of_here. }
    assert (Hstep : ∀ db1,
      therapies db1 = (pre ++ migrate r :: page ++ post)%list →
      process_records db1 (List.filter passes_filter page) = Ok db' →
      therapies db' = (pre ++ migrate r :: (migrate <$> page) ++ post)%list ∧
      requests db' = (requests db1 ++ (page ≫= requests_for))%list ∧
      Forall classifiable page).
    { intros db1 Ht1 Hp.
      destruct (IH (pre ++ [migrate r])%list post db1 db') as (H1 & H2 & H3).
      - rewrite Ht1. by rewrite <- app_assoc.
      - replace (key_of <$> ((pre ++ [migrate r]) ++ page ++ post)%list)
          with (key_of <$> (pre ++ (r :: page) ++ post)%list); [done|].
        rewrite <- app_assoc, !fmap_app, !fmap_cons, key_of_migrate.
        done.
      - done.
      - rewrite <- app_assoc in H1. done. }
    destruct (passes_filter r) eqn:Hf; cbn.
    + destruct (process_record db r) as [db1| |] eqn:H1; cbn; [|done..].
      destruct (process_record_at _ _ _ _ _ Hf Ht Hr H1) as (Ht1 & Hq1 & Hc).
      intros (H2 & H3 & H4)%(Hstep db1 Ht1). split; [done|].
      split; [by rewrite H3, Hq1, <- app_assoc|by constructor].
    + assert (Hu : is_processed r = false) by (unfold is_processed; by rewrite Hf).
      intros Hp. destruct (Hstep db) as (H2 & H3 & H4).
      * by rewrite migrate_unprocessed.
      * done.
      * rewrite requests_for_unprocessed by done. split; [done|].
        split; [done|]. constructor; [|done].
        unfold Backfill.classifiable. by rewrite Hu.
Qed.

Lemma process_records_total page db :
  Forall classifiable page →
  ∃ db', process_records db (List.filter passes_filter page) = Ok db'.
Proof.
  intros Hc. revert db. induction Hc as [|r page Hr _ IH]; intros db; cbn.
  - by eexists.
  - destruct (passes_filter r) eqn:Hf; [|apply IH]. cbn.
    unfold Backfill.process_record.
    unfold Backfill.classifiable, is_processed in Hr. rewrite Hf in Hr.
    destruct (contains "##identity" (label_and_type r)); [|apply IH].
    destruct Hr as [[o x] ->]; [done|]. cbn. apply IH.
Qed.

(** *** The classifier *)

#[local] Abbreviation is_native := (Backfill.is_native srcs).
#[local] Abbreviation classify_ids := (Backfill.classify_ids srcs).

Lemma classify_ids_strings ids o x :
  classify_ids (AvS <$> ids) o x
  = Ok ((o ++ List.filter is_native ids)%list,
        (x ++ List.filter (λ s, negb (is_native s)) ids)%list).
Proof.
  revert o x. induction ids as [|s ids IH]; intros o x; cbn.
  - by rewrite !app_nil_r.
  - destruct (is_native s); cbn; rewrite IH; by rewrite <- app_assoc.
Qed.

Lemma classify_ids_Ok prev o x o' x' :
  classify_ids prev o x = Ok (o', x') → ∃ ids, prev = AvS <$> ids.
Proof.
  revert o x. induction prev as [|[s|n| |l] prev IH]; intros o x; cbn; try done.
  - by exists [].
  - destruct (is_native s); intros [ids ->]%IH; by exists (s :: ids).
Qed.

Lemma add_xrefs_other_ids_Ok r attr o x o' x' :
  _add_xrefs_other_ids srcs r attr o x = Ok (o', x') →
  ∃ ids, legacy_ids r attr = AvS <$> ids ∧
         o' = (o ++ List.filter is_native ids)%list ∧
         x' = (x ++ List.filter (λ s, negb (is_native s)) ids)%list.
Proof.
  unfold _add_xrefs_other_ids, legacy_ids.
  destruct (attrs r !! attr) as [[s|n| |prev]|]; try done.
  - intros [= <- <-]. exists []. by rewrite !app_nil_r.
  - intros H. destruct (classify_ids_Ok _ _ _ _ _ H) as [ids ->].
    rewrite classify_ids_strings in H. injection H as <- <-. by exists ids.
  - intros [= <- <-]. exists []. by rewrite !app_nil_r.
Qed.

Lemma reclassify_Ok r o x :
  reclassify r = Ok (o, x) →
  ∃ ids1 ids2,
    legacy_ids r "other_identifiers" = AvS <$> ids1 ∧
    legacy_ids r "xrefs" = AvS <$> ids2 ∧
    o = List.filter is_native (ids1 ++ ids2) ∧
    x = List.filter (λ s, negb (is_native s)) (ids1 ++ ids2).
Proof.
  unfold Backfill.reclassify.
  destruct (_add_xrefs_other_ids srcs r "other_identifiers" [] [])
    as [[o1 x1]| |] eqn:H1; cbn; [|done..].
  intros H2.
  apply add_xrefs_other_ids_Ok in H1 as (ids1 & Hl1 & -> & ->).
  apply add_xrefs_other_ids_Ok in H2 as (ids2 & Hl2 & -> & ->).
  exists ids1, ids2. by rewrite !List.filter_app.
Qed.

Lemma elem_of_filter_bool (f : string → bool) s l :
  s ∈ List.filter f l ↔ s ∈ l ∧ f s = true.
Proof. by rewrite !list_elem_of_In, List.filter_In. Qed.

Lemma filter_bool_all (f : string → bool) l :
  (∀ s, s ∈ l → f s = true) → List.filter f l = l.
Proof.
  induction l as [|s l IH]; intros Hl; cbn; [done|].
  rewrite (Hl s) by apply list_elem_of_here. f_equal.
  apply IH. intros s' Hs'. by apply Hl, list_elem_of_further.
Qed.

Lemma filter_bool_none (f : string → bool) l :
  (∀ s, s ∈ l → f s = false) → List.filter f l = [].
Proof.
  induction l as [|s l IH]; intros Hl; cbn; [done|].
  rewrite (Hl s) by apply list_elem_of_here.
  apply IH. intros s' Hs'. by apply Hl, list_elem_of_further.
Qed.

Lemma reclassify_native r o x :
  reclassify r = Ok (o, x) →
  (∀ s, s ∈ o → is_native s = true) ∧ (∀ s, s ∈ x → is_native s = false).
Proof.
  intros (ids1 & ids2 & _ & _ & -> & ->)%reclassify_Ok.
  split; intros s [_ Hs]%elem_of_filter_bool; [done|].
  by apply negb_true_iff.
Qed.

(** *** Migrating a migrated record *)

Lemma is_processed_attrs a r :
  a !! "src_name" = attrs r !! "src_name" →
  is_processed (set_attrs a r) = is_processed r.
Proof. unfold is_processed, passes_filter. cbn. by intros ->. Qed.

Lemma reclassify_migrated r o x :
  reclassify r = Ok (o, x) →
  reclassify (set_attrs (migrated_attrs o x (attrs r)) r) = Ok (o, x).
Proof.
  intros [Ho Hx]%reclassify_native.
  unfold Backfill.reclassify, _add_xrefs_other_ids. cbn [attrs set_attrs].
  rewrite migrated_attrs_other_ids, migrated_attrs_xrefs.
  assert (Ho1 : List.filter is_native o = o) by by apply filter_bool_all.
  assert (Ho2 : List.filter (λ s, negb (is_native s)) o = []).
  { apply filter_bool_none. intros s Hs. by rewrite (Ho s Hs). }
  assert (Hx1 : List.filter is_native x = []) by by apply filter_bool_none.
  assert (Hx2 : List.filter (λ s, negb (is_native s)) x = x).
  { apply filter_bool_all. intros s Hs. by rewrite (Hx s Hs). }
  destruct o as [|o0 o]; destruct x as [|x0 x]; cbn [mbind result_bind];
    rewrite ?classify_ids_strings; cbn [mbind result_bind];
    rewrite ?classify_ids_strings, ?Ho1, ?Ho2, ?Hx1, ?Hx2, ?app_nil_r; done.
Qed.

Lemma migrate_migrate r :
  classifiable r → migrate (migrate r) = migrate r ∧ classifiable (migrate r).
Proof.
  intros Hc. unfold Backfill.migrate at 2 3 4.
  destruct (is_processed r) eqn:Hp.
  - destruct (Hc Hp) as [[o x] Hr]. rewrite Hr.
    pose proof (reclassify_migrated _ _ _ Hr) as Hr'.
    assert (Hp' : is_processed (set_attrs (migrated_attrs o x (attrs r)) r) = true).
    { rewrite is_processed_attrs; [done|]. by apply migrated_attrs_frame. }
    split.
    + unfold Backfill.migrate. rewrite Hp', Hr'. cbn.
      by rewrite migrated_attrs_idemp.
    + intros _. by eexists.
  - split; [by apply migrate_unprocessed|]. intros Hp'. congruence.
Qed.

(** *** The scan loop *)

Lemma scan_rest (pre rest : list Item) last :
  NoDup (key_of <$> (pre ++ rest)%list) →
  cursor_at last pre →
  match last with
  | Some k => after_key k (pre ++ rest)%list
  | None => (pre ++ rest)%list
  end = rest.
Proof.
  intros Hnd. destruct last as [k|]; cbn.
  - intros (pre0 & i & -> & Hi). rewrite <- app_assoc. cbn.
    apply after_key_at; [done|].
    rewrite <- app_assoc, fmap_app in Hnd. cbn in Hnd.
    apply NoDup_app in Hnd as (_ & Hdis & _).
    intros Hin. apply (Hdis _ Hin). rewrite <- Hi. apply list_elem_of_here.
  - by intros ->.
Qed.

Lemma scan_loop_spec fuel : ∀ (pre rest : list Item) cursor db,
  (0 < page_size)%nat →
  therapies db = (pre ++ rest)%list →
  NoDup (key_of <$> (pre ++ rest)%list) →
  cursor_at cursor pre →
  (∀ db', scan_loop fuel cursor db = Ok db' →
     therapies db' = (pre ++ (migrate <$> rest))%list ∧
     requests db' = (requests db ++ (rest ≫= requests_for))%list ∧
     Forall classifiable rest) ∧
  ((length rest < fuel)%nat → Forall classifiable rest →
   ∃ db', scan_loop fuel cursor db = Ok db').
Proof.
  induction fuel as [|fuel IH]; intros pre rest cursor db Hps Ht Hnd Hcur.
  { split; [done|]. intros Hlen. lia. }
  cbn [Backfill.scan_loop]. unfold Backfill.scan.
  cbn [Items LastEvaluatedKey]. rewrite Ht, (scan_rest _ _ _ Hnd Hcur).
  remember (take page_size rest) as page eqn:Epage.
  remember (drop page_size rest) as rem eqn:Erem.
  assert (Hrest : rest = (page ++ rem)%list)
    by (subst page rem; symmetry; apply take_drop).
  assert (Hpage : rem ≠ [] → ∃ page0 i, page = (page0 ++ [i])%list).
  { intros Hrem. destruct (last page) as [i|] eqn:Hl.
    - apply last_Some in Hl as [page0 ->]. by eexists _, _.
    - apply last_None in Hl. subst page rem. destruct rest as [|r rest].
      + by rewrite drop_nil in Hrem.
      + destruct page_size; [lia|done]. }
  clear Epage Erem.
  assert (Hnext : ∀ db1 page0 i,
    page = (page0 ++ [i])%list →
    therapies db1 = (pre ++ (migrate <$> page) ++ rem)%list →
    (∀ db', scan_loop fuel (Some (key_of i)) db1 = Ok db' →
       therapies db' = ((pre ++ (migrate <$> page)) ++ (migrate <$> rem))%list ∧
       requests db' = (requests db1 ++ (rem ≫= requests_for))%list ∧
       Forall classifiable rem) ∧
    ((length rem < fuel)%nat → Forall classifiable rem →
     ∃ db', scan_loop fuel (Some (key_of i)) db1 = Ok db')).
  { intros db1 page0 i Hp Ht1. apply IH; [done| | |].
    - by rewrite <- app_assoc.
    - replace (key_of <$> ((pre ++ (migrate <$> page)) ++ rem)%list)
        with (key_of <$> (pre ++ rest)%list); [done|].
      rewrite Hrest, !fmap_app, <- app_assoc. do 2 f_equal.
      rewrite <- list_fmap_compose. apply list_fmap_ext.
      intros ? r _. cbn. by rewrite key_of_migrate.
    - exists (pre ++ (migrate <$> page0))%list, (migrate i).
      split; [|apply key_of_migrate].
      by rewrite Hp, fmap_app, app_assoc. }
  split.
  - intros db'.
    destruct (process_records db (List.filter passes_filter page))
      as [db1| |] eqn:Hp; cbn; [|done..].
    destruct (process_records_at page pre rem db db1) as (Ht1 & Hq1 & Hc1);
      [by rewrite Ht, Hrest|by rewrite <- Hrest|done|].
    destruct rem as [|r0 rem0] eqn:Hrem.
    + intros [= <-]. rewrite app_nil_r in Hrest. subst rest.
      rewrite app_nil_r in Ht1. done.
    + destruct (Hpage ltac:(done)) as (page0 & i & Hpi).
      assert (Hl : last page = Some i) by (rewrite Hpi; apply last_snoc).
    rewrite Hl. cbn.
      intros (H1 & H2 & H3)%(proj1 (Hnext db1 page0 i Hpi Ht1)).
      rewrite Hrest. split; [by rewrite H1, fmap_app, app_assoc|].
      split; [by rewrite H2, Hq1, bind_app, app_assoc|].
      by apply Forall_app.
  - intros Hlen Hc. rewrite Hrest in Hc. apply Forall_app in Hc as [Hc1 Hc2].
    destruct (process_records_total page db Hc1) as [db1 Hp].
    rewrite Hp. cbn.
    destruct (process_records_at page pre rem db db1) as (Ht1 & _ & _);
      [by rewrite Ht, Hrest|by rewrite <- Hrest|done|].
    destruct rem as [|r0 rem0] eqn:Hrem; [by eexists|].
    destruct (Hpage ltac:(done)) as (page0 & i & Hpi).
    assert (Hl : last page = Some i) by (rewrite Hpi; apply last_snoc).
    rewrite Hl. cbn.
    apply (proj2 (Hnext db1 page0 i Hpi Ht1)); [|done].
    assert (length rest = length page + length (r0 :: rem0))%nat
      by (by rewrite Hrest, length_app).
    assert (0 < length page)%nat
      by (rewrite Hpi, length_app; cbn; lia).
    lia.
Qed.

(** The job on a table whose keys are distinct. *)
Lemma job_spec fuel db :
  (0 < page_size)%nat →
  NoDup (key_of <$> therapies db) →
  (∀ db', update_xrefs_other_ids page_size srcs fuel db = Ok db' →
     therapies db' = migrate <$> therapies db ∧
     requests db' = (requests db ++ (therapies db ≫= requests_for))%list ∧
     Forall classifiable (therapies db)) ∧
  ((length (therapies db) < fuel)%nat → Forall classifiable (therapies db) →
   ∃ db', update_xrefs_other_ids page_size srcs fuel db = Ok db').
Proof.
  intros Hps Hnd. by apply (scan_loop_spec fuel [] (therapies db) None db).
Qed.

(** *** Only the two identifier attributes are written *)

Lemma process_records_only_ids records : ∀ db db',
  process_records db records = Ok db' → only_ids_written db db'.
Proof.
  induction records as [|r records IH]; intros db db'; cbn.
  - intros [= <-]. apply only_ids_written_refl.
  - destruct (process_record db r) as [db1| |] eqn:H1; cbn; [|done..].
    intros H2%IH. eapply only_ids_written_trans; [|done].
    unfold Backfill.process_record in H1.
    destruct (contains "##identity" (label_and_type r)).
    + destruct (reclassify r) as [[o x]| |]; cbn in H1; [|done..].
      injection H1 as <-. apply update_item_only_ids.
    + injection H1 as <-. apply only_ids_written_refl.
Qed.

Lemma scan_loop_only_ids fuel : ∀ cursor db db',
  scan_loop fuel cursor db = Ok db' → only_ids_written db db'.
Proof.
  induction fuel as [|fuel IH]; intros cursor db db'; [done|].
  cbn [Backfill.scan_loop].
  set (response := Backfill.scan page_size (therapies db) cursor).
  destruct (process_records db (Items response)) as [db1| |] eqn:H1;
    cbn [mbind result_bind]; [|done..].
  apply process_records_only_ids in H1.
  destruct (LastEvaluatedKey response).
  - intros H2%IH. by eapply only_ids_written_trans.
  - by intros [= <-].
Qed.

(** C8.  Whatever the stored table, a run of the job that returns
    leaves every attribute other than "other_identifiers" and "xrefs"
    of every stored item as it was (in particular label, aliases,
    trade_names and approval_status), and every update request it
    sends writes only "other_identifiers" and "xrefs". *)
Theorem C8_backfill_frame fuel db db' :
  update_xrefs_other_ids page_size srcs fuel db = Ok db' →
  (∀ k attr, attr ≠ "other_identifiers" → attr ≠ "xrefs" →
     stored_attr (therapies db') k attr = stored_attr (therapies db) k attr) ∧
  (∀ k attr, attr ∈ ["label"; "aliases"; "trade_names"; "approval_status"] →
     stored_attr (therapies db') k attr = stored_attr (therapies db) k attr) ∧
  (∀ k e, (k, e) ∈ requests db' →
     (k, e) ∈ requests db ∨
     ∀ attr, attr ∈ written e → attr = "other_identifiers" ∨ attr = "xrefs").
Proof.
  intros [Ha Hr]%scan_loop_only_ids. split; [done|]. split; [|done].
  intros k attr Hattr. apply Ha; intros ->;
    repeat (apply elem_of_cons in Hattr as [[=]|Hattr]);
    by apply elem_of_nil in Hattr.
Qed.

(** *** After the job *)

Lemma job_stored fuel db db' r :
  (0 < page_size)%nat →
  NoDup (key_of <$> therapies db) →
  update_xrefs_other_ids page_size srcs fuel db = Ok db' →
  r ∈ therapies db →
  stored (key_of r) (therapies db') = Some (migrate r).
Proof.
  intros Hps Hnd Hrun Hr.
  destruct (proj1 (job_spec fuel db Hps Hnd) db' Hrun) as (-> & _ & _).
  rewrite stored_fmap_key by apply key_of_migrate.
  by rewrite (stored_elem _ r _ Hnd Hr).
Qed.

(** C5.  [update_item]: after it, the addressed item has no "xrefs"
    attribute when the list passed is empty, and no
    "other_identifiers" attribute when that list is empty, and a
    "remove" request for that attribute was sent.  The job:
    after a run over a table with distinct keys, a record the loop
    reached whose reclassified "xrefs" (or "other_identifiers") list is
    empty has no such attribute, and no reached record stores an empty
    list under either name. *)
Theorem C5_empty_list_attribute_removed :
  (∀ db lt cid o x,
     (x = [] →
      stored_attr (therapies (update_item db lt cid o x)) (lt, cid) "xrefs" = None ∧
      ((lt, cid), Remove "xrefs") ∈ requests (update_item db lt cid o x)) ∧
     (o = [] →
      stored_attr (therapies (update_item db lt cid o x)) (lt, cid)
                  "other_identifiers" = None ∧
      ((lt, cid), Remove "other_identifiers") ∈ requests (update_item db lt cid o x))) ∧
  (∀ fuel db db' r o x,
     (0 < page_size)%nat →
     NoDup (key_of <$> therapies db) →
     update_xrefs_other_ids page_size srcs fuel db = Ok db' →
     r ∈ therapies db → is_processed r = true →
     reclassify r = Ok (o, x) →
     (x = [] → stored_attr (therapies db') (key_of r) "xrefs" = None) ∧
     (o = [] → stored_attr (therapies db') (key_of r) "other_identifiers" = None) ∧
     stored_attr (therapies db') (key_of r) "xrefs" ≠ Some (AvL []) ∧
     stored_attr (therapies db') (key_of r) "other_identifiers" ≠ Some (AvL [])).
Proof.
  split.
  - intros db lt cid o x. rewrite !update_item_stored,
      migrated_attrs_xrefs, migrated_attrs_other_ids, update_item_requests.
    split; intros ->; (split; [done|]); apply elem_of_app; right;
      unfold update_requests; [destruct o|destruct x]; cbn;
      repeat first [apply list_elem_of_here | apply list_elem_of_further].
  - intros fuel db db' r o x Hps Hnd Hrun Hr Hp Hre.
    unfold stored_attr. rewrite (job_stored _ _ _ _ Hps Hnd Hrun Hr). cbn.
    unfold Backfill.migrate. rewrite Hp, Hre. cbn.
    rewrite migrated_attrs_xrefs, migrated_attrs_other_ids.
    split; [by intros ->|]. split; [by intros ->|].
    split; [by destruct x|by destruct o].
Qed.

(** *** A second run *)

Lemma requests_for_set r :
  is_processed r = true → classifiable r →
  ∃ o x, (key_of r, SetIds o x) ∈ requests_for r.
Proof.
  intros Hp Hc. destruct (Hc Hp) as [[o x] Hr].
  exists o, x. unfold Backfill.requests_for. rewrite Hp, Hr.
  apply list_elem_of_here.
Qed.

(** C6 (amended).  Over a table with distinct keys, a second run of
    the job that starts from what a first run left returns (given fuel
    for one page per item), leaves the stored table exactly as it was,
    and sends its update requests again: the requests of every record
    it reaches, among them one "set" for each. *)
Theorem C6_second_run_keeps_table fuel fuel' db db1 :
  (0 < page_size)%nat →
  NoDup (key_of <$> therapies db) →
  update_xrefs_other_ids page_size srcs fuel db = Ok db1 →
  (length (therapies db) < fuel')%nat →
  ∃ db2,
    update_xrefs_other_ids page_size srcs fuel' db1 = Ok db2 ∧
    therapies db2 = therapies db1 ∧
    requests db2 = (requests db1 ++ (therapies db1 ≫= requests_for))%list ∧
    (∀ r, r ∈ therapies db1 → is_processed r = true →
       ∃ o x, (key_of r, SetIds o x) ∈ therapies db1 ≫= requests_for).
Proof.
  intros Hps Hnd Hrun Hfuel.
  destruct (proj1 (job_spec fuel db Hps Hnd) db1 Hrun) as (Ht1 & _ & Hc).
  assert (Hnd1 : NoDup (key_of <$> therapies db1)).
  { rewrite Ht1, <- list_fmap_compose.
    replace (key_of <$> therapies db) with ((key_of ∘ migrate) <$> therapies db) in Hnd;
      [done|]. apply list_fmap_ext. intros ? r _. apply key_of_migrate. }
  assert (Hc1 : Forall classifiable (therapies db1)).
  { rewrite Ht1. apply Forall_fmap. eapply Forall_impl; [exact Hc|].
    intros r Hr. by apply migrate_migrate. }
  destruct (job_spec fuel' db1 Hps Hnd1) as [Hpartial Htotal].
  destruct Htotal as [db2 Hrun2]; [by rewrite Ht1, length_fmap|done|].
  exists db2. split; [done|].
  destruct (Hpartial db2 Hrun2) as (Ht2 & Hq2 & _).
  split; [|split; [done|]].
  - rewrite Ht2, Ht1, <- list_fmap_compose. apply list_fmap_ext.
    intros ? r Hr. cbn. apply migrate_migrate.
    rewrite Forall_forall in Hc. apply Hc.
    by eapply list_elem_of_lookup_2.
  - intros r Hr Hp. rewrite Forall_forall in Hc1.
    destruct (requests_for_set r Hp (Hc1 r Hr)) as (o & x & Hin).
    exists o, x. apply list_elem_of_bind. by exists r.
Qed.

End Job.

Lemma demo_table_keys : NoDup (key_of <$> therapies demo_db).
Proof. apply (bool_decide_unpack _). vm_compute. exact I. Qed.

Lemma C8_backfill_frame_witness :
  (∀ k attr, attr ≠ "other_identifiers" → attr ≠ "xrefs" →
     stored_attr (therapies first_run_db) k attr
     = stored_attr (therapies demo_db) k attr) ∧
  (∀ k attr, attr ∈ ["label"; "aliases"; "trade_names"; "approval_status"] →
     stored_attr (therapies first_run_db) k attr
     = stored_attr (therapies demo_db) k attr) ∧
  (∀ k e, (k, e) ∈ requests first_run_db →
     (k, e) ∈ requests demo_db ∨
     ∀ attr, attr ∈ written e → attr = "other_identifiers" ∨ attr = "xrefs").
Proof.
  apply (C8_backfill_frame 2 demo_normalizer_srcs 10 demo_db first_run_db).
  vm_compute. reflexivity.
Defined.

Lemma C5_empty_list_attribute_removed_witness :
  stored_attr (therapies first_run_db) (key_of drugbank_stored) "xrefs" = None ∧
  stored_attr (therapies first_run_db) (key_of drugbank_stored)
              "other_identifiers" = None.
Proof.
  destruct (C5_empty_list_attribute_removed 2 demo_normalizer_srcs) as [_ Hjob].
  destruct (Hjob 10 demo_db first_run_db drugbank_stored [] []) as (Hx & Ho & _).
  - lia.
  - exact demo_table_keys.
  - vm_compute. reflexivity.
  - apply (list_elem_of_lookup_2 _ 3). vm_compute. reflexivity.
  - vm_compute. reflexivity.
  - vm_compute. reflexivity.
  - split; [by apply Hx|by apply Ho].
Defined.

(** C6 (counterexample).  A first run over the example table, then a
    second run over the table the first one left, with an empty request
    log: the second run leaves the table as it was, and it sends four
    update requests, not none. *)
Lemma C6_second_run_writes :
  demo_run demo_db = Ok first_run_db ∧
  requests after_first_run = [] ∧
  demo_run after_first_run = Ok second_run_db ∧
  therapies second_run_db = therapies after_first_run ∧
  length (requests second_run_db) = 4%nat ∧
  requests second_run_db ≠ [].
Proof.
  split; [vm_compute; reflexivity|]. split; [reflexivity|].
  split; [vm_compute; reflexivity|]. split; [vm_compute; reflexivity|].
  split; [vm_compute; reflexivity|]. vm_compute. discriminate.
Qed.

Lemma C6_second_run_keeps_table_witness :
  ∃ db2,
    update_xrefs_other_ids 2 demo_normalizer_srcs 10 first_run_db = Ok db2 ∧
    therapies db2 = therapies first_run_db ∧
    requests db2 = (requests first_run_db ++
                    (therapies first_run_db ≫= requests_for demo_normalizer_srcs))%list ∧
    (∀ r, r ∈ therapies first_run_db → is_processed r = true →
       ∃ o x, (key_of r, SetIds o x)
              ∈ therapies first_run_db ≫= requests_for demo_normalizer_srcs).
Proof.
  apply (C6_second_run_keeps_table 2 demo_normalizer_srcs 10 10 demo_db first_run_db).
  - lia.
  - exact demo_table_keys.
  - vm_compute. reflexivity.
  - vm_compute. lia.
Defined.

(** *** The two identifier lists do not overlap *)

Lemma AvS_elem_of_fmap s (ids : list string) : AvS s ∈ AvS <$> ids → s ∈ ids.
Proof. by intros (s' & [= ->] & Hs)%list_elem_of_fmap. Qed.

(** C4.  The backfill job: the two lists it derives for a record hold
    the identifiers whose text before the first colon is in the registry
    and those for which it is not, so no identifier is in both, and
    every identifier of the stored "other_identifiers" and "xrefs" lists
    is in the one its prefix selects.  The Wikidata transform, for a
    registry whose prefixes contain no colon and are not shared by a
    normalizer source and another source: the "other_identifiers" and
    "xrefs" of an identity item it puts have no identifier in common;
    every identifier key of the record that created the item gives one
    identifier, whose text before the first colon is the key's prefix,
    and that identifier is in "other_identifiers" and not in "xrefs"
    when the key names a normalizer source, in "xrefs" and not in
    "other_identifiers" when it does not; and the two lists hold
    nothing else. *)
Theorem C4_identifier_lists_disjoint :
  (∀ srcs r o x,
     reclassify srcs r = Ok (o, x) →
     (∀ s, s ∈ o → is_native srcs s = true) ∧
     (∀ s, s ∈ x → is_native srcs s = false) ∧
     (∀ s, ¬ (s ∈ o ∧ s ∈ x)) ∧
     (∀ attr s, attr = "other_identifiers" ∨ attr = "xrefs" →
        AvS s ∈ legacy_ids r attr →
        if is_native srcs s then s ∈ o else s ∈ x)) ∧
  (∀ prefixes after_namespace members chemidplus wikidata wikidata_prefix
     casefold records ops i other_ids xrefs,
     (∀ k p, Wikidata.dict_get (Wikidata.remap chemidplus k) prefixes = Some p →
             colon_free p = true) →
     (∀ k1 k2 p,
        Wikidata.dict_get (Wikidata.remap chemidplus k1) prefixes = Some p →
        Wikidata.dict_get (Wikidata.remap chemidplus k2) prefixes = Some p →
        upper (Wikidata.remap chemidplus k1) ∈ members →
        upper (Wikidata.remap chemidplus k2) ∈ members) →
     Wikidata._transform_data prefixes after_namespace members chemidplus
       wikidata wikidata_prefix casefold records = Some ops →
     Wikidata.PutIdentity i ∈ ops →
     Wikidata.fields i !! "other_identifiers" = Some other_ids →
     Wikidata.fields i !! "xrefs" = Some xrefs →
     (∀ s, ¬ (s ∈ other_ids ∧ s ∈ xrefs)) ∧
     ∃ record, record ∈ records ∧
       (∀ k v, k ∈ prefixes.*1 → record !! k = Some v →
          ∃ p s,
            Wikidata.dict_get (Wikidata.remap chemidplus k) prefixes = Some p ∧
            first_field (split ":" s) = p ∧
            if bool_decide (upper (Wikidata.remap chemidplus k) ∈ members)
            then Wikidata.classify_key prefixes after_namespace members chemidplus k v
                 = Some (Wikidata.OtherId s) ∧
                 s ∈ other_ids ∧ s ∉ xrefs
            else Wikidata.classify_key prefixes after_namespace members chemidplus k v
                 = Some (Wikidata.Xref s) ∧
                 s ∈ xrefs ∧ s ∉ other_ids) ∧
       (∀ s, s ∈ other_ids ∨ s ∈ xrefs →
          ∃ k v, k ∈ prefixes.*1 ∧ record !! k = Some v ∧
            (Wikidata.classify_key prefixes after_namespace members chemidplus k v
             = Some (Wikidata.OtherId s) ∨
             Wikidata.classify_key prefixes after_namespace members chemidplus k v
             = Some (Wikidata.Xref s)))).
Proof.
  split.
  - intros srcs r o x Hr.
    destruct (reclassify_native srcs _ _ _ Hr) as [Ho Hx].
    split; [done|]. split; [done|]. split.
    + intros s [Hso Hsx]. specialize (Hx s Hsx). by rewrite (Ho s Hso) in Hx.
    + apply reclassify_Ok in Hr as (ids1 & ids2 & Hl1 & Hl2 & -> & ->).
      intros attr s Hattr Hs.
      assert (Hin : s ∈ (ids1 ++ ids2)%list).
      { apply elem_of_app. destruct Hattr as [-> | ->].
        - left. rewrite Hl1 in Hs. by apply AvS_elem_of_fmap.
        - right. rewrite Hl2 in Hs. by apply AvS_elem_of_fmap. }
      destruct (is_native srcs s) eqn:Hn; apply elem_of_filter_bool;
        by rewrite ?Hn.
  - intros prefixes after_namespace members chemidplus wikidata wikidata_prefix
           casefold records ops i other_ids xrefs Hcolon Hclass Ht Hi Ho Hx.
    split.
    + by eapply AdapterFacts.wikidata_lists_disjoint.
    + by eapply AdapterFacts.wikidata_lists_placed.
Qed.

Lemma demo_prefixes_colon_free k p :
  Wikidata.dict_get (Wikidata.remap "ChemIDplus" k) demo_IDENTIFIER_PREFIXES = Some p →
  colon_free p = true.
Proof.
  intros H%AdapterFacts.dict_get_Some. unfold demo_IDENTIFIER_PREFIXES in H.
  repeat (apply elem_of_cons in H as [[= _ ->]|H]; [reflexivity|]).
  by apply elem_of_nil in H.
Qed.

Lemma demo_remap_not_cas k : Wikidata.remap "ChemIDplus" k ≠ "casRegistry".
Proof.
  unfold Wikidata.remap. case_bool_decide as Hk; [done|].
  intros ->. by apply Hk.
Qed.

Lemma demo_prefixes_determine_class k1 k2 p :
  Wikidata.dict_get (Wikidata.remap "ChemIDplus" k1) demo_IDENTIFIER_PREFIXES = Some p →
  Wikidata.dict_get (Wikidata.remap "ChemIDplus" k2) demo_IDENTIFIER_PREFIXES = Some p →
  upper (Wikidata.remap "ChemIDplus" k1) ∈ demo_SourceName_members →
  upper (Wikidata.remap "ChemIDplus" k2) ∈ demo_SourceName_members.
Proof.
  pose proof (demo_remap_not_cas k2) as Hcas.
  generalize dependent (Wikidata.remap "ChemIDplus" k2).
  generalize (Wikidata.remap "ChemIDplus" k1). intros K1 K2 Hcas.
  intros H1%AdapterFacts.dict_get_Some H2%AdapterFacts.dict_get_Some.
  unfold demo_IDENTIFIER_PREFIXES in H1, H2.
  repeat (apply elem_of_cons in H1 as [[= -> ->]|H1]);
    try (by apply elem_of_nil in H1);
    repeat (apply elem_of_cons in H2 as [[= ->]|H2]);
    try (by apply elem_of_nil in H2); try done;
    intros Hn; try done;
    try (apply (bool_decide_unpack _); vm_compute; exact I);
    exfalso; revert Hn; apply (bool_decide_unpack (¬ _)); vm_compute; exact I.
Qed.

Lemma C4_identifier_lists_disjoint_witness :
  ((∀ s, s ∈ ["chembl:CHEMBL25"] → is_native demo_normalizer_srcs s = true) ∧
   (∀ s, s ∈ ["pubchem.compound:2244"] → is_native demo_normalizer_srcs s = false) ∧
   (∀ s, ¬ (s ∈ ["chembl:CHEMBL25"] ∧ s ∈ ["pubchem.compound:2244"])) ∧
   (∀ attr s, attr = "other_identifiers" ∨ attr = "xrefs" →
      AvS s ∈ legacy_ids wikidata_stored attr →
      if is_native demo_normalizer_srcs s
      then s ∈ ["chembl:CHEMBL25"] else s ∈ ["pubchem.compound:2244"])) ∧
  ((∀ s, ¬ (s ∈ ["chemidplus:CAS:50-78-2"; "chembl:CHEMBL25"] ∧
            s ∈ ["pubchem.compound:2244"])) ∧
   ∃ record, record ∈ wikidata_records ∧
     (∀ k v, k ∈ demo_IDENTIFIER_PREFIXES.*1 → record !! k = Some v →
        ∃ p s,
          Wikidata.dict_get (Wikidata.remap "ChemIDplus" k) demo_IDENTIFIER_PREFIXES
          = Some p ∧
          first_field (split ":" s) = p ∧
          if bool_decide (upper (Wikidata.remap "ChemIDplus" k) ∈ demo_SourceName_members)
          then Wikidata.classify_key demo_IDENTIFIER_PREFIXES demo_SourceIDAfterNamespace
                 demo_SourceName_members "ChemIDplus" k v = Some (Wikidata.OtherId s) ∧
               s ∈ ["chemidplus:CAS:50-78-2"; "chembl:CHEMBL25"] ∧
               s ∉ ["pubchem.compound:2244"]
          else Wikidata.classify_key demo_IDENTIFIER_PREFIXES demo_SourceIDAfterNamespace
                 demo_SourceName_members "ChemIDplus" k v = Some (Wikidata.Xref s) ∧
               s ∈ ["pubchem.compound:2244"] ∧
               s ∉ ["chemidplus:CAS:50-78-2"; "chembl:CHEMBL25"]) ∧
     (∀ s, s ∈ ["chemidplus:CAS:50-78-2"; "chembl:CHEMBL25"] ∨
           s ∈ ["pubchem.compound:2244"] →
        ∃ k v, k ∈ demo_IDENTIFIER_PREFIXES.*1 ∧ record !! k = Some v ∧
          (Wikidata.classify_key demo_IDENTIFIER_PREFIXES demo_SourceIDAfterNamespace
             demo_SourceName_members "ChemIDplus" k v = Some (Wikidata.OtherId s) ∨
           Wikidata.classify_key demo_IDENTIFIER_PREFIXES demo_SourceIDAfterNamespace
             demo_SourceName_members "ChemIDplus" k v = Some (Wikidata.Xref s)))).
Proof.
  destruct C4_identifier_lists_disjoint as [HB HW]. split.
  - apply (HB demo_normalizer_srcs wikidata_stored
              ["chembl:CHEMBL25"] ["pubchem.compound:2244"]).
    vm_compute. reflexivity.
  - apply (HW demo_IDENTIFIER_PREFIXES demo_SourceIDAfterNamespace
             demo_SourceName_members "ChemIDplus" "Wikidata" "wikidata" casefold
             wikidata_records
             (default [] (demo_wikidata_transform wikidata_records))
             aspirin_item).
    + exact demo_prefixes_colon_free.
    + exact demo_prefixes_determine_class.
    + vm_compute. reflexivity.
    + apply (list_elem_of_lookup_2 _ 0). vm_compute. reflexivity.
    + vm_compute. reflexivity.
    + vm_compute. reflexivity.
Defined.

End BackfillFacts.

(** ** More about the RxNorm transform *)

Module RxNormMoreFacts.

Import PyStr RxNorm RxNormFiles Examples MoreExamples.

(** *** [_add_term_to_field] *)

Lemma add_term_to_field_lookup d field term :
  _add_term_to_field d field term !! field =
  match d !! field with
  | Some (x :: xs) =>
      if mem term (x :: xs) then Some (x :: xs) else Some ((x :: xs) ++ [term])%list
  | _ => Some [term]
  end.
Proof.
  unfold _add_term_to_field. destruct (d !! field) as [[|x xs]|] eqn:Hd.
  - apply lookup_insert_eq.
  - destruct (mem term (x :: xs)); [done|apply lookup_insert_eq].
  - apply lookup_insert_eq.
Qed.

Lemma add_term_to_field_other d field term other :
  other ≠ field → _add_term_to_field d field term !! other = d !! other.
Proof.
  intros Hne. unfold _add_term_to_field.
  destruct (d !! field) as [[|x xs]|]; [by apply lookup_insert_ne| |by apply lookup_insert_ne].
  destruct (mem term (x :: xs)); [done|by apply lookup_insert_ne].
Qed.

(** X1.  [_add_term_to_field] as a set insertion: afterwards the term is
    in the list under the key; what was in the list stays, in the same
    order and in front; the other keys keep their lists; and adding a
    term a second time changes nothing. *)
Theorem add_term_to_field_insert d field term :
  (∃ l, _add_term_to_field d field term !! field = Some l ∧ term ∈ l ∧
        ∀ old, d !! field = Some old → old `prefix_of` l) ∧
  (∀ other, other ≠ field → _add_term_to_field d field term !! other = d !! other) ∧
  _add_term_to_field (_add_term_to_field d field term) field term
  = _add_term_to_field d field term.
Proof.
  split; [|split].
  - rewrite add_term_to_field_lookup.
    destruct (d !! field) as [[|x xs]|] eqn:Hd.
    + exists [term]. split; [done|]. split; [apply list_elem_of_here|].
      intros old [= <-]. apply prefix_nil.
    + unfold mem. case_bool_decide as Hin.
      * exists (x :: xs). split; [done|]. split; [done|]. by intros old [= <-].
      * eexists. split; [done|]. split.
        -- apply elem_of_app. right. apply list_elem_of_here.
        -- intros old [= <-]. by apply prefix_app_r.
    + exists [term]. split; [done|]. split; [apply list_elem_of_here|]. done.
  - intros other. apply add_term_to_field_other.
  - unfold _add_term_to_field at 1. rewrite add_term_to_field_lookup.
    destruct (d !! field) as [[|x xs]|] eqn:Hd.
    + unfold mem. rewrite bool_decide_eq_true_2; [done|apply list_elem_of_here].
    + unfold mem. case_bool_decide as Hin.
      * by rewrite bool_decide_eq_true_2.
      * destruct ((x :: xs) ++ [term])%list as [|y ys] eqn:Hl; [done|].
        rewrite bool_decide_eq_true_2; [done|].
        rewrite <- Hl. apply elem_of_app. right. apply list_elem_of_here.
    + unfold mem. rewrite bool_decide_eq_true_2; [done|apply list_elem_of_here].
Qed.

(** *** [_create_drug_form_yaml] *)

Lemma collect_drug_forms_spec rows : ∀ dfs,
  NoDup dfs →
  NoDup (collect_drug_forms rows dfs) ∧
  dfs `prefix_of` collect_drug_forms rows dfs ∧
  ∀ s, s ∈ collect_drug_forms rows dfs ↔
       s ∈ dfs ∨ ∃ row, row ∈ rows ∧ row12 row = "DF" ∧ row11 row = "RXNORM" ∧
                        row14 row = s.
Proof.
  induction rows as [|row rows IH]; intros dfs Hnd; cbn.
  - split; [done|]. split; [done|]. intros s. split; [by left|].
    by intros [?|(row & ?%elem_of_nil & _)].
  - destruct (bool_decide (row12 row = "DF") && bool_decide (row11 row = "RXNORM"))
      eqn:Hdf.
    + apply andb_true_iff in Hdf as [H12%bool_decide_eq_true H11%bool_decide_eq_true].
      unfold mem. case_bool_decide as Hin.
      * destruct (IH dfs Hnd) as (H1 & H2 & H3). split; [done|]. split; [done|].
        intros s. rewrite H3. split.
        -- intros [?|(r & Hr & ?)]; [by left|].
           right. exists r. split; [by apply list_elem_of_further|done].
        -- intros [?|(r & [->|Hr]%elem_of_cons & ? & ? & <-)]; [by left|by left|].
           right. by exists r.
      * destruct (IH (dfs ++ [row14 row])%list) as (H1 & H2 & H3).
        { apply NoDup_app. split; [done|]. split; [|apply NoDup_singleton].
          by intros x Hx ->%list_elem_of_singleton. }
        split; [done|]. split; [etrans; [|exact H2]; by apply prefix_app_r|].
        intros s. rewrite H3, elem_of_app, list_elem_of_singleton. split.
        -- intros [[?| ->]|(r & Hr & ?)]; [by left| |].
           ++ right. exists row. split; [apply list_elem_of_here|done].
           ++ right. exists r. split; [by apply list_elem_of_further|done].
        -- intros [?|(r & [->|Hr]%elem_of_cons & ? & ? & <-)];
             [by left; left|by left; right|].
           right. by exists r.
    + destruct (IH dfs Hnd) as (H1 & H2 & H3). split; [done|]. split; [done|].
      intros s. rewrite H3. split.
      * intros [?|(r & Hr & ?)]; [by left|].
        right. exists r. split; [by apply list_elem_of_further|done].
      * intros [?|(r & [->|Hr]%elem_of_cons & H12 & H11 & <-)]; [by left| |].
        -- rewrite H12, H11 in Hdf. done.
        -- right. by exists r.
Qed.

(** X2.  The drug forms written by [_create_drug_form_yaml] are exactly
    the term strings of the rows with term type DF of the RXNORM
    vocabulary, each of them once. *)
Theorem drug_forms_distinct_and_complete rows :
  NoDup (_create_drug_form_yaml rows) ∧
  ∀ s, s ∈ _create_drug_form_yaml rows ↔
       ∃ row, row ∈ rows ∧ row12 row = "DF" ∧ row11 row = "RXNORM" ∧ row14 row = s.
Proof.
  destruct (collect_drug_forms_spec rows [] (NoDup_nil_2 (A:=string))) as (H1 & _ & H3).
  split; [done|]. intros s. rewrite (H3 s). split; [|by right].
  by intros [?%elem_of_nil|?].
Qed.

(** *** Rows outside the allow-list *)

Section Transform.

Variables (XS AS : list string) (NP : string -> option string).
Variables (src presc : string) (drug_forms : list string).

#[local] Abbreviation pass1_row := (RxNorm.pass1_row XS AS NP presc drug_forms).
#[local] Abbreviation pass1 := (RxNorm.pass1 XS AS NP presc drug_forms).
#[local] Abbreviation _transform_data :=
  (RxNorm._transform_data XS AS NP src presc drug_forms).
#[local] Abbreviation _add_str_field := (RxNorm._add_str_field presc).
#[local] Abbreviation _add_xref_assoc := (RxNorm._add_xref_assoc XS AS NP).

Lemma pass1_allowed_only rows : ∀ t,
  pass1 t rows = pass1 t (List.filter allowed rows).
Proof.
  induction rows as [|row rows IH]; intros t; [done|]. cbn.
  destruct (allowed row) eqn:Ha; cbn.
  - destruct (pass1_row t row); [apply IH|done].
  - unfold RxNorm.pass1_row. unfold allowed in Ha. rewrite Ha. cbn. apply IH.
Qed.

(** X3.  Rows whose source vocabulary is not in [RXNORM_XREFS] play no
    part: the transform gives the same result, or raises alike, when
    they are removed from the input. *)
Theorem transform_ignores_other_vocabularies rows :
  _transform_data rows = _transform_data (List.filter allowed rows).
Proof. unfold RxNorm._transform_data. by rewrite pass1_allowed_only. Qed.

(** *** What pass 1 keeps true of every record *)

Lemma add_str_field_fields params row pin sbdfs field :
  field ≠ "aliases" → field ≠ "trade_names" →
  fields (_add_str_field params row pin drug_forms sbdfs).1.1 !! field
  = fields params !! field.
Proof.
  intros Ha Ht. unfold RxNorm._add_str_field.
  repeat (match goal with |- context [if ?b then _ else _] => destruct b end);
    try destruct (first_drug_form _ _); cbn;
    rewrite ?add_term_to_field_other; done.
Qed.

Lemma add_str_field_label params row pin sbdfs :
  label (_add_str_field params row pin drug_forms sbdfs).1.1 =
  if (bool_decide (row12 row = "IN") || bool_decide (row12 row = "PIN"))
     && bool_decide (row11 row = "RXNORM")
  then Some (row14 row) else label params.
Proof.
  unfold RxNorm._add_str_field.
  repeat (match goal with |- context [if ?b then _ else _] => destruct b end);
    try destruct (first_drug_form _ _); done.
Qed.

Lemma add_xref_assoc_xrefs params row params' :
  _add_xref_assoc params row = Some params' →
  label params' = label params ∧
  (fields params' !! "xrefs" = fields params !! "xrefs" ∨
   ∃ source_id, source_id ≠ concept_id params ∧
     fields params' !! "xrefs"
     = _add_term_to_field (fields params) "xrefs" source_id !! "xrefs").
Proof.
  unfold RxNorm._add_xref_assoc.
  destruct (truthy (row11 row) && _); [|intros [= <-]; by split; [|left]].
  destruct (mem _ XS).
  - destruct (NP _) as [prefix|]; [|done]. cbn.
    case_bool_decide as Hself; intros [= <-]; (split; [done|]); [by left|].
    right. by eexists.
  - destruct (mem _ AS); [|intros [= <-]; by split; [|left]].
    destruct (NP _) as [prefix|]; [|done]. cbn. intros [= <-]. split; [done|].
    left. cbn. by apply add_term_to_field_other.
Qed.

Lemma pass1_records_invariant (I : Therapy → Prop) (all : list Row) :
  (∀ row r r' pin sbdfs prefix,
     row ∈ all → allowed row = true → is_sbdc row = false →
     NP "RXNORM" = Some prefix → concept_id r = prefix ++ ":" ++ row0 row →
     I r ∨ r = new_record (prefix ++ ":" ++ row0 row) →
     _add_xref_assoc (_add_str_field r row pin drug_forms sbdfs).1.1 row = Some r' →
     I r') →
  ∀ rows t t',
    (∀ row, row ∈ rows → row ∈ all) →
    Spec.records_wf (records t) →
    (∀ cid r, (cid, r) ∈ records t → I r) →
    pass1 t rows = Some t' →
    ∀ cid r, (cid, r) ∈ records t' → I r.
Proof.
  intros Hstep rows. induction rows as [|row rows IH]; intros t t' Hsub Hwf HI; cbn.
  - by intros [= <-].
  - destruct (pass1_row t row) as [t1|] eqn:H1; [|done]. cbn.
    apply IH.
    + intros r Hr. by apply Hsub, list_elem_of_further.
    + by eapply RxNormFacts.pass1_row_wf.
    + clear IH. unfold RxNorm.pass1_row in H1.
      destruct (mem (row11 row) RXNORM_XREFS) eqn:Ha; [|by injection H1 as <-].
      destruct (NP "RXNORM") as [prefix|] eqn:Hp; [|done]. cbn in H1.
      destruct (bool_decide (row12 row = "SBDC") && bool_decide (row11 row = "RXNORM"))
        eqn:Hs; [by injection H1 as <-|].
      set (cid := prefix ++ ":" ++ row0 row) in *.
      set (old := match records_get cid (records t) with
                  | Some r => r | None => new_record cid end) in *.
      pose proof (Hstep row old) as Hstep'.
      destruct (RxNorm._add_str_field presc old row (precise_ingredient_to_brand t)
                  drug_forms (ingredient_to_sbdf t)) as [[record pin] sbdf] eqn:Hs1.
      destruct (_add_xref_assoc record row) as [record'|] eqn:Hx; [|done].
      cbn in H1. injection H1 as <-. cbn.
      intros k r [[= -> ->]|Hin]%RxNormFacts.records_set_elem; [|by eapply HI].
      eapply (Hstep' _ (precise_ingredient_to_brand t) (ingredient_to_sbdf t) prefix);
        [apply Hsub, list_elem_of_here|done|done|done| | |by rewrite Hs1].
      * subst old. destruct (records_get cid (records t)) as [r0|] eqn:Hr0; [|done].
        destruct Hwf as [_ Hids]. by apply Hids, RxNormFacts.records_get_Some.
      * subst old. destruct (records_get cid (records t)) as [r0|] eqn:Hr0; [|by right].
        left. eapply HI. by apply RxNormFacts.records_get_Some.
Qed.

(** *** Pass 2 only extends the trade names *)

Lemma trade_names_grew_refl r : trade_names_grew r r.
Proof. repeat split; try done. intros old ->. by exists old. Qed.

Lemma trade_names_grew_trans r1 r2 r3 :
  trade_names_grew r1 r2 → trade_names_grew r2 r3 → trade_names_grew r1 r3.
Proof.
  intros (Hc1 & Hl1 & Ha1 & Hp1 & Hf1 & Ht1) (Hc2 & Hl2 & Ha2 & Hp2 & Hf2 & Ht2).
  repeat split; try congruence.
  - intros field Hf. by rewrite Hf2, Hf1.
  - intros old (mid & Hmid & Hpre)%Ht1. destruct (Ht2 _ Hmid) as (new & Hnew & Hpre').
    exists new. split; [done|]. by etrans.
Qed.

Lemma add_trade_name_grew r tn : trade_names_grew r (add_term r "trade_names" tn).
Proof.
  repeat split; try done; cbn.
  - intros field Hf. by apply add_term_to_field_other.
  - intros old Hold. rewrite add_term_to_field_lookup, Hold.
    destruct old as [|x xs]; [eexists; split; [done|apply prefix_nil]|].
    destruct (mem tn (x :: xs)); eexists; (split; [done|]); [done|by apply prefix_app_r].
Qed.

Lemma add_trade_names_grew tns : ∀ r,
  trade_names_grew r (foldl (λ r tn, add_term r "trade_names" tn) r tns).
Proof.
  induction tns as [|tn tns IH]; intros r; [apply trade_names_grew_refl|].
  cbn. eapply trade_names_grew_trans; [apply add_trade_name_grew|apply IH].
Qed.

Lemma add_brands_grew brands ls : ∀ r,
  trade_names_grew r
    (foldl (λ r label, foldl (λ r tn, add_term r "trade_names" tn) r
                             (brands_of_label brands label)) r ls).
Proof.
  induction ls as [|x ls IH]; intros r; [apply trade_names_grew_refl|].
  cbn. eapply trade_names_grew_trans; [apply add_trade_names_grew|apply IH].
Qed.

Lemma get_trade_names_grew record pin brands sbdfs record' :
  _get_trade_names record pin brands sbdfs = Some record' →
  trade_names_grew record record'.
Proof.
  unfold _get_trade_names. destruct (label record) as [l|]; [|done].
  cbn [mbind option_bind].
  match goal with |- context [foldl ?f record (?x :: ?ls)] =>
    pose proof (add_brands_grew brands (x :: ls) record) as Hg;
    set (record1 := foldl f record (x :: ls)) in *
  end.
  destruct (sbdfs !! lower l) as [tns|]; intros [= <-]; [|done].
  eapply trade_names_grew_trans; [exact Hg|apply add_trade_names_grew].
Qed.

(** X4.  [_get_trade_names] touches nothing but "trade_names": the
    concept id, the label, the approval ratings, the PIN and every other
    list of the record are as before, and the trade names the record
    already had stay at the front of the list, in order. *)
Theorem get_trade_names_only_extends record pin brands sbdfs record' :
  _get_trade_names record pin brands sbdfs = Some record' →
  concept_id record' = concept_id record ∧ label record' = label record ∧
  approval_ratings record' = approval_ratings record ∧ PIN record' = PIN record ∧
  (∀ field, field ≠ "trade_names" → fields record' !! field = fields record !! field) ∧
  (∀ old, fields record !! "trade_names" = Some old →
     ∃ new, fields record' !! "trade_names" = Some new ∧ old `prefix_of` new).
Proof. apply get_trade_names_grew. Qed.

Lemma pass2_loaded t rs ops r' :
  pass2 src t rs = Some ops → LoadTherapy r' ∈ ops →
  ∃ cid r, (cid, r) ∈ rs ∧ is_Some (label r) ∧ PIN r' = None ∧
    concept_id r' = concept_id r ∧ label r' = label r ∧
    approval_ratings r' = approval_ratings r ∧
    ∀ field, field ≠ "trade_names" → fields r' !! field = fields r !! field.
Proof.
  revert ops. induction rs as [|[cid r] rs IH]; intros ops; cbn.
  - by intros [= <-] ?%elem_of_nil.
  - destruct (pass2_record src t r) as [ops1|] eqn:H1; [|done]. cbn.
    destruct (pass2 src t rs) as [ops2|]; [|done]. cbn.
    intros [= <-] [Hop|Hop]%elem_of_app.
    + exists cid, r. split; [apply list_elem_of_here|].
      unfold pass2_record in H1. destruct (label r) as [l|] eqn:Hl;
        [|injection H1 as <-; by apply elem_of_nil in Hop].
      destruct (_get_trade_names r _ _ _) as [r1|] eqn:Hg; [|done].
      apply get_trade_names_grew in Hg as (Hc & Hlab & Hap & _ & Hf & _).
      cbn in H1. injection H1 as <-.
      apply elem_of_app in Hop as [Hop|Hop].
      * by apply list_elem_of_fmap in Hop as (? & [=] & _).
      * apply list_elem_of_singleton in Hop. injection Hop as ->. cbn.
        split; [done|]. split; [done|]. split; [done|]. split; [congruence|].
        split; [done|done].
    + destruct (IH _ eq_refl Hop) as (cid' & r0 & Hin & ?).
      exists cid', r0. split; [by apply list_elem_of_further|done].
Qed.

(** *** Brand associations *)

Lemma pass2_put t rs ops i :
  pass2 src t rs = Some ops → PutItem i ∈ ops →
  ∃ r', LoadTherapy r' ∈ ops ∧
        i ∈ _load_brand_concepts src r' (brand_to_concept_id t).
Proof.
  revert ops. induction rs as [|[cid r] rs IH]; intros ops; cbn.
  - by intros [= <-] ?%elem_of_nil.
  - destruct (pass2_record src t r) as [ops1|] eqn:H1; [|done]. cbn.
    destruct (pass2 src t rs) as [ops2|]; [|done]. cbn.
    intros [= <-] [Hop|Hop]%elem_of_app.
    + unfold pass2_record in H1. destruct (label r) as [l|];
        [|injection H1 as <-; by apply elem_of_nil in Hop].
      destruct (_get_trade_names r _ _ _) as [r1|]; [|done].
      cbn in H1. injection H1 as <-.
      exists (set_PIN None r1). split.
      * apply elem_of_app. left. apply elem_of_app. right. apply list_elem_of_here.
      * apply elem_of_app in Hop as [Hop|Hop].
        -- by apply list_elem_of_fmap in Hop as (i' & [= <-] & Hi').
        -- by apply list_elem_of_singleton in Hop.
    + destruct (IH _ eq_refl Hop) as (r' & Hr' & Hi).
      exists r'. split; [|done]. apply elem_of_app. by right.
Qed.

Lemma pass1_brand_table rows : ∀ t t',
  pass1 t rows = Some t' →
  ∀ tn b, brand_to_concept_id t' !! tn = Some b →
    brand_to_concept_id t !! tn = Some b ∨
    ∃ row prefix, row ∈ rows ∧ NP "RXNORM" = Some prefix ∧
      row12 row = "BN" ∧ row11 row = "RXNORM" ∧ row14 row = tn ∧
      b = prefix ++ ":" ++ row0 row.
Proof.
  induction rows as [|row rows IH]; intros t t'; cbn.
  - intros [= <-] tn b ?. by left.
  - destruct (pass1_row t row) as [t1|] eqn:H1; [|done]. cbn.
    intros Hrest tn b Hb.
    destruct (IH _ _ Hrest tn b Hb) as [Hb1|(r & prefix & Hr & ?)].
    2:{ right. exists r, prefix. split; [by apply list_elem_of_further|done]. }
    assert (Hstep : brand_to_concept_id t !! tn = Some b ∨
              ∃ prefix, NP "RXNORM" = Some prefix ∧
                row12 row = "BN" ∧ row11 row = "RXNORM" ∧ row14 row = tn ∧
                b = prefix ++ ":" ++ row0 row).
    { unfold RxNorm.pass1_row in H1.
      destruct (mem (row11 row) RXNORM_XREFS); [|injection H1 as <-; by left].
      destruct (NP "RXNORM") as [prefix|]; [|done]. cbn in H1.
      assert (Hbrands :
        (if bool_decide (row12 row = "BN") && bool_decide (row11 row = "RXNORM")
         then <[row14 row := prefix ++ ":" ++ row0 row]> (brand_to_concept_id t)
         else brand_to_concept_id t) !! tn = Some b →
        brand_to_concept_id t !! tn = Some b ∨
        ∃ prefix0, Some prefix = Some prefix0 ∧
          row12 row = "BN" ∧ row11 row = "RXNORM" ∧ row14 row = tn ∧
          b = prefix0 ++ ":" ++ row0 row).
      { destruct (bool_decide (row12 row = "BN") && bool_decide (row11 row = "RXNORM"))
          eqn:Hbn; [|by left].
        apply andb_true_iff in Hbn as [H12%bool_decide_eq_true H11%bool_decide_eq_true].
        intros [[<- <-]|[_ ?]]%lookup_insert_Some; [|by left].
        right. by exists prefix. }
      destruct (bool_decide (row12 row = "SBDC") && bool_decide (row11 row = "RXNORM")).
      - injection H1 as <-. by apply Hbrands.
      - destruct (RxNorm._add_str_field presc _ row _ drug_forms _) as [[record pin] sbdf].
        destruct (_add_xref_assoc record row) as [record'|]; [|done]. cbn in H1.
        injection H1 as <-. by apply Hbrands. }
    destruct Hstep as [?|(prefix & ?)]; [by left|].
    right. exists row, prefix. split; [apply list_elem_of_here|done].
Qed.

(** X5.  Every brand association the transform puts belongs to a
    record that it loads: the item carries that record's concept id,
    and its key is the concept id of a row with term type BN of the
    RXNORM vocabulary whose name is among the record's trade names,
    followed by ##rx_brand. *)
Theorem brand_items_link_brand_rows_to_loaded_records rows ops i :
  _transform_data rows = Some ops → PutItem i ∈ ops →
  src_name i = src ∧ item_type i = "rx_brand" ∧
  ∃ r tns row prefix,
    LoadTherapy r ∈ ops ∧ item_concept_id i = concept_id r ∧
    fields r !! "trade_names" = Some tns ∧ row14 row ∈ tns ∧
    row ∈ rows ∧ row12 row = "BN" ∧ row11 row = "RXNORM" ∧
    NP "RXNORM" = Some prefix ∧
    label_and_type i = (prefix ++ ":" ++ row0 row) ++ "##rx_brand".
Proof.
  unfold RxNorm._transform_data.
  destruct (pass1 empty_tables rows) as [t|] eqn:Hp; [|done]. cbn.
  intros Hops Hi.
  destruct (pass2_put _ _ _ _ Hops Hi) as (r & Hr & Hin).
  apply RxNormFacts.load_brand_concepts_elem in Hin
    as (tns & tn & b & Htns & Htn & Hb & _ & ->). cbn.
  split; [done|]. split; [done|].
  destruct (pass1_brand_table rows _ _ Hp tn b Hb)
    as [Hempty|(row & prefix & Hrow & Hnp & H12 & H11 & <- & ->)].
  { cbn [brand_to_concept_id empty_tables] in Hempty.
    by rewrite lookup_empty in Hempty. }
  by exists r, tns, row, prefix.
Qed.

(** *** No record lists itself *)

Lemma pass1_no_self_xref rows t :
  pass1 empty_tables rows = Some t →
  ∀ cid r, (cid, r) ∈ records t → no_self_xref r.
Proof.
  intros Hp. eapply (pass1_records_invariant no_self_xref rows); [| | | |exact Hp].
  - intros row r r' pin sbdfs prefix _ _ _ _ Hcid HI Hx.
    pose proof (add_str_field_fields r row pin sbdfs "xrefs") as Hf.
    pose proof (RxNormFacts.add_str_field_concept_id presc drug_forms r row pin sbdfs) as Hc.
    pose proof (RxNormFacts.add_xref_assoc_concept_id _ _ _ _ _ _ Hx) as Hc'.
    apply add_xref_assoc_xrefs in Hx as [_ Hx].
    assert (Hold : no_self_xref r).
    { destruct HI as [?| ->]; [done|]. intros l. cbn. by rewrite lookup_empty. }
    intros l Hl. unfold no_self_xref in Hold.
    rewrite Hc', Hc. destruct Hx as [Hx|(sid & Hsid & Hx)]; rewrite Hx in Hl.
    + rewrite Hf in Hl by done. by apply Hold.
    + rewrite add_term_to_field_lookup, Hf in Hl by done.
      rewrite Hc in Hsid.
      destruct (fields r !! "xrefs") as [[|x xs]|] eqn:Hr.
      * injection Hl as <-. intros ?%list_elem_of_singleton. congruence.
      * destruct (mem sid (x :: xs)); injection Hl as <-; [by apply Hold|].
        change (x :: xs ++ [sid])%list with ((x :: xs) ++ [sid])%list.
        intros [?|?%list_elem_of_singleton]%elem_of_app; [by eapply Hold|congruence].
      * injection Hl as <-. intros ?%list_elem_of_singleton. congruence.
  - done.
  - split; [apply NoDup_nil_2|]. by intros ? ? ?%elem_of_nil.
  - by intros ? ? ?%elem_of_nil.
Qed.

(** X6.  No record that the transform hands to the loader has its own
    concept id among its "xrefs". *)
Theorem loaded_records_have_no_self_xref rows ops r :
  _transform_data rows = Some ops → LoadTherapy r ∈ ops →
  ∀ l, fields r !! "xrefs" = Some l → concept_id r ∉ l.
Proof.
  unfold RxNorm._transform_data.
  destruct (pass1 empty_tables rows) as [t|] eqn:Hp; [|done]. cbn.
  intros Hops Hr.
  destruct (pass2_loaded _ _ _ _ Hops Hr) as (cid & r0 & Hin & _ & _ & Hc & _ & _ & Hf).
  intros l. rewrite Hf, Hc by done. by apply (pass1_no_self_xref rows t Hp cid r0).
Qed.

(** *** Where a label comes from *)

Lemma pass1_label_source rows t :
  pass1 empty_tables rows = Some t →
  ∀ cid r, (cid, r) ∈ records t →
  ∀ l, label r = Some l →
    ∃ row prefix, row ∈ rows ∧ NP "RXNORM" = Some prefix ∧
      row11 row = "RXNORM" ∧ (row12 row = "IN" ∨ row12 row = "PIN") ∧
      row14 row = l ∧ concept_id r = prefix ++ ":" ++ row0 row.
Proof.
  intros Hp.
  eapply (pass1_records_invariant
            (λ r, ∀ l, label r = Some l →
               ∃ row prefix, row ∈ rows ∧ NP "RXNORM" = Some prefix ∧
                 row11 row = "RXNORM" ∧ (row12 row = "IN" ∨ row12 row = "PIN") ∧
                 row14 row = l ∧ concept_id r = prefix ++ ":" ++ row0 row) rows);
    [| | | |exact Hp].
  - intros row r r' pin sbdfs prefix Hrow _ _ Hprefix Hcid HI Hx.
    pose proof (add_str_field_label r row pin sbdfs) as Hl.
    pose proof (RxNormFacts.add_str_field_concept_id presc drug_forms r row pin sbdfs) as Hc.
    pose proof (RxNormFacts.add_xref_assoc_concept_id _ _ _ _ _ _ Hx) as Hc'.
    apply add_xref_assoc_xrefs in Hx as [Hl' _].
    intros l. rewrite Hl', Hl, Hc', Hc.
    destruct ((bool_decide (row12 row = "IN") || bool_decide (row12 row = "PIN"))
              && bool_decide (row11 row = "RXNORM")) eqn:Hin.
    + intros [= <-]. exists row, prefix.
      apply andb_true_iff in Hin as [Htty H11%bool_decide_eq_true].
      apply orb_true_iff in Htty as [?%bool_decide_eq_true|?%bool_decide_eq_true];
        repeat split; auto.
    + destruct HI as [HI| ->]; [apply HI|done].
  - done.
  - split; [apply NoDup_nil_2|]. by intros ? ? ?%elem_of_nil.
  - by intros ? ? ?%elem_of_nil.
Qed.

(** X7.  The label of every record the transform hands to the loader is
    the term string of a row of the input with term type IN or PIN of the
    RXNORM vocabulary and with the record's own concept id. *)
Theorem loaded_label_comes_from_ingredient_row rows ops r l :
  _transform_data rows = Some ops → LoadTherapy r ∈ ops → label r = Some l →
  ∃ row prefix, row ∈ rows ∧ NP "RXNORM" = Some prefix ∧
    row11 row = "RXNORM" ∧ (row12 row = "IN" ∨ row12 row = "PIN") ∧
    row14 row = l ∧ concept_id r = prefix ++ ":" ++ row0 row.
Proof.
  unfold RxNorm._transform_data.
  destruct (pass1 empty_tables rows) as [t|] eqn:Hp; [|done]. cbn.
  intros Hops Hr.
  destruct (pass2_loaded _ _ _ _ Hops Hr) as (cid & r0 & Hin & _ & _ & Hc & Hl & _ & _).
  rewrite Hl, Hc. by apply (pass1_label_source rows t Hp cid r0).
Qed.

(** *** Where an approval rating comes from *)

Lemma add_str_field_approval_ratings params row pin sbdfs :
  approval_ratings (_add_str_field params row pin drug_forms sbdfs).1.1 =
  if (bool_decide (row12 row = "IN") || bool_decide (row12 row = "PIN"))
     && bool_decide (row11 row = "RXNORM") && bool_decide (row17 row = "4096")
  then Some [presc] else approval_ratings params.
Proof.
  unfold RxNorm._add_str_field.
  destruct ((bool_decide (row12 row = "IN") || bool_decide (row12 row = "PIN"))
            && bool_decide (row11 row = "RXNORM")); cbn [andb];
    destruct (bool_decide (row17 row = "4096"));
    repeat (match goal with |- context [if ?b then _ else _] => destruct b end);
    try destruct (first_drug_form _ _); done.
Qed.

Lemma add_xref_assoc_approval_ratings params row params' :
  _add_xref_assoc params row = Some params' →
  approval_ratings params' = approval_ratings params.
Proof.
  unfold RxNorm._add_xref_assoc.
  destruct (truthy (row11 row) && _); [|by intros [= <-]].
  destruct (mem _ XS).
  - destruct (NP _) as [prefix|]; [|done]. cbn.
    by case_bool_decide; intros [= <-].
  - destruct (mem _ AS); [|by intros [= <-]].
    destruct (NP _) as [prefix|]; [|done]. cbn. by intros [= <-].
Qed.

Lemma pass1_approval_source rows t :
  pass1 empty_tables rows = Some t →
  ∀ cid r, (cid, r) ∈ records t →
  ∀ l, approval_ratings r = Some l →
    l = [presc] ∧
    ∃ row prefix, row ∈ rows ∧ NP "RXNORM" = Some prefix ∧
      row11 row = "RXNORM" ∧ (row12 row = "IN" ∨ row12 row = "PIN") ∧
      row17 row = "4096" ∧ concept_id r = prefix ++ ":" ++ row0 row.
Proof.
  intros Hp.
  eapply (pass1_records_invariant
            (λ r, ∀ l, approval_ratings r = Some l →
               l = [presc] ∧
               ∃ row prefix, row ∈ rows ∧ NP "RXNORM" = Some prefix ∧
                 row11 row = "RXNORM" ∧ (row12 row = "IN" ∨ row12 row = "PIN") ∧
                 row17 row = "4096" ∧ concept_id r = prefix ++ ":" ++ row0 row) rows);
    [| | | |exact Hp].
  - intros row r r' pin sbdfs prefix Hrow _ _ Hprefix Hcid HI Hx.
    pose proof (add_str_field_approval_ratings r row pin sbdfs) as Hl.
    pose proof (RxNormFacts.add_str_field_concept_id presc drug_forms r row pin sbdfs) as Hc.
    pose proof (RxNormFacts.add_xref_assoc_concept_id _ _ _ _ _ _ Hx) as Hc'.
    apply add_xref_assoc_approval_ratings in Hx as Hl'.
    intros l. rewrite Hl', Hl, Hc', Hc.
    destruct ((bool_decide (row12 row = "IN") || bool_decide (row12 row = "PIN"))
              && bool_decide (row11 row = "RXNORM") && bool_decide (row17 row = "4096"))
      eqn:Hin.
    + intros [= <-]. split; [done|]. exists row, prefix.
      apply andb_true_iff in Hin as [Hin H17%bool_decide_eq_true].
      apply andb_true_iff in Hin as [Htty H11%bool_decide_eq_true].
      apply orb_true_iff in Htty as [?%bool_decide_eq_true|?%bool_decide_eq_true];
        repeat split; auto.
    + destruct HI as [HI| ->]; [apply HI|done].
  - done.
  - split; [apply NoDup_nil_2|]. by intros ? ? ?%elem_of_nil.
  - by intros ? ? ?%elem_of_nil.
Qed.

(** X8.  A record the transform hands to the loader carries approval
    ratings only if a row of the input with term type IN or PIN of the
    RXNORM vocabulary, with the record's concept id, has the
    prescribable flag 4096 in column 17; the ratings are then the single
    prescribable value. *)
Theorem loaded_approval_rating_comes_from_prescribable_row rows ops r l :
  _transform_data rows = Some ops → LoadTherapy r ∈ ops →
  approval_ratings r = Some l →
  l = [presc] ∧
  ∃ row prefix, row ∈ rows ∧ NP "RXNORM" = Some prefix ∧
    row11 row = "RXNORM" ∧ (row12 row = "IN" ∨ row12 row = "PIN") ∧
    row17 row = "4096" ∧ concept_id r = prefix ++ ":" ++ row0 row.
Proof.
  unfold RxNorm._transform_data.
  destruct (pass1 empty_tables rows) as [t|] eqn:Hp; [|done]. cbn.
  intros Hops Hr.
  destruct (pass2_loaded _ _ _ _ Hops Hr) as (cid & r0 & Hin & _ & _ & Hc & _ & Ha & _).
  rewrite Ha, Hc. by apply (pass1_approval_source rows t Hp cid r0).
Qed.

(** *** SBDC rows *)

Lemma pass1_without_sbdc rows : ∀ t1 t2 t1',
  records t2 = records t1 →
  precise_ingredient_to_brand t2 = precise_ingredient_to_brand t1 →
  ingredient_to_sbdf t2 = ingredient_to_sbdf t1 →
  brand_to_concept_id t2 = brand_to_concept_id t1 →
  pass1 t1 rows = Some t1' →
  ∃ t2', pass1 t2 (List.filter (λ row, negb (is_sbdc row)) rows) = Some t2' ∧
    records t2' = records t1' ∧
    precise_ingredient_to_brand t2' = precise_ingredient_to_brand t1' ∧
    ingredient_to_sbdf t2' = ingredient_to_sbdf t1' ∧
    brand_to_concept_id t2' = brand_to_concept_id t1' ∧
    ingredient_to_brands t2' = ingredient_to_brands t2.
Proof.
  induction rows as [|row rows IH]; intros t1 t2 t1' Hr Hp Hs Hb; cbn.
  - intros [= <-]. by exists t2.
  - destruct (pass1_row t1 row) as [t1a|] eqn:H1; [|done]. cbn. intros Hrest.
    unfold RxNorm.pass1_row in H1. unfold is_sbdc.
    destruct (mem (row11 row) RXNORM_XREFS) eqn:Ha.
    2:{ injection H1 as <-.
        destruct (bool_decide (row12 row = "SBDC") && bool_decide (row11 row = "RXNORM"))
          eqn:Hsb; cbn.
        - by apply (IH t1 t2 t1').
        - unfold RxNorm.pass1_row. rewrite Ha. cbn. by apply (IH t1 t2 t1'). }
    destruct (NP "RXNORM") as [prefix|] eqn:Hnp; [|done]. cbn in H1.
    destruct (bool_decide (row12 row = "SBDC") && bool_decide (row11 row = "RXNORM"))
      eqn:Hsb; cbn.
    + apply andb_true_iff in Hsb as [H12%bool_decide_eq_true _].
      rewrite (bool_decide_eq_false_2 (row12 row = "BN")) in H1
        by (rewrite H12; discriminate).
      cbn [andb] in H1. injection H1 as <-.
      pose proof (λ a b c d, IH _ t2 t1' a b c d Hrest) as IH'.
      destruct (IH' Hr Hp Hs Hb) as (t2' & ?). by exists t2'.
    + unfold RxNorm.pass1_row. rewrite Ha, Hnp. cbn. rewrite Hsb, Hr, Hp, Hs, Hb.
      destruct (RxNorm._add_str_field presc _ row _ drug_forms _) as [[record pin] sbdf].
      destruct (_add_xref_assoc record row) as [record'|]; [|done]. cbn.
      injection H1 as <-. cbn.
      pose proof (λ a b c d, IH _ {| records := records_set (prefix ++ ":" ++ row0 row) record' (records t1);
                         ingredient_to_brands := ingredient_to_brands t2;
                         precise_ingredient_to_brand := pin;
                         ingredient_to_sbdf := sbdf;
                         brand_to_concept_id :=
                           if bool_decide (row12 row = "BN") && bool_decide (row11 row = "RXNORM")
                           then <[row14 row := prefix ++ ":" ++ row0 row]> (brand_to_concept_id t1)
                           else brand_to_concept_id t1 |} t1'
                  a b c d Hrest) as IH'.
      destruct (IH' eq_refl eq_refl eq_refl eq_refl) as (t2' & ?).
      by exists t2'.
Qed.

(** X9.  SBDC rows of the RXNORM vocabulary feed the ingredient/brand
    table and nothing else: when pass 1 returns, pass 1 over the input
    without these rows returns too, with the same records, the same
    brand table and the same two synonym tables; and without them the
    ingredient/brand table stays empty. *)
Theorem sbdc_rows_touch_no_record rows t :
  pass1 empty_tables rows = Some t →
  ∃ t', pass1 empty_tables (List.filter (λ row, negb (is_sbdc row)) rows) = Some t' ∧
    records t' = records t ∧
    precise_ingredient_to_brand t' = precise_ingredient_to_brand t ∧
    ingredient_to_sbdf t' = ingredient_to_sbdf t ∧
    brand_to_concept_id t' = brand_to_concept_id t ∧
    ingredient_to_brands t' = ∅.
Proof. intros Hp. by apply (pass1_without_sbdc rows empty_tables empty_tables t). Qed.

End Transform.

(** *** Strength stripping and the bracketed brand *)



Lemma split_free c s : char_free c s = true → split c s = [s].
Proof.
  induction s as [|a s IH]; [done|]. cbn [split char_free].
  intros [Ha%negb_true_iff Hs]%andb_true_iff. rewrite Ha, (IH Hs). done.
Qed.

Lemma append_cons a (x y : string) : String a x ++ y = String a (x ++ y).
Proof. reflexivity. Qed.

Lemma append_empty (y : string) : "" ++ y = y.
Proof. reflexivity. Qed.

Lemma split_at_sep c x y :
  ∃ l, l ≠ [] ∧ split c (x ++ String c y) = (l ++ split c y)%list.
Proof.
  induction x as [|a x (l & Hl & IH)].
  - exists [""]. split; [done|]. rewrite append_empty. cbn [split].
    by rewrite Ascii.eqb_refl.
  - rewrite append_cons. cbn [split]. rewrite IH. destruct (Ascii.eqb a c).
    + exists ("" :: l). by split.
    + destruct l as [|f fs]; [done|]. cbn. exists (String a f :: fs). by split.
Qed.

Lemma last_app_nonempty (l1 l2 : list string) d :
  l2 ≠ [] → List.last (l1 ++ l2) d = List.last l2 d.
Proof.
  intros Hl2. induction l1 as [|x l1 IH]; [done|]. cbn.
  destruct (l1 ++ l2)%list eqn:Happ; [|done].
  by apply app_eq_nil in Happ as [_ ->].
Qed.

Lemma first_field_before_sep c b post :
  char_free c b = true → first_field (split c (b ++ String c post)) = b.
Proof.
  induction b as [|a b IH].
  - intros _. rewrite append_empty. cbn [split]. by rewrite Ascii.eqb_refl.
  - rewrite append_cons. cbn [split char_free].
    intros [Ha%negb_true_iff Hb]%andb_true_iff. rewrite Ha.
    specialize (IH Hb). destruct (split c (b ++ String c post)) as [|f fs]; cbn in *;
      by subst.
Qed.

Lemma char_free_app c x y :
  char_free c (x ++ y) = char_free c x && char_free c y.
Proof.
  induction x as [|a x IH]; [done|]. rewrite append_cons. cbn [char_free].
  by rewrite IH, andb_assoc.
Qed.

(** X10.  The brand of a term is the text of its last bracket group:
    the text between the last "[" and the "]" that follows it, whatever
    stands before the group and whatever bracket-free text follows it;
    and a term without brackets is its own brand. *)
Theorem bracket_brand_is_last_group pre b post :
  char_free "[" b = true → char_free "]" b = true → char_free "[" post = true →
  bracket_brand (pre ++ "[" ++ b ++ "]" ++ post) = b ∧ bracket_brand b = b.
Proof.
  intros Hb1 Hb2 Hpost. split.
  - unfold bracket_brand, last_field.
    rewrite !append_cons, !append_empty.
    destruct (split_at_sep "[" pre (b ++ String "]" post)) as (l & Hl & ->).
    assert (Hfree : char_free "[" (b ++ String "]" post) = true).
    { rewrite char_free_app, Hb1. cbn [char_free]. by rewrite Hpost. }
    rewrite (split_free _ _ Hfree), last_app_nonempty by done. cbn [List.last].
    by apply first_field_before_sep.
  - unfold bracket_brand, last_field.
    rewrite (split_free _ _ Hb1). cbn [List.last]. by rewrite (split_free _ _ Hb2).
Qed.


(** *** Concrete runs *)

Lemma get_trade_names_only_extends_witness :
  ∃ record',
    _get_trade_names ecotrin_record ∅ (<["Aspirin" := ["Bufferin"]]> ∅)
                     (<["aspirin" := ["Bayer"]]> ∅) = Some record' ∧
    concept_id record' = "rxcui:1" ∧ label record' = Some "Aspirin" ∧
    approval_ratings record' = None ∧ PIN record' = None ∧
    (∀ field, field ≠ "trade_names" →
       fields record' !! field = fields ecotrin_record !! field) ∧
    (∀ old, fields ecotrin_record !! "trade_names" = Some old →
       ∃ new, fields record' !! "trade_names" = Some new ∧ old `prefix_of` new).
Proof.
  eexists. split; [vm_compute; reflexivity|].
  apply (get_trade_names_only_extends ecotrin_record ∅ (<["Aspirin" := ["Bufferin"]]> ∅)
           (<["aspirin" := ["Bayer"]]> ∅)).
  vm_compute. reflexivity.
Defined.

Lemma loaded_records_have_no_self_xref_witness :
  ∃ l, fields prescribable_record !! "xrefs" = Some l ∧
       concept_id prescribable_record ∉ l.
Proof.
  eexists. split; [vm_compute; reflexivity|].
  eapply (loaded_records_have_no_self_xref demo_XREF_SOURCES demo_ASSOC_WITH_SOURCES
            demo_NamespacePrefix "RxNorm" "rxnorm_prescribable" [] prescribable_rows).
  - vm_compute. reflexivity.
  - apply list_elem_of_here.
  - vm_compute. reflexivity.
Defined.

Lemma loaded_label_comes_from_ingredient_row_witness :
  ∃ row prefix, row ∈ prescribable_rows ∧ demo_NamespacePrefix "RXNORM" = Some prefix ∧
    row11 row = "RXNORM" ∧ (row12 row = "IN" ∨ row12 row = "PIN") ∧
    row14 row = "Aspirin" ∧ concept_id prescribable_record = prefix ++ ":" ++ row0 row.
Proof.
  eapply (loaded_label_comes_from_ingredient_row demo_XREF_SOURCES
            demo_ASSOC_WITH_SOURCES demo_NamespacePrefix "RxNorm"
            "rxnorm_prescribable" [] prescribable_rows _ prescribable_record).
  - vm_compute. reflexivity.
  - apply list_elem_of_here.
  - vm_compute. reflexivity.
Defined.

Lemma loaded_approval_rating_comes_from_prescribable_row_witness :
  ["rxnorm_prescribable"] = ["rxnorm_prescribable"] ∧
  ∃ row prefix, row ∈ prescribable_rows ∧ demo_NamespacePrefix "RXNORM" = Some prefix ∧
    row11 row = "RXNORM" ∧ (row12 row = "IN" ∨ row12 row = "PIN") ∧
    row17 row = "4096" ∧ concept_id prescribable_record = prefix ++ ":" ++ row0 row.
Proof.
  eapply (loaded_approval_rating_comes_from_prescribable_row demo_XREF_SOURCES
            demo_ASSOC_WITH_SOURCES demo_NamespacePrefix "RxNorm"
            "rxnorm_prescribable" [] prescribable_rows _ prescribable_record).
  - vm_compute. reflexivity.
  - apply list_elem_of_here.
  - vm_compute. reflexivity.
Defined.

Lemma brand_items_link_brand_rows_to_loaded_records_witness :
  src_name linked_item = "RxNorm" ∧ item_type linked_item = "rx_brand" ∧
  ∃ r tns row prefix,
    LoadTherapy r ∈ linked_ops ∧ item_concept_id linked_item = concept_id r ∧
    fields r !! "trade_names" = Some tns ∧ row14 row ∈ tns ∧
    row ∈ linked_rows ∧ row12 row = "BN" ∧ row11 row = "RXNORM" ∧
    demo_NamespacePrefix "RXNORM" = Some prefix ∧
    label_and_type linked_item = (prefix ++ ":" ++ row0 row) ++ "##rx_brand".
Proof.
  apply (brand_items_link_brand_rows_to_loaded_records demo_XREF_SOURCES
           demo_ASSOC_WITH_SOURCES demo_NamespacePrefix "RxNorm"
           "rxnorm_prescribable" [] linked_rows linked_ops linked_item).
  - vm_compute. reflexivity.
  - vm_compute. apply list_elem_of_here.
Defined.

Lemma sbdc_rows_touch_no_record_witness :
  ∃ t',
    RxNorm.pass1 demo_XREF_SOURCES demo_ASSOC_WITH_SOURCES demo_NamespacePrefix
      "rxnorm_prescribable" [] empty_tables
      (List.filter (λ row, negb (is_sbdc row)) aspirin_rows) = Some t' ∧
    records t' = records aspirin_tables ∧
    precise_ingredient_to_brand t' = precise_ingredient_to_brand aspirin_tables ∧
    ingredient_to_sbdf t' = ingredient_to_sbdf aspirin_tables ∧
    brand_to_concept_id t' = brand_to_concept_id aspirin_tables ∧
    ingredient_to_brands t' = ∅.
Proof.
  apply (sbdc_rows_touch_no_record demo_XREF_SOURCES demo_ASSOC_WITH_SOURCES
           demo_NamespacePrefix "rxnorm_prescribable" [] aspirin_rows aspirin_tables).
  vm_compute. reflexivity.
Defined.

Lemma bracket_brand_is_last_group_witness :
  bracket_brand "Aspirin 325 MG [Bufferin] Oral Tablet" = "Bufferin" ∧
  bracket_brand "Bufferin" = "Bufferin".
Proof.
  apply (bracket_brand_is_last_group "Aspirin 325 MG " "Bufferin" " Oral Tablet");
    reflexivity.
Defined.


End RxNormMoreFacts.

(** ** More about the DrugBank transform *)

Module DrugBankMoreFacts.

Import PyStr DrugBank DrugBankXml MoreExamples.

(** *** Entries that stand twice in a list *)

Lemma repeats_only_nil R : repeats_only R [].
Proof. intros i j x _ H. by rewrite lookup_nil in H. Qed.

Lemma repeats_only_snoc (R : option string → Prop) l x :
  repeats_only R l → x ∉ l ∨ R x → repeats_only R (l ++ [x])%list.
Proof.
  intros Hl Hx i j y Hij Hi Hj.
  destruct (decide (j < length l)%nat) as [Hlt|Hge].
  - rewrite lookup_app_l in Hi by lia. rewrite lookup_app_l in Hj by lia.
    exact (Hl i j y Hij Hi Hj).
  - assert (j = length l) as ->.
    { apply lookup_lt_Some in Hj. rewrite length_app in Hj. cbn in Hj. lia. }
    rewrite lookup_app_l in Hi by lia.
    rewrite lookup_app_r, Nat.sub_diag in Hj by lia. cbn in Hj. injection Hj as <-.
    destruct Hx as [Hx|Hx]; [|done]. destruct Hx. by eapply list_elem_of_lookup_2.
Qed.

Lemma repeats_only_NoDup l : repeats_only (λ _, False) l → NoDup l.
Proof.
  intros H. apply NoDup_alt. intros i j x Hi Hj.
  destruct (Nat.lt_trichotomy i j) as [Hlt|[Heq|Hgt]];
    [by destruct (H i j x)|done|by destruct (H j i x)].
Qed.

Lemma texts_strings (l : list (option string)) :
  Forall is_Some l → ∃ values, l = Some <$> values.
Proof.
  induction 1 as [|x l [v ->] _ [values ->]]; [by exists []|].
  by exists (v :: values).
Qed.

Lemma strings_texts (values : list string) : Forall is_Some (Some <$> values).
Proof. apply Forall_fmap, Forall_forall. intros v _. by eexists. Qed.

(** *** Appending to one of the lists *)

Lemma set_fields_id p : set_fields (fields p) p = p.
Proof. by destruct p. Qed.

Lemma appended_refl F Q U p l : fields p !! F = Some l → appended F Q U p p.
Proof.
  intros Hl. exists l, []. split; [done|]. rewrite app_nil_r, insert_id by done.
  split; [by rewrite set_fields_id|]. split; [done|]. by intros R _ ?.
Qed.

Lemma appended_trans F Q U p1 p2 p3 :
  appended F Q U p1 p2 → appended F Q U p2 p3 → appended F Q U p1 p3.
Proof.
  intros (l & a1 & Hl & -> & HQ1 & Hr1) (l2 & a2 & Hl2 & -> & HQ2 & Hr2).
  cbn in Hl2. rewrite lookup_insert_eq in Hl2. injection Hl2 as <-.
  exists l, (a1 ++ a2)%list. split; [done|]. split.
  - unfold set_fields. cbn. by rewrite insert_insert_eq, app_assoc.
  - split; [by apply Forall_app|]. intros R HU HR. rewrite app_assoc.
    by apply Hr2, Hr1.
Qed.

Lemma appended_mono F (Q Q' U U' : option string → Prop) p p' :
  (∀ s, Q s → Q' s) → (∀ s, U s → U' s) →
  appended F Q U p p' → appended F Q' U' p p'.
Proof.
  intros HQ HU (l & a & Hl & -> & Ha & Hr). exists l, a.
  split; [done|]. split; [done|]. split; [by eapply Forall_impl|].
  intros R HR. apply Hr. intros s Hs. by apply HR, HU.
Qed.

Lemma appended_lookup F Q U p p' :
  appended F Q U p p' → is_Some (fields p' !! F).
Proof. intros (l & a & _ & -> & _). cbn. rewrite lookup_insert_eq. by eexists. Qed.

Lemma appended_step F (Q1 Q2 Q U1 U2 U : option string → Prop) p p1 p' :
  appended F Q1 U1 p p1 → appended F Q2 U2 p1 p' →
  (∀ s, Q1 s → Q s) → (∀ s, Q2 s → Q s) →
  (∀ s, U1 s → U s) → (∀ s, U2 s → U s) →
  appended F Q U p p'.
Proof.
  intros H1 H2 HQ1 HQ2 HU1 HU2.
  eapply appended_trans; eapply appended_mono; [| |exact H1| | |exact H2]; done.
Qed.

Lemma append_to_appended F (Q U : option string → Prop) v p p' :
  append_to F v p = Some p' → Q v → U v → appended F Q U p p'.
Proof.
  unfold append_to. destruct (fields p !! F) as [l|] eqn:Hl; [|done].
  cbn [mbind option_bind]. intros [= <-] HQ HU.
  exists l, [v]. split; [done|]. split; [done|]. split; [by apply Forall_singleton|].
  intros R HR Hrep. apply repeats_only_snoc; [done|]. right. by apply HR.
Qed.

Lemma append_new_appended F (Q U : option string → Prop) v p p' :
  append_new F v p = Some p' → Q v → appended F Q U p p'.
Proof.
  unfold append_new. destruct (fields p !! F) as [l|] eqn:Hl; [|done].
  cbn [mbind option_bind]. case_bool_decide as Hin; intros [= <-] HQ.
  - by eapply appended_refl.
  - exists l, [v]. split; [done|]. split; [done|].
    split; [by apply Forall_singleton|].
    intros R _ Hrep. apply repeats_only_snoc; [done|by left].
Qed.

Lemma append_to_total F v p :
  is_Some (fields p !! F) →
  ∃ p', append_to F v p = Some p' ∧ is_Some (fields p' !! F).
Proof.
  intros [l Hl]. unfold append_to. rewrite Hl. cbn [mbind option_bind].
  eexists. split; [done|]. cbn. rewrite lookup_insert_eq. by eexists.
Qed.

Lemma append_new_total F v p :
  is_Some (fields p !! F) →
  ∃ p', append_new F v p = Some p' ∧ is_Some (fields p' !! F).
Proof.
  intros [l Hl]. unfold append_new. rewrite Hl. cbn [mbind option_bind].
  case_bool_decide.
  - exists p. split; [done|]. by eexists.
  - eexists. split; [done|]. cbn. rewrite lookup_insert_eq. by eexists.
Qed.

(** *** The loaders of the element loop *)

Lemma load_synonyms_appended element : ∀ p p',
  is_Some (fields p !! "aliases") →
  _load_synonyms element p = Some p' →
  appended "aliases"
    (λ s, ∃ alias, alias ∈ element ∧ language alias = Some "english" ∧ text alias = s)
    (λ _, False) p p'.
Proof.
  induction element as [|alias rest IH]; intros p p' [l Hl]; cbn [_load_synonyms].
  - intros [= <-]. by eapply appended_refl.
  - rewrite Hl. cbn [mbind option_bind].
    assert (Hrest : ∀ p1,
      appended "aliases" (λ s, language alias = Some "english" ∧ text alias = s)
        (λ _, False) p p1 →
      _load_synonyms rest p1 = Some p' →
      appended "aliases"
        (λ s, ∃ a, a ∈ alias :: rest ∧ language a = Some "english" ∧ text a = s)
        (λ _, False) p p').
    { intros p1 H1 Hp'.
      eapply (appended_step _ _ _ _ _ _ _ _ _ _ H1
                (IH _ _ (appended_lookup _ _ _ _ _ H1) Hp')); try done.
      - intros s [? ?]. exists alias. split; [apply list_elem_of_here|done].
      - intros s (a & ? & ?). exists a. split; [by apply list_elem_of_further|done]. }
    case_bool_decide as Hin; [apply Hrest; by eapply appended_refl|].
    destruct (language alias) as [lang|] eqn:Hlang; [|done].
    cbn [mbind option_bind].
    case_bool_decide as Heng; [|apply Hrest; by eapply appended_refl].
    apply Hrest. subst lang. exists l, [text alias].
    split; [done|]. split; [done|]. split; [by apply Forall_singleton|].
    intros R _ Hrep. apply repeats_only_snoc; [done|by left].
Qed.

Lemma load_synonyms_total element : ∀ p,
  is_Some (fields p !! "aliases") →
  forallb (λ alias, bool_decide (is_Some (language alias))) element = true →
  is_Some (_load_synonyms element p).
Proof.
  induction element as [|alias rest IH]; intros p [l Hl]; cbn [_load_synonyms forallb].
  - by eexists.
  - intros [[lang Hlang]%bool_decide_eq_true Hrest]%andb_true_iff.
    rewrite Hl, Hlang. cbn [mbind option_bind].
    repeat case_bool_decide; apply IH; try done; try by eexists.
    all: cbn; rewrite lookup_insert_eq; by eexists.
Qed.

(** A synonym without the attribute [language] raises, unless its text
    is among the aliases already. *)
Lemma load_synonyms_no_language alias rest p l :
  fields p !! "aliases" = Some l → language alias = None → text alias ∉ l →
  _load_synonyms (alias :: rest) p = None.
Proof.
  intros Hl Hlang Hin. cbn [_load_synonyms]. rewrite Hl. cbn [mbind option_bind].
  by rewrite bool_decide_eq_false_2, Hlang by done.
Qed.

Lemma load_international_brands_appended element : ∀ p p',
  is_Some (fields p !! "aliases") →
  _load_international_brands element p = Some p' →
  appended "aliases" (λ s, Some s ∈ element) (λ _, False) p p'.
Proof.
  induction element as [|brand rest IH]; intros p p' Hl;
    cbn [DrugBankXml._load_international_brands].
  - intros [= <-]. destruct Hl as [l Hl]. by eapply appended_refl.
  - destruct brand as [nm|]; [|done]. cbn [mbind option_bind].
    destruct (append_new "aliases" nm p) as [p1|] eqn:H1; [|done].
    cbn [mbind option_bind]. intros Hp'.
    pose proof (append_new_appended "aliases" (λ s, s = nm) (λ _, False)
                  _ _ _ H1 eq_refl) as Ha1.
    eapply (appended_step _ _ _ _ _ _ _ _ _ _ Ha1
              (IH _ _ (appended_lookup _ _ _ _ _ Ha1) Hp')); try done.
    + intros s ->. apply list_elem_of_here.
    + intros s ?. by apply list_elem_of_further.
Qed.

Lemma load_international_brands_total element : ∀ p,
  is_Some (fields p !! "aliases") →
  forallb (λ brand : SubText, bool_decide (is_Some brand)) element = true →
  is_Some (_load_international_brands element p).
Proof.
  induction element as [|brand rest IH]; intros p Hl;
    cbn [DrugBankXml._load_international_brands forallb].
  - by eexists.
  - intros [[nm ->]%bool_decide_eq_true Hrest]%andb_true_iff.
    cbn [mbind option_bind].
    destruct (append_new_total "aliases" nm p Hl) as (p1 & -> & Hl1).
    cbn [mbind option_bind]. by apply IH.
Qed.

Lemma load_international_brands_sub_elements element : ∀ p p',
  _load_international_brands element p = Some p' →
  forallb (λ brand : SubText, bool_decide (is_Some brand)) element = true.
Proof.
  induction element as [|brand rest IH]; intros p p';
    cbn [DrugBankXml._load_international_brands forallb]; [done|].
  destruct brand as [nm|]; [|done]. cbn [mbind option_bind].
  destruct (append_new "aliases" nm p) as [p1|]; [|done]. cbn [mbind option_bind].
  intros Hp'. rewrite (IH _ _ Hp'), andb_true_r. by apply bool_decide_eq_true_2.
Qed.

Lemma bool_decide_is_Some {A} (x : A) : bool_decide (is_Some (Some x)) = true.
Proof. apply bool_decide_eq_true_2. by eexists. Qed.

Lemma bool_decide_Some (x y : option string) :
  bool_decide (Some x = Some y) = bool_decide (x = y).
Proof. apply bool_decide_ext. split; [by intros [= ->]|by intros ->]. Qed.

Lemma load_products_appended element : ∀ p p',
  is_Some (fields p !! "trade_names") →
  _load_products element p = Some p' →
  appended "trade_names"
    (λ s, ∃ product, product ∈ element ∧ flagged product = true ∧
                     product_name product = Some s)
    (λ _, False) p p'.
Proof.
  induction element as [|product rest IH]; intros p p' Hl;
    cbn [DrugBankXml._load_products].
  - intros [= <-]. destruct Hl as [l Hl]. by eapply appended_refl.
  - destruct (product_name product) as [nm|] eqn:Hn; [|done]. cbn [mbind option_bind].
    destruct (generic product) as [g|] eqn:Hg; [|done]. cbn [mbind option_bind].
    destruct (approved product) as [a|] eqn:Ha; [|done]. cbn [mbind option_bind].
    destruct (over_the_counter product) as [o|] eqn:Ho; [|done].
    cbn [mbind option_bind].
    assert (Hf : flagged product
                 = bool_decide (g = Some "true") || bool_decide (a = Some "true")
                   || bool_decide (o = Some "true")).
    { unfold flagged. by rewrite Hg, Ha, Ho, !bool_decide_Some. }
    rewrite <- Hf. destruct (flagged product) eqn:Hfl.
    + destruct (append_new "trade_names" nm p) as [p1|] eqn:H1; [|done].
      cbn [mbind option_bind]. intros Hp'.
      pose proof (append_new_appended "trade_names" (λ s, s = nm) (λ _, False)
                    _ _ _ H1 eq_refl) as Ha1.
      eapply (appended_step _ _ _ _ _ _ _ _ _ _ Ha1
                (IH _ _ (appended_lookup _ _ _ _ _ Ha1) Hp')); try done.
      * intros s ->. exists product. split; [apply list_elem_of_here|done].
      * intros s (x & ? & ?). exists x. split; [by apply list_elem_of_further|done].
    + intros Hp'. eapply appended_mono; [| |exact (IH _ _ Hl Hp')]; [|done].
      intros s (x & ? & ?). exists x. split; [by apply list_elem_of_further|done].
Qed.

Lemma load_products_total element : ∀ p,
  is_Some (fields p !! "trade_names") →
  forallb (λ product,
             bool_decide (is_Some (product_name product))
             && bool_decide (is_Some (generic product))
             && bool_decide (is_Some (approved product))
             && bool_decide (is_Some (over_the_counter product))) element = true →
  is_Some (_load_products element p).
Proof.
  induction element as [|product rest IH]; intros p Hl;
    cbn [DrugBankXml._load_products forallb].
  - by eexists.
  - intros [[[[[nm ->]%bool_decide_eq_true [g ->]%bool_decide_eq_true]%andb_true_iff
               [a ->]%bool_decide_eq_true]%andb_true_iff
              [o ->]%bool_decide_eq_true]%andb_true_iff Hrest]%andb_true_iff.
    cbn [mbind option_bind]. destruct (_ || _); [|by apply IH].
    destruct (append_new_total "trade_names" nm p Hl) as (p1 & -> & Hl1).
    cbn [mbind option_bind]. by apply IH.
Qed.

Lemma load_products_sub_elements element : ∀ p p',
  _load_products element p = Some p' →
  forallb (λ product,
             bool_decide (is_Some (product_name product))
             && bool_decide (is_Some (generic product))
             && bool_decide (is_Some (approved product))
             && bool_decide (is_Some (over_the_counter product))) element = true.
Proof.
  induction element as [|product rest IH]; intros p p';
    cbn [DrugBankXml._load_products forallb]; [done|].
  destruct (product_name product) as [nm|]; [|done]. cbn [mbind option_bind].
  destruct (generic product) as [g|]; [|done]. cbn [mbind option_bind].
  destruct (approved product) as [a|]; [|done]. cbn [mbind option_bind].
  destruct (over_the_counter product) as [o|]; [|done]. cbn [mbind option_bind].
  rewrite !bool_decide_is_Some. cbn [andb].
  destruct (_ || _); [|by apply IH].
  destruct (append_new "trade_names" nm p) as [p1|]; [|done]. cbn [mbind option_bind].
  by apply IH.
Qed.

Section Schema.

Variable NamespacePrefix : string -> string.
Variable casRegistry_prefix : string.
Variables WITHDRAWN APPROVED INVESTIGATIONAL : string.
Variable SourceName_DRUGBANK : string.
Variable casefold : string -> string.

#[local] Abbreviation PREFIXES := (DRUGBANK_IDENTIFIER_PREFIXES NamespacePrefix).
#[local] Abbreviation _load_external_identifiers :=
  (DrugBankXml._load_external_identifiers NamespacePrefix).
#[local] Abbreviation _load_cas_number := (DrugBankXml._load_cas_number casRegistry_prefix).
#[local] Abbreviation _load_approval_status :=
  (DrugBankXml._load_approval_status WITHDRAWN APPROVED INVESTIGATIONAL).
#[local] Abbreviation _load_drugbank_id := (DrugBankXml._load_drugbank_id NamespacePrefix).
#[local] Abbreviation load_element :=
  (DrugBankXml.load_element NamespacePrefix casRegistry_prefix
     WITHDRAWN APPROVED INVESTIGATIONAL).
#[local] Abbreviation load_elements :=
  (DrugBankXml.load_elements NamespacePrefix casRegistry_prefix
     WITHDRAWN APPROVED INVESTIGATIONAL).
#[local] Abbreviation comes_from :=
  (DrugBankXml.comes_from NamespacePrefix casRegistry_prefix).
#[local] Abbreviation lookup_item := (DrugBankXml.lookup_item SourceName_DRUGBANK).
#[local] Abbreviation _load_label := (DrugBankXml._load_label SourceName_DRUGBANK).
#[local] Abbreviation one_per_casefold := (DrugBankXml.one_per_casefold casefold).
#[local] Abbreviation _load_aliases :=
  (DrugBankXml._load_aliases SourceName_DRUGBANK casefold).
#[local] Abbreviation _load_trade_names :=
  (DrugBankXml._load_trade_names SourceName_DRUGBANK casefold).
#[local] Abbreviation load_drug := (DrugBankXml.load_drug SourceName_DRUGBANK casefold).
#[local] Abbreviation transform_drug :=
  (DrugBankXml.transform_drug NamespacePrefix casRegistry_prefix
     WITHDRAWN APPROVED INVESTIGATIONAL SourceName_DRUGBANK casefold).
#[local] Abbreviation _transform_data :=
  (DrugBankXml._transform_data NamespacePrefix casRegistry_prefix
     WITHDRAWN APPROVED INVESTIGATIONAL SourceName_DRUGBANK casefold).
#[local] Abbreviation _load_therapy := (DrugBank._load_therapy casefold).
#[local] Abbreviation cap_field := (DrugBank.cap_field casefold).
#[local] Abbreviation distinct_casefolded := (DrugBank.distinct_casefolded casefold).

Lemma load_external_identifiers_appended element : ∀ p p',
  is_Some (fields p !! "other_identifiers") →
  _load_external_identifiers element p = Some p' →
  appended "other_identifiers"
    (λ s, ∃ external_identifier src id prefix,
       external_identifier ∈ element ∧
       resource external_identifier = Some (Some src) ∧
       identifier external_identifier = Some id ∧
       Wikidata.dict_get src PREFIXES = Some prefix ∧
       s = Some (prefix ++ ":" ++ fstr id))
    (λ _, True) p p'.
Proof.
  induction element as [|ei rest IH]; intros p p' Hl;
    cbn [DrugBankXml._load_external_identifiers].
  - intros [= <-]. destruct Hl as [l Hl]. by eapply appended_refl.
  - assert (Hskip : _load_external_identifiers rest p = Some p' →
      appended "other_identifiers"
        (λ s, ∃ x src id prefix, x ∈ ei :: rest ∧ resource x = Some (Some src) ∧
           identifier x = Some id ∧ Wikidata.dict_get src PREFIXES = Some prefix ∧
           s = Some (prefix ++ ":" ++ fstr id))
        (λ _, True) p p').
    { intros Hp'. eapply appended_mono; [| |exact (IH _ _ Hl Hp')]; [|done].
      intros s (x & src & id & q & ? & ?). exists x, src, id, q.
      split; [by apply list_elem_of_further|done]. }
    destruct (resource ei) as [src|] eqn:Hsrc; [|done]. cbn [mbind option_bind].
    destruct (identifier ei) as [id|] eqn:Hid; [|done]. cbn [mbind option_bind].
    destruct src as [src|]; cbn [mbind option_bind]; [|done].
    destruct (Wikidata.dict_get src PREFIXES) as [prefix|] eqn:Hp; [|done].
    destruct (append_to "other_identifiers" (Some (prefix ++ ":" ++ fstr id)) p)
      as [p1|] eqn:H1; [|done].
    cbn [mbind option_bind]. intros Hp'.
    pose proof (append_to_appended "other_identifiers"
                  (λ s, s = Some (prefix ++ ":" ++ fstr id)) (λ _, True)
                  _ _ _ H1 eq_refl I) as Ha1.
    eapply (appended_step _ _ _ _ _ _ _ _ _ _ Ha1
              (IH _ _ (appended_lookup _ _ _ _ _ Ha1) Hp')); try done.
    + intros s ->. exists ei, src, id, prefix. split; [apply list_elem_of_here|done].
    + intros s (x & src' & id' & q & ? & ?). exists x, src', id', q.
      split; [by apply list_elem_of_further|done].
Qed.

Lemma load_external_identifiers_total element : ∀ p,
  is_Some (fields p !! "other_identifiers") →
  forallb (λ external_identifier,
             bool_decide (is_Some (resource external_identifier))
             && bool_decide (is_Some (identifier external_identifier))) element = true →
  is_Some (_load_external_identifiers element p).
Proof.
  induction element as [|ei rest IH]; intros p Hl;
    cbn [DrugBankXml._load_external_identifiers forallb].
  - by eexists.
  - intros [[[src ->]%bool_decide_eq_true [id ->]%bool_decide_eq_true]%andb_true_iff
              Hrest]%andb_true_iff.
    cbn [mbind option_bind]. destruct (src ≫= _) as [prefix|]; [|by apply IH].
    destruct (append_to_total "other_identifiers"
                (Some (prefix ++ ":" ++ fstr id)) p Hl) as (p1 & -> & Hl1).
    cbn [mbind option_bind]. by apply IH.
Qed.

Lemma load_external_identifiers_sub_elements element : ∀ p p',
  _load_external_identifiers element p = Some p' →
  forallb (λ external_identifier,
             bool_decide (is_Some (resource external_identifier))
             && bool_decide (is_Some (identifier external_identifier))) element = true.
Proof.
  induction element as [|ei rest IH]; intros p p';
    cbn [DrugBankXml._load_external_identifiers forallb]; [done|].
  destruct (resource ei) as [src|]; [|done]. cbn [mbind option_bind].
  destruct (identifier ei) as [id|]; [|done]. cbn [mbind option_bind].
  rewrite !bool_decide_is_Some. cbn [andb].
  destruct (src ≫= _) as [prefix|]; [|by apply IH].
  destruct (append_to _ _ p) as [p1|]; [|done]. cbn [mbind option_bind].
  by apply IH.
Qed.

(** One round of the element loop, when it does not raise: it sets the
    two key attributes together or leaves them, and it appends to one
    list. *)
Lemma load_element_spec p e p' :
  has_lists p → load_element p e = Some p' →
  src_name p' = src_name p ∧
  (if is_primary_id e then is_Some (concept_id p') ∧ linked p'
   else concept_id p' = concept_id p ∧ label_and_type p' = label_and_type p) ∧
  ∃ F l added,
    fields p !! F = Some l ∧ fields p' = <[F := (l ++ added)%list]> (fields p) ∧
    Forall (comes_from F e) added ∧
    ∀ R : option string → Prop,
      (∀ s, unchecked F e s → R s) → repeats_only R l →
      repeats_only R (l ++ added)%list.
Proof.
  intros (Ha & Ho & Ht).
  assert (Hsame : ∀ p', fields p' = fields p →
            ∃ F l added,
              fields p !! F = Some l ∧ fields p' = <[F := (l ++ added)%list]> (fields p) ∧
              Forall (comes_from F e) added ∧
              ∀ R : option string → Prop,
                (∀ s, unchecked F e s → R s) → repeats_only R l →
                repeats_only R (l ++ added)%list).
  { intros q ->. destruct Ha as [l Hl]. exists "aliases", l, [].
    rewrite app_nil_r, insert_id by done. by repeat split. }
  assert (Happ : ∀ F Q U q, appended F Q U p q →
            (∀ s, Q s → comes_from F e s) → (∀ s, U s → unchecked F e s) →
            src_name q = src_name p ∧
            (concept_id q = concept_id p ∧ label_and_type q = label_and_type p) ∧
            ∃ F l added,
              fields p !! F = Some l ∧ fields q = <[F := (l ++ added)%list]> (fields p) ∧
              Forall (comes_from F e) added ∧
              ∀ R : option string → Prop,
                (∀ s, unchecked F e s → R s) → repeats_only R l →
                repeats_only R (l ++ added)%list).
  { intros F Q U q (l & a & Hl & -> & HQ & Hrep) Himp HU. split; [done|]. split; [done|].
    exists F, l, a. split; [done|]. split; [done|]. split; [by eapply Forall_impl|].
    intros R HR. apply Hrep. intros s Hs. by apply HR, HU. }
  destruct e as [primary text|text|children|names|children|children|text|texts|];
    cbn [DrugBankXml.load_element is_primary_id].
  - destruct primary; cbn [DrugBankXml._load_drugbank_id].
    + intros [= <-]. split; [done|]. split; [|by apply Hsame].
      split; [by eexists|done].
    + intros H1.
      apply (Happ _ _ _ _ (append_to_appended "aliases" (λ s, s = text) (λ s, s = text)
                             _ _ _ H1 eq_refl eq_refl)); by intros s ->.
  - intros [= <-]. split; [done|]. split; [done|]. by apply Hsame.
  - intros H1. apply (Happ _ _ _ _ (load_synonyms_appended _ _ _ Ha H1)); by intros s ?.
  - intros H1.
    apply (Happ _ _ _ _ (load_international_brands_appended _ _ _ Ha H1)); by intros s ?.
  - intros H1. apply (Happ _ _ _ _ (load_products_appended _ _ _ Ht H1)); by intros s ?.
  - intros H1.
    apply (Happ _ _ _ _ (load_external_identifiers_appended _ _ _ Ho H1)); by intros s ?.
  - unfold DrugBankXml._load_cas_number. destruct text as [t|].
    + destruct t as [|c t]; cbn [truthy].
      * intros [= <-]. split; [done|]. split; [done|]. by apply Hsame.
      * intros H1.
        apply (Happ _ _ _ _ (append_to_appended "other_identifiers"
                 (λ s, s = Some (casRegistry_prefix ++ ":" ++ String c t)) (λ _, True)
                 _ _ _ H1 eq_refl I)); by intros s ?.
    + intros [= <-]. split; [done|]. split; [done|]. by apply Hsame.
  - intros [= <-]. unfold DrugBankXml._load_approval_status.
    repeat case_bool_decide; (split; [done|]); (split; [done|]); by apply Hsame.
  - intros [= <-]. split; [done|]. split; [done|]. by apply Hsame.
Qed.

Lemma load_element_lists p e p' :
  has_lists p → load_element p e = Some p' → has_lists p'.
Proof.
  intros Hp He.
  destruct (load_element_spec p e p' Hp He) as (_ & _ & F & lF & aF & HlF & Hf1 & _).
  destruct Hp as (Ha & Ho & Ht). unfold has_lists. rewrite Hf1.
  repeat split;
    match goal with |- is_Some (<[F := _]> _ !! ?k) =>
      destruct (decide (F = k)) as [->|Hne];
        [rewrite lookup_insert_eq; by eexists|by rewrite lookup_insert_ne]
    end.
Qed.

Lemma load_element_total p e :
  has_lists p → readable e = true → is_Some (load_element p e).
Proof.
  intros (Ha & Ho & Ht).
  destruct e as [primary text|text|children|names|children|children|text|texts|];
    cbn [DrugBankXml.load_element readable has_sub_elements]; intros Hr;
    try by eexists.
  - destruct primary; cbn [DrugBankXml._load_drugbank_id]; [by eexists|].
    destruct (append_to_total "aliases" text p Ha) as (p' & -> & _). by eexists.
  - by apply load_synonyms_total.
  - by apply load_international_brands_total.
  - by apply load_products_total.
  - by apply load_external_identifiers_total.
  - unfold DrugBankXml._load_cas_number. destruct text as [t|]; [|by eexists].
    destruct (truthy t); [|by eexists].
    destruct (append_to_total "other_identifiers"
                (Some (casRegistry_prefix ++ ":" ++ t)) p Ho) as (p' & -> & _).
    by eexists.
Qed.

Lemma load_element_sub_elements p e p' :
  load_element p e = Some p' → has_sub_elements e = true.
Proof.
  destruct e as [primary text|text|children|names|children|children|text|texts|];
    cbn [DrugBankXml.load_element has_sub_elements]; try done.
  - apply load_international_brands_sub_elements.
  - apply load_products_sub_elements.
  - apply load_external_identifiers_sub_elements.
Qed.

(** The whole element loop, when it does not raise. *)
Lemma load_elements_spec drug : ∀ p p',
  has_lists p → load_elements p drug = Some p' →
  has_lists p' ∧ src_name p' = src_name p ∧
  (if existsb is_primary_id drug then is_Some (concept_id p') ∧ linked p'
   else concept_id p' = concept_id p ∧ label_and_type p' = label_and_type p) ∧
  (∀ field, fields p !! field = None → fields p' !! field = None) ∧
  (∀ field l, fields p !! field = Some l →
     ∃ added, fields p' !! field = Some (l ++ added)%list ∧
       Forall (λ s, ∃ e, e ∈ drug ∧ comes_from field e s) added ∧
       ∀ R : option string → Prop,
         (∀ e s, e ∈ drug → unchecked field e s → R s) → repeats_only R l →
         repeats_only R (l ++ added)%list).
Proof.
  induction drug as [|e rest IH]; intros p p' Hp;
    cbn [DrugBankXml.load_elements existsb].
  - intros [= <-]. split; [done|]. split; [done|]. split; [done|].
    split; [done|]. intros field l Hl. exists []. rewrite app_nil_r. by repeat split.
  - destruct (load_element p e) as [p1|] eqn:He; [|done]. cbn [mbind option_bind].
    intros Hrest.
    destruct (load_element_spec p e p1 Hp He)
      as (Hs1 & Hc1 & F & lF & aF & HlF & Hf1 & HQ1 & Hr1).
    pose proof (load_element_lists p e p1 Hp He) as Hp1.
    destruct (IH p1 p' Hp1 Hrest) as (Hp' & Hs & Hc & Hnone & Hsome).
    split; [done|]. split; [congruence|]. split; [|split].
    + destruct (existsb is_primary_id rest); [by rewrite orb_true_r|].
      rewrite orb_false_r. destruct Hc as [Hc Hlt].
      destruct (is_primary_id e).
      * destruct Hc1 as [Hsome1 Hlink]. unfold linked in *. by rewrite Hc, Hlt.
      * destruct Hc1 as [Hc1 Hlt1]. split; congruence.
    + intros field Hfield. apply Hnone. rewrite Hf1.
      destruct (decide (F = field)) as [->|Hne]; [congruence|].
      by rewrite lookup_insert_ne.
    + intros field l Hl.
      destruct (decide (F = field)) as [->|Hne].
      * rewrite HlF in Hl. injection Hl as ->.
        destruct (Hsome field (l ++ aF)%list) as (a2 & Hl2 & HQ2 & Hr2).
        { rewrite Hf1. apply lookup_insert_eq. }
        exists (aF ++ a2)%list. rewrite app_assoc. split; [done|]. split.
        -- apply Forall_app. split.
           ++ eapply Forall_impl; [exact HQ1|]. intros s Hs'. exists e.
              split; [apply list_elem_of_here|done].
           ++ eapply Forall_impl; [exact HQ2|]. intros s (e' & ? & ?). exists e'.
              split; [by apply list_elem_of_further|done].
        -- intros R HR Hrep. apply Hr2.
           ++ intros e' s He'. by apply HR, list_elem_of_further.
           ++ apply Hr1; [|done]. intros s. apply HR, list_elem_of_here.
      * destruct (Hsome field l) as (a2 & Hl2 & HQ2 & Hr2).
        { rewrite Hf1. by rewrite lookup_insert_ne. }
        exists a2. split; [done|]. split.
        -- eapply Forall_impl; [exact HQ2|]. intros s (e' & ? & ?). exists e'.
           split; [by apply list_elem_of_further|done].
        -- intros R HR. apply Hr2. intros e' s He'.
           by apply HR, list_elem_of_further.
Qed.

Lemma load_elements_total drug : ∀ p,
  has_lists p → Forall (λ e, readable e = true) drug →
  ∃ p', load_elements p drug = Some p'.
Proof.
  induction drug as [|e rest IH]; intros p Hp Hr; cbn [DrugBankXml.load_elements].
  - by eexists.
  - apply Forall_cons in Hr as [He Hrest].
    destruct (load_element_total p e Hp He) as [p1 H1]. rewrite H1.
    cbn [mbind option_bind]. apply IH; [|done]. by eapply load_element_lists.
Qed.

Lemma load_elements_sub_elements drug : ∀ p p',
  load_elements p drug = Some p' → Forall (λ e, has_sub_elements e = true) drug.
Proof.
  induction drug as [|e rest IH]; intros p p'; cbn [DrugBankXml.load_elements].
  - intros _. apply Forall_nil_2.
  - destruct (load_element p e) as [p1|] eqn:He; [|done]. cbn [mbind option_bind].
    intros Hrest. apply Forall_cons. split; [by eapply load_element_sub_elements|].
    by eapply IH.
Qed.

Lemma initial_params_lists : has_lists (initial_params SourceName_DRUGBANK).
Proof. repeat split; by eexists. Qed.

Lemma initial_params_fields field l :
  fields (initial_params SourceName_DRUGBANK) !! field = Some l →
  l = [] ∧ field ∈ ["aliases"; "other_identifiers"; "trade_names"].
Proof.
  cbn. intros H.
  apply lookup_insert_Some in H as [[<- <-]|[_ H]];
    [split; [done|apply list_elem_of_here]|].
  apply lookup_insert_Some in H as [[<- <-]|[_ H]];
    [split; [done|apply list_elem_of_further, list_elem_of_here]|].
  apply lookup_insert_Some in H as [[<- <-]|[_ H]];
    [split; [done|do 2 apply list_elem_of_further; apply list_elem_of_here]|].
  done.
Qed.

(** *** [_load_therapy] *)

Lemma cap_field_total label_type f :
  (∀ l, f !! label_type = Some l → Forall is_Some l) →
  is_Some (cap_field label_type f).
Proof.
  intros Hl. unfold DrugBank.cap_field.
  destruct (f !! label_type) as [l|]; [|by eexists].
  case_bool_decide; [by eexists|].
  destruct (texts_strings l (Hl l eq_refl)) as [values Hv].
  apply AdapterFacts.strings_Some in Hv. rewrite Hv. cbn [mbind option_bind].
  destruct (20 <? _)%nat; by eexists.
Qed.

Lemma load_therapy_total p :
  has_lists p →
  (∀ field l, field = "aliases" ∨ field = "trade_names" →
     fields p !! field = Some l → Forall is_Some l) →
  ∃ item, _load_therapy p = Some item.
Proof.
  intros (_ & [o Ho] & _) Htexts. unfold DrugBank._load_therapy. rewrite Ho.
  cbn [mbind option_bind]. cbv zeta.
  set (f := if bool_decide (o = []) then _ else _).
  assert (Hf : ∀ field, field = "aliases" ∨ field = "trade_names" →
                 f !! field = fields p !! field).
  { intros field Hfield. subst f. case_bool_decide; [|done].
    apply lookup_delete_ne. by destruct Hfield as [-> | ->]. }
  destruct (cap_field_total "trade_names" f) as [f1 H1].
  { intros l. rewrite Hf by by right. apply Htexts. by right. }
  rewrite H1. cbn [mbind option_bind].
  destruct (cap_field_total "aliases" f1) as [f2 H2].
  { intros l. rewrite (AdapterFacts.cap_field_ne _ _ _ _ _ H1), Hf by (done || by left).
    apply Htexts. by left. }
  rewrite H2. cbn [mbind option_bind]. by eexists.
Qed.

Lemma load_therapy_scalars p item :
  _load_therapy p = Some item →
  concept_id item = concept_id p ∧ label_and_type item = label_and_type p ∧
  label item = label p ∧ approval_status item = approval_status p ∧
  src_name item = src_name p.
Proof.
  unfold DrugBank._load_therapy. destruct (fields p !! "other_identifiers"); [|done].
  cbn [mbind option_bind]. cbv zeta.
  destruct (cap_field "trade_names" _) as [f1|]; [|done]. cbn [mbind option_bind].
  destruct (cap_field "aliases" f1) as [f2|]; [|done]. cbn [mbind option_bind].
  by intros [= <-].
Qed.

Lemma cap_field_Some label_type f f' field l :
  cap_field label_type f = Some f' → f' !! field = Some l →
  f !! field = Some l ∧
  (field = label_type →
   l ≠ [] ∧ ∃ values, l = Some <$> values ∧ (distinct_casefolded values ≤ 20)%nat).
Proof.
  intros Hcap. destruct (decide (field = label_type)) as [->|Hne].
  - pose proof (AdapterFacts.cap_field_eq _ _ _ _ Hcap) as He.
    destruct (f !! label_type) as [l0|]; [|by rewrite He].
    destruct He as (values & -> & ->).
    destruct (bool_decide (Some <$> values = [])) eqn:Hnil; [done|]. cbn [orb].
    destruct (20 <? distinct_casefolded values)%nat eqn:Hlt; [done|].
    intros [= <-]. split; [done|]. intros _.
    apply bool_decide_eq_false in Hnil. apply Nat.ltb_ge in Hlt.
    split; [done|]. by exists values.
  - rewrite (AdapterFacts.cap_field_ne _ _ _ _ _ Hcap) by done.
    intros ?. split; [done|]. intros Heq. by destruct Hne.
Qed.

Lemma load_therapy_fields p item field l :
  _load_therapy p = Some item →
  fields item !! field = Some l →
  fields p !! field = Some l ∧
  (field ∈ ["aliases"; "other_identifiers"; "trade_names"] → l ≠ []) ∧
  (field = "aliases" ∨ field = "trade_names" →
   ∃ values, l = Some <$> values ∧ (distinct_casefolded values ≤ 20)%nat).
Proof.
  unfold DrugBank._load_therapy.
  destruct (fields p !! "other_identifiers") as [o|] eqn:Ho; [|done].
  cbn [mbind option_bind]. cbv zeta.
  destruct (cap_field "trade_names" _) as [f1|] eqn:H1; [|done].
  cbn [mbind option_bind].
  destruct (cap_field "aliases" f1) as [f2|] eqn:H2; [|done].
  cbn [mbind option_bind]. intros [= <-]. cbn [fields set_fields].
  intros [Hf1 Ha]%(cap_field_Some _ _ _ _ _ H2).
  apply (cap_field_Some _ _ _ _ _ H1) in Hf1 as [Hf Ht].
  assert (H0 : fields p !! field = Some l ∧ (field = "other_identifiers" → l ≠ [])).
  { revert Hf. case_bool_decide as Hnil.
    - intros [Hne Hf]%lookup_delete_Some. split; [done|]. congruence.
    - intros Hf. split; [done|]. intros ->. congruence. }
  destruct H0 as [H0 Hoi]. split; [done|]. split.
  - intros Hin. repeat (apply elem_of_cons in Hin as [->|Hin]).
    + by apply Ha.
    + by apply Hoi.
    + by apply Ht.
    + by apply elem_of_nil in Hin.
  - intros [->| ->]; [by apply Ha|by apply Ht].
Qed.

(** *** One value per case-folded form *)

Lemma casefold_dict l : ∀ d : gmap string string,
  let d' := foldl (λ d a, <[casefold a := a]> d) d l in
  dom d' = dom d ∪ list_to_set (casefold <$> l) ∧
  (∀ k b, d' !! k = Some b → d !! k = Some b ∨ (b ∈ l ∧ casefold b = k)).
Proof.
  induction l as [|a l IH]; intros d; cbn.
  - split; [by rewrite (right_id_L ∅ (∪))|]. intros k b ?. by left.
  - destruct (IH (<[casefold a := a]> d)) as [Hdom Hval]. split.
    + rewrite Hdom, dom_insert_L.
      by rewrite (comm_L (∪) {[casefold a]} (dom d)), <- (assoc_L (∪)).
    + intros k b [H|[Hb Hk]]%Hval.
      * apply lookup_insert_Some in H as [[<- <-]|[_ H]]; [|by left].
        right. split; [apply list_elem_of_here|done].
      * right. split; [by apply list_elem_of_further|done].
Qed.

Lemma one_per_casefold_elem l b :
  b ∈ one_per_casefold l ↔
  ∃ k, foldl (λ d a, <[casefold a := a]> d) (∅ : gmap string string) l !! k = Some b.
Proof.
  unfold DrugBankXml.one_per_casefold.
  rewrite elem_of_elements, elem_of_list_to_set, list_elem_of_fmap. split.
  - intros ([k b'] & -> & Hin). exists k. by apply elem_of_map_to_list in Hin.
  - intros [k Hk]. exists (k, b). split; [done|]. by apply elem_of_map_to_list.
Qed.

Lemma one_per_casefold_length l :
  (length (one_per_casefold l) ≤ distinct_casefolded l)%nat.
Proof.
  unfold DrugBankXml.one_per_casefold, DrugBank.distinct_casefolded.
  set (d := foldl _ ∅ l).
  destruct (casefold_dict l ∅) as [Hdom _]. fold d in Hdom.
  rewrite dom_empty_L, (left_id_L ∅ (∪)) in Hdom.
  rewrite <- Hdom, size_dom, <- length_map_to_list.
  rewrite <- (length_fmap snd (map_to_list d)).
  apply submseteq_length, NoDup_submseteq; [apply NoDup_elements|].
  intros x Hx. by apply elem_of_elements, elem_of_list_to_set in Hx.
Qed.

(** X12.  The alias (and trade-name) lookups are made from one value
    per case-folded form: the values chosen are distinct values of the
    list, every value of the list has one with its case-folded form
    among them, and no two of them have the same case-folded form. *)
Theorem one_lookup_per_casefolded_form l :
  NoDup (one_per_casefold l) ∧
  (∀ b, b ∈ one_per_casefold l → b ∈ l) ∧
  (∀ a, a ∈ l → ∃ b, b ∈ one_per_casefold l ∧ casefold b = casefold a) ∧
  (∀ b b', b ∈ one_per_casefold l → b' ∈ one_per_casefold l →
           casefold b = casefold b' → b = b').
Proof.
  destruct (casefold_dict l ∅) as [Hdom Hval]. cbn in Hdom, Hval.
  split; [apply NoDup_elements|]. split; [|split].
  - intros b [k Hk]%one_per_casefold_elem.
    destruct (Hval k b Hk) as [H|[H _]]; [by rewrite lookup_empty in H|done].
  - intros a Ha.
    assert (Hin : casefold a ∈ dom (foldl (λ d a, <[casefold a := a]> d)
                                      (∅ : gmap string string) l)).
    { rewrite Hdom. apply elem_of_union_r, elem_of_list_to_set.
      apply list_elem_of_fmap. by exists a. }
    apply elem_of_dom in Hin as [b Hb]. exists b.
    split; [apply one_per_casefold_elem; by exists (casefold a)|].
    destruct (Hval _ b Hb) as [H|[_ H]]; [by rewrite lookup_empty in H|done].
  - intros b b' [k Hk]%one_per_casefold_elem [k' Hk']%one_per_casefold_elem Heq.
    destruct (Hval k b Hk) as [H|[_ H]]; [by rewrite lookup_empty in H|].
    destruct (Hval k' b' Hk') as [H'|[_ H']]; [by rewrite lookup_empty in H'|].
    assert (k = k') as <- by congruence. congruence.
Qed.

(** *** What is put for one drug *)

Lemma load_lookups_shape tag (l : list (option string)) (cid : option string) ops :
  (values ← strings l;
   match one_per_casefold values with
   | [] => Some []
   | a :: rest => c ← cid; Some ((λ a, lookup_item a tag c) <$> (a :: rest))
   end) = Some ops →
  ∃ values lookups, l = Some <$> values ∧ ops = PutLookup <$> lookups ∧
    length lookups = length (one_per_casefold values) ∧
    (lookups = [] ∨ is_Some cid) ∧
    ∀ lk, lk ∈ lookups →
      Some (lk_concept_id lk) = lower <$> cid ∧ lk_src_name lk = SourceName_DRUGBANK.
Proof.
  destruct (strings l) as [values|] eqn:Hv; [|done]. cbn [mbind option_bind].
  apply AdapterFacts.strings_Some in Hv.
  destruct (one_per_casefold values) as [|a rest] eqn:Hone.
  - intros [= <-]. exists values, []. split; [done|]. split; [done|].
    split; [by rewrite Hone|]. split; [by left|]. by intros lk ?%elem_of_nil.
  - destruct cid as [c|]; [|done]. cbn [mbind option_bind]. intros [= <-].
    exists values,
      ((λ a, {| lk_label_and_type := lower a ++ tag; lk_concept_id := lower c;
                lk_src_name := SourceName_DRUGBANK |}) <$> (a :: rest)).
    split; [done|].
    split; [by rewrite <- list_fmap_compose|].
    split; [by rewrite length_fmap, Hone|].
    split; [right; by eexists|].
    by intros lk (x & -> & _)%list_elem_of_fmap.
Qed.

Lemma load_list_shape tag field p item ops :
  _load_therapy p = Some item → field = "aliases" ∨ field = "trade_names" →
  match fields item !! field with
  | Some (a :: l) =>
      values ← strings (a :: l);
      match one_per_casefold values with
      | [] => Some []
      | a' :: rest =>
          c ← concept_id item; Some ((λ x, lookup_item x tag c) <$> (a' :: rest))
      end
  | _ => Some []
  end = Some ops →
  ∃ lookups, ops = PutLookup <$> lookups ∧ (length lookups ≤ 20)%nat ∧
    (lookups = [] ∨ is_Some (concept_id item)) ∧
    ∀ lk, lk ∈ lookups →
      Some (lk_concept_id lk) = lower <$> concept_id item ∧
      lk_src_name lk = SourceName_DRUGBANK.
Proof.
  intros Hitem Hfield.
  destruct (fields item !! field) as [[|a l]|] eqn:Hf.
  1,3: intros [= <-]; exists []; split; [done|]; split; [cbn; lia|];
       split; [by left|]; by intros lk ?%elem_of_nil.
  intros (values & lookups & Hv & -> & Hlen & Hcid & Hlk)%load_lookups_shape.
  exists lookups. split; [done|]. split; [|done].
  destruct (load_therapy_fields _ _ _ _ Hitem Hf) as (_ & _ & Hcap).
  destruct (Hcap Hfield) as (values' & Hv' & Hcap').
  rewrite Hv in Hv'. apply (inj (fmap Some)) in Hv' as <-.
  pose proof (one_per_casefold_length values). lia.
Qed.

Lemma load_label_shape (item : Params) ops :
  match label item with
  | Some l => if truthy l then _load_label l (concept_id item) else Some []
  | None => Some []
  end = Some ops →
  ∃ lookups, ops = PutLookup <$> lookups ∧ (length lookups ≤ 1)%nat ∧
    (lookups = [] ∨ is_Some (concept_id item)) ∧
    ∀ lk, lk ∈ lookups →
      Some (lk_concept_id lk) = lower <$> concept_id item ∧
      lk_src_name lk = SourceName_DRUGBANK.
Proof.
  assert (Hnil : ∃ lookups : list Lookup, [] = PutLookup <$> lookups ∧
            (length lookups ≤ 1)%nat ∧
            (lookups = [] ∨ is_Some (concept_id item)) ∧
            ∀ lk, lk ∈ lookups →
              Some (lk_concept_id lk) = lower <$> concept_id item ∧
              lk_src_name lk = SourceName_DRUGBANK).
  { exists []. split; [done|]. split; [cbn; lia|]. split; [by left|].
    by intros lk ?%elem_of_nil. }
  destruct (label item) as [l|]; [|by intros [= <-]].
  destruct (truthy l); [|by intros [= <-]].
  unfold DrugBankXml._load_label. destruct (concept_id item) as [c|]; [|done].
  cbn [mbind option_bind]. intros [= <-].
  exists [{| lk_label_and_type := lower l ++ "##label"; lk_concept_id := lower c;
             lk_src_name := SourceName_DRUGBANK |}].
  split; [done|]. split; [cbn; lia|]. split; [right; by eexists|].
  by intros lk ->%list_elem_of_singleton.
Qed.

Lemma load_drug_shape p ops :
  load_drug p = Some ops →
  ∃ item lookups,
    _load_therapy p = Some item ∧
    ops = PutIdentity item :: (PutLookup <$> lookups) ∧
    (length lookups ≤ 41)%nat ∧
    (lookups = [] ∨ is_Some (concept_id item)) ∧
    ∀ lk, lk ∈ lookups →
      Some (lk_concept_id lk) = lower <$> concept_id item ∧
      lk_src_name lk = SourceName_DRUGBANK.
Proof.
  unfold DrugBankXml.load_drug.
  destruct (_load_therapy p) as [item|] eqn:Hitem; [|done]. cbn [mbind option_bind].
  destruct (match label item with Some _ => _ | None => _ end)
    as [label_ops|] eqn:Hl; [|done]. cbn [mbind option_bind].
  destruct (match fields item !! "aliases" with Some _ => _ | None => _ end)
    as [alias_ops|] eqn:Ha; [|done]. cbn [mbind option_bind].
  destruct (match fields item !! "trade_names" with Some _ => _ | None => _ end)
    as [trade_name_ops|] eqn:Ht; [|done]. cbn [mbind option_bind].
  intros [= <-].
  apply load_label_shape in Hl as (l1 & -> & Hn1 & Hc1 & Hk1).
  apply (load_list_shape "##alias" "aliases" p item) in Ha
    as (l2 & -> & Hn2 & Hc2 & Hk2); [|done|by left].
  apply (load_list_shape "##trade_name" "trade_names" p item) in Ht
    as (l3 & -> & Hn3 & Hc3 & Hk3); [|done|by right].
  exists item, (l1 ++ l2 ++ l3)%list. split; [done|].
  split; [by rewrite !fmap_app|]. split; [rewrite !length_app; lia|]. split.
  - destruct Hc1 as [->|?]; [|by right]. destruct Hc2 as [->|?]; [|by right].
    destruct Hc3 as [->|?]; [by left|by right].
  - intros lk [?|[?|?]%elem_of_app]%elem_of_app; auto.
Qed.

Lemma load_list_total tag field p item c :
  _load_therapy p = Some item → field = "aliases" ∨ field = "trade_names" →
  is_Some
    match fields item !! field with
    | Some (a :: l) =>
        values ← strings (a :: l);
        match one_per_casefold values with
        | [] => Some []
        | a' :: rest =>
            c ← Some c; Some ((λ x, lookup_item x tag c) <$> (a' :: rest))
        end
    | _ => Some []
    end.
Proof.
  intros Hitem Hfield.
  destruct (fields item !! field) as [[|a l]|] eqn:Hf; [by eexists| |by eexists].
  destruct (load_therapy_fields _ _ _ _ Hitem Hf) as (_ & _ & Hcap).
  destruct (Hcap Hfield) as (values & Hv & _).
  apply AdapterFacts.strings_Some in Hv. rewrite Hv. cbn [mbind option_bind].
  destruct (one_per_casefold values); by eexists.
Qed.

Lemma load_drug_total p :
  has_lists p → is_Some (concept_id p) →
  (∀ field l, field = "aliases" ∨ field = "trade_names" →
     fields p !! field = Some l → Forall is_Some l) →
  ∃ ops, load_drug p = Some ops.
Proof.
  intros Hp [c Hc] Htexts. destruct (load_therapy_total p Hp Htexts) as [item Hitem].
  destruct (load_therapy_scalars _ _ Hitem) as (Hcid & _).
  unfold DrugBankXml.load_drug. rewrite Hitem. cbn [mbind option_bind].
  rewrite Hcid, Hc.
  destruct (load_list_total "##alias" "aliases" p item c Hitem) as [ops2 H2];
    [by left|].
  destruct (load_list_total "##trade_name" "trade_names" p item c Hitem) as [ops3 H3];
    [by right|].
  unfold DrugBankXml._load_aliases, DrugBankXml._load_trade_names.
  rewrite H2, H3. unfold DrugBankXml._load_label.
  destruct (label item) as [l|]; [destruct (truthy l)|];
    cbn [mbind option_bind]; by eexists.
Qed.

Lemma primary_id_exists drug text :
  drugbank_id true text ∈ drug → existsb is_primary_id drug = true.
Proof.
  intros Hin. apply existsb_exists. exists (drugbank_id true text).
  split; [by apply list_elem_of_In|done].
Qed.

Lemma no_primary_id drug :
  (∀ text, drugbank_id true text ∉ drug) → existsb is_primary_id drug = false.
Proof.
  intros Hno. apply not_true_is_false. intros (e & Hin & He)%existsb_exists.
  destruct e as [[|] text|?|?|?|?|?|?|?|]; try done.
  by apply (Hno text), list_elem_of_In.
Qed.

(** X13.  The element loop raises only on a child that its loader
    cannot read.  When every synonym of the drug has the attribute
    [language] and every international brand, product and external
    identifier has the sub-elements that its loader dereferences, the
    loop returns, with a dict that still has its three lists.  When the
    loop returns, every international brand, product and external
    identifier of the drug has these sub-elements; and a synonym
    without [language] whose text is not yet among the aliases makes
    [_load_synonyms] raise. *)
Theorem element_loop_raises_only_on_unreadable_children drug :
  (Forall (λ e, readable e = true) drug →
   ∃ params,
     load_elements (initial_params SourceName_DRUGBANK) drug = Some params ∧
     is_Some (fields params !! "aliases") ∧
     is_Some (fields params !! "other_identifiers") ∧
     is_Some (fields params !! "trade_names")) ∧
  (∀ params,
     load_elements (initial_params SourceName_DRUGBANK) drug = Some params →
     Forall (λ e, has_sub_elements e = true) drug) ∧
  (∀ alias rest params l,
     fields params !! "aliases" = Some l → language alias = None →
     text alias ∉ l → _load_synonyms (alias :: rest) params = None).
Proof.
  split; [|split].
  - intros Hr.
    destruct (load_elements_total drug _ initial_params_lists Hr) as [p Hp].
    destruct (load_elements_spec drug _ _ initial_params_lists Hp)
      as ((? & ? & ?) & _).
    by exists p.
  - intros params. apply load_elements_sub_elements.
  - intros alias rest params l. apply load_synonyms_no_language.
Qed.

Lemma comes_from_text field e s :
  has_texts e = true → field = "aliases" ∨ field = "trade_names" →
  comes_from field e s → is_Some s.
Proof.
  intros Ht Hfield.
  destruct e as [[|] text|text|children|names|children|children|[t|]|texts|];
    cbn [DrugBankXml.comes_from has_texts] in *; try done.
  - intros [_ ->]. by apply bool_decide_eq_true in Ht.
  - intros (_ & alias & Hin%list_elem_of_In & Hlang & <-).
    pose proof (proj1 (forallb_forall _ _) Ht alias Hin) as Ha.
    apply bool_decide_eq_true in Ha. by apply Ha.
  - intros [_ Hin%list_elem_of_In].
    pose proof (proj1 (forallb_forall _ _) Ht _ Hin) as Ha.
    apply bool_decide_eq_true in Ha. destruct s; [by eexists|done].
  - intros (_ & product & Hin%list_elem_of_In & Hfl & Hn).
    pose proof (proj1 (forallb_forall _ _) Ht product Hin) as Ha.
    apply bool_decide_eq_true in Ha. specialize (Ha Hfl). rewrite Hn in Ha.
    destruct s; [by eexists|done].
  - intros [-> _]. by destruct Hfield.
  - intros [-> _]. by destruct Hfield.
Qed.

Lemma transform_drug_total drug text :
  drugbank_id true text ∈ drug →
  Forall (λ e, readable e = true ∧ has_texts e = true) drug →
  ∃ ops, transform_drug drug = Some ops.
Proof.
  intros Hin%primary_id_exists Hwf. unfold DrugBankXml.transform_drug.
  destruct (load_elements_total drug _ initial_params_lists) as [p Hp].
  { eapply Forall_impl; [exact Hwf|]. by intros e [? _]. }
  rewrite Hp. cbn [mbind option_bind].
  destruct (load_elements_spec drug _ _ initial_params_lists Hp)
    as (Hlists & _ & Hc & Hnone & Hsome).
  rewrite Hin in Hc. destruct Hc as [Hc _].
  apply load_drug_total; [done|done|].
  intros field l Hfield Hl.
  destruct (fields (initial_params SourceName_DRUGBANK) !! field) as [l0|] eqn:H0;
    [|apply Hnone in H0; congruence].
  destruct (initial_params_fields _ _ H0) as [-> _].
  destruct (Hsome _ _ H0) as (added & Hadd & HQ & _).
  rewrite Hl in Hadd. injection Hadd as ->. cbn [app].
  eapply Forall_impl; [exact HQ|]. intros s (e & He & Hs). cbn beta in Hs.
  eapply comes_from_text; [|exact Hfield|exact Hs].
  by apply (proj1 (Forall_forall _ _) Hwf e He).
Qed.

(** X14.  A file of drugs that the loaders can read is transformed
    without an exception: every drug has a primary <drugbank-id>, every
    synonym has the attribute [language], every international brand,
    product and external identifier has its sub-elements, and the
    texts that become aliases or trade names (a secondary id, an
    English synonym, the name of a brand or of a flagged product) are
    not empty elements. *)
Theorem well_formed_drugs_are_transformed root :
  (∀ drug, drug ∈ root →
     (∃ text, drugbank_id true text ∈ drug) ∧
     Forall (λ e, readable e = true ∧ has_texts e = true) drug) →
  ∃ ops, _transform_data root = Some ops.
Proof.
  induction root as [|drug rest IH]; intros Hall; cbn [DrugBankXml._transform_data].
  - by eexists.
  - destruct (Hall drug) as [[text Htext] Hwf]; [apply list_elem_of_here|].
    destruct (transform_drug_total drug text Htext Hwf) as [ops ->].
    destruct IH as [ops' ->].
    { intros d Hd. by apply Hall, list_elem_of_further. }
    cbn [mbind option_bind]. by eexists.
Qed.

(** X15.  A drug without a primary <drugbank-id>: whenever the transform
    does not raise on it, all it puts is one item that has neither a
    concept id nor a [label_and_type]; no lookup is put for it. *)
Theorem drug_without_primary_id_yields_no_lookup drug ops :
  (∀ text, drugbank_id true text ∉ drug) →
  transform_drug drug = Some ops →
  ∃ item, ops = [PutIdentity item] ∧ concept_id item = None ∧
          label_and_type item = None.
Proof.
  intros Hno%no_primary_id. unfold DrugBankXml.transform_drug.
  destruct (DrugBankXml.load_elements _ _ _ _ _ _ drug) as [p|] eqn:Hp; [|done].
  destruct (load_elements_spec drug _ _ initial_params_lists Hp)
    as (_ & _ & Hc & _). rewrite Hno in Hc. destruct Hc as [Hc Hlt].
  cbn [mbind option_bind].
  intros (item & lookups & Hitem & -> & _ & Hcid & _)%load_drug_shape.
  destruct (load_therapy_scalars _ _ Hitem) as (Hc' & Hlt' & _).
  exists item. rewrite Hc', Hlt', Hc, Hlt. split; [|done].
  destruct Hcid as [->|[c Hsome]]; [done|]. rewrite Hc', Hc in Hsome. done.
Qed.

(** X16.  What the transform puts for one drug: the identity item
    first, then nothing but lookups, at most 41 of them (one label,
    twenty aliases, twenty trade names); every lookup carries the
    lowercased concept id of the identity item and the source name, and
    the identity item's [label_and_type] is its lowercased concept id
    followed by ##identity. *)
Theorem drug_fan_out drug ops :
  transform_drug drug = Some ops →
  ∃ item lookups,
    ops = PutIdentity item :: (PutLookup <$> lookups) ∧
    (length lookups ≤ 41)%nat ∧
    label_and_type item = (λ c, lower c ++ "##identity") <$> concept_id item ∧
    src_name item = SourceName_DRUGBANK ∧
    ∀ lk, lk ∈ lookups →
      Some (lk_concept_id lk) = lower <$> concept_id item ∧
      lk_src_name lk = SourceName_DRUGBANK.
Proof.
  unfold DrugBankXml.transform_drug.
  destruct (DrugBankXml.load_elements _ _ _ _ _ _ drug) as [p|] eqn:Hp; [|done].
  destruct (load_elements_spec drug _ _ initial_params_lists Hp)
    as (_ & Hsrc & Hc & _).
  cbn [mbind option_bind].
  intros (item & lookups & Hitem & -> & Hlen & _ & Hlk)%load_drug_shape.
  destruct (load_therapy_scalars _ _ Hitem) as (Hc' & Hlt' & _ & _ & Hs').
  exists item, lookups. split; [done|]. split; [done|]. split; [|split; [|done]].
  - rewrite Hc', Hlt'. destruct (existsb is_primary_id drug).
    + by destruct Hc as [_ Hlink].
    + destruct Hc as [-> ->]. done.
  - by rewrite Hs', Hsrc.
Qed.

Lemma put_identity_item p ops item :
  load_drug p = Some ops → PutIdentity item ∈ ops → _load_therapy p = Some item.
Proof.
  intros (item' & lookups & Hitem & -> & _)%load_drug_shape
         [[= ->]|Hin]%elem_of_cons; [done|].
  by apply list_elem_of_fmap in Hin as (? & [=] & _).
Qed.

(** The lists of the identity item put for a drug. *)
Lemma identity_lists drug ops item field l :
  transform_drug drug = Some ops → PutIdentity item ∈ ops →
  fields item !! field = Some l →
  field ∈ ["aliases"; "other_identifiers"; "trade_names"] ∧ l ≠ [] ∧
  Forall (λ s, ∃ e, e ∈ drug ∧ comes_from field e s) l ∧
  ∀ R : option string → Prop,
    (∀ e s, e ∈ drug → unchecked field e s → R s) → repeats_only R l.
Proof.
  unfold DrugBankXml.transform_drug.
  destruct (DrugBankXml.load_elements _ _ _ _ _ _ drug) as [p|] eqn:Hp; [|done].
  destruct (load_elements_spec drug _ _ initial_params_lists Hp)
    as (_ & _ & _ & Hnone & Hsome).
  cbn [mbind option_bind]. intros Hops Hin Hl.
  pose proof (put_identity_item _ _ _ Hops Hin) as Hitem.
  destruct (load_therapy_fields _ _ _ _ Hitem Hl) as (Hfp & Hne & _).
  destruct (fields (initial_params SourceName_DRUGBANK) !! field) as [l0|] eqn:H0;
    [|apply Hnone in H0; congruence].
  destruct (initial_params_fields _ _ H0) as [-> Hfield].
  destruct (Hsome _ _ H0) as (added & Hadd & HQ & Hrep).
  rewrite Hfp in Hadd. injection Hadd as ->. cbn [app] in *.
  split; [done|]. split; [by apply Hne|]. split; [done|].
  intros R HR. apply Hrep; [done|apply repeats_only_nil].
Qed.

(** The trade names of the identity item have no repeated entry; an
    entry of its aliases that stands twice is a secondary id. *)
Lemma identity_trade_names_NoDup drug ops item l :
  transform_drug drug = Some ops → PutIdentity item ∈ ops →
  fields item !! "trade_names" = Some l → NoDup l.
Proof.
  intros Hops Hin Hl.
  destruct (identity_lists _ _ _ _ _ Hops Hin Hl) as (_ & _ & _ & Hrep).
  apply repeats_only_NoDup, Hrep. intros e s _.
  destruct e as [[|] ?|?|?|?|?|?|?|?|]; cbn; (done || by intros [[=] _]).
Qed.

Lemma identity_aliases_repeats drug ops item l :
  transform_drug drug = Some ops → PutIdentity item ∈ ops →
  fields item !! "aliases" = Some l →
  repeats_only (λ s, drugbank_id false s ∈ drug) l.
Proof.
  intros Hops Hin Hl.
  destruct (identity_lists _ _ _ _ _ Hops Hin Hl) as (_ & _ & _ & Hrep).
  apply Hrep. intros e s He.
  destruct e as [[|] ?|?|?|?|?|?|?|?|]; cbn; try done.
  by intros [_ ->].
Qed.

(** X17.  Every list of the identity item put for a drug is one of
    "aliases", "other_identifiers" and "trade_names", is not empty, and
    holds only strings, each of which an element of the drug
    contributed: a secondary drugbank id, an English synonym or an
    international brand for "aliases"; the name of a product flagged
    generic, approved or over the counter for "trade_names"; a prefixed
    external identifier of a known resource or the prefixed CAS number
    for "other_identifiers". *)
Theorem identity_lists_come_from_the_drug drug ops item field l :
  transform_drug drug = Some ops → PutIdentity item ∈ ops →
  fields item !! field = Some l →
  field ∈ ["aliases"; "other_identifiers"; "trade_names"] ∧ l ≠ [] ∧
  (∃ values, l = Some <$> values) ∧
  ∀ s, s ∈ l → ∃ e, e ∈ drug ∧ comes_from field e s.
Proof.
  intros Hops Hin Hl.
  destruct (identity_lists _ _ _ _ _ Hops Hin Hl) as (Hfield & Hne & HQ & _).
  split; [done|]. split; [done|]. split; [|by apply Forall_forall].
  apply texts_strings.
  destruct (decide (field = "other_identifiers")) as [->|Hother].
  - eapply Forall_impl; [exact HQ|]. intros s (e & _ & Hs).
    destruct e as [[|] ?|?|?|?|?|?|[t|]|?|]; cbn in Hs; try done;
      try (by destruct Hs as [[=] _]).
    + by destruct Hs as (_ & ? & ? & ? & ? & _ & _ & _ & _ & ->).
    + by destruct Hs as (_ & _ & ->).
  - assert (Hf : field = "aliases" ∨ field = "trade_names").
    { repeat (apply elem_of_cons in Hfield as [->|Hfield]);
        [by left|done|by right|by apply elem_of_nil in Hfield]. }
    revert Hops Hin. unfold DrugBankXml.transform_drug.
    destruct (DrugBankXml.load_elements _ _ _ _ _ _ drug) as [p|]; [|done].
    cbn [mbind option_bind]. intros Hops Hin.
    pose proof (put_identity_item _ _ _ Hops Hin) as Hitem.
    destruct (load_therapy_fields _ _ _ _ Hitem Hl) as (_ & _ & Hcap).
    destruct (Hcap Hf) as (values & -> & _). apply strings_texts.
Qed.

(** X18.  The "trade_names" of the identity item put for a drug has no
    repeated string. *)
Theorem identity_trade_names_distinct drug ops item l :
  transform_drug drug = Some ops → PutIdentity item ∈ ops →
  fields item !! "trade_names" = Some l → NoDup l.
Proof. apply identity_trade_names_NoDup. Qed.

(** X19.  [_load_approval_status] looks only at which group names
    occur: the order of the groups and their repetitions make no
    difference; "withdrawn" decides whatever else is listed; when none
    of the three names occurs the status stays as it was; and nothing
    but the status is changed. *)
Theorem approval_status_ignores_group_order element element' params :
  (∀ g, g ∈ element ↔ g ∈ element') →
  _load_approval_status element params = _load_approval_status element' params ∧
  (Some "withdrawn" ∈ element →
     approval_status (_load_approval_status element params) = Some WITHDRAWN) ∧
  (Some "withdrawn" ∉ element → Some "approved" ∉ element →
   Some "investigational" ∉ element →
     _load_approval_status element params = params) ∧
  fields (_load_approval_status element params) = fields params ∧
  concept_id (_load_approval_status element params) = concept_id params ∧
  label (_load_approval_status element params) = label params ∧
  label_and_type (_load_approval_status element params) = label_and_type params ∧
  src_name (_load_approval_status element params) = src_name params.
Proof.
  intros Heq. unfold DrugBankXml._load_approval_status. split; [|split; [|split]].
  - by rewrite (bool_decide_ext _ _ (Heq (Some "withdrawn"))),
      (bool_decide_ext _ _ (Heq (Some "approved"))),
      (bool_decide_ext _ _ (Heq (Some "investigational"))).
  - intros Hw. by rewrite bool_decide_eq_true_2.
  - intros H1 H2 H3. by rewrite !bool_decide_eq_false_2.
  - by repeat case_bool_decide.
Qed.

End Schema.

(** *** Concrete runs *)

(** Runs on which the source raises: a synonym without [language]
    ([KeyError]), an international brand without <name>, and a
    secondary id without text, on which [a.casefold()] fails in
    [_load_therapy] ([AttributeError]). *)
Lemma unreadable_drugs_raise :
  demo_transform_drug no_language_drug = None ∧
  demo_transform_drug no_brand_name_drug = None ∧
  demo_transform_drug empty_id_drug = None.
Proof. repeat split; vm_compute; reflexivity. Qed.

Lemma element_loop_raises_only_on_unreadable_children_witness :
  ∃ params,
    DrugBankXml.load_elements lower "chemidplus" "withdrawn" "approved"
      "investigational" (initial_params "DrugBank") aspirin_drug = Some params ∧
    is_Some (fields params !! "aliases") ∧
    is_Some (fields params !! "other_identifiers") ∧
    is_Some (fields params !! "trade_names").
Proof.
  apply (element_loop_raises_only_on_unreadable_children lower "chemidplus"
           "withdrawn" "approved" "investigational" "DrugBank" aspirin_drug).
  apply (bool_decide_unpack _). vm_compute. exact I.
Defined.

Lemma well_formed_drugs_are_transformed_witness :
  ∃ ops, demo_drugbank_transform [aspirin_drug; aspirin_drug] = Some ops.
Proof.
  apply (well_formed_drugs_are_transformed lower "chemidplus" "withdrawn"
           "approved" "investigational" "DrugBank" casefold
           [aspirin_drug; aspirin_drug]).
  assert (Hwf : (∃ text, drugbank_id true text ∈ aspirin_drug) ∧
                Forall (λ e, readable e = true ∧ has_texts e = true) aspirin_drug).
  { split; [exists (Some "DB00945"); apply list_elem_of_here|].
    apply (bool_decide_unpack _). vm_compute. exact I. }
  intros drug Hdrug.
  apply elem_of_cons in Hdrug as [->|Hdrug]; [exact Hwf|].
  apply list_elem_of_singleton in Hdrug as ->. exact Hwf.
Defined.

Lemma drug_without_primary_id_yields_no_lookup_witness :
  ∃ item, anonymous_drug_ops = [PutIdentity item] ∧ concept_id item = None ∧
          label_and_type item = None.
Proof.
  apply (drug_without_primary_id_yields_no_lookup lower "chemidplus" "withdrawn"
           "approved" "investigational" "DrugBank" casefold anonymous_drug).
  - intros text Hin. apply elem_of_cons in Hin as [[=]|Hin].
    by apply list_elem_of_singleton in Hin.
  - vm_compute. reflexivity.
Defined.

Lemma drug_fan_out_witness :
  ∃ item lookups,
    aspirin_drug_ops = PutIdentity item :: (PutLookup <$> lookups) ∧
    (length lookups ≤ 41)%nat ∧
    label_and_type item = (λ c, lower c ++ "##identity") <$> concept_id item ∧
    src_name item = "DrugBank" ∧
    ∀ lk, lk ∈ lookups →
      Some (lk_concept_id lk) = lower <$> concept_id item ∧
      lk_src_name lk = "DrugBank".
Proof.
  apply (drug_fan_out lower "chemidplus" "withdrawn" "approved" "investigational"
           "DrugBank" casefold aspirin_drug).
  vm_compute. reflexivity.
Defined.

Lemma identity_lists_come_from_the_drug_witness :
  "other_identifiers" ∈ ["aliases"; "other_identifiers"; "trade_names"] ∧
  [Some "chemidplus:50-78-2"; Some "chebi:15365"] ≠ [] ∧
  (∃ values, [Some "chemidplus:50-78-2"; Some "chebi:15365"] = Some <$> values) ∧
  ∀ s, s ∈ [Some "chemidplus:50-78-2"; Some "chebi:15365"] →
    ∃ e, e ∈ aspirin_drug ∧
         comes_from lower "chemidplus" "other_identifiers" e s.
Proof.
  apply (identity_lists_come_from_the_drug lower "chemidplus" "withdrawn"
           "approved" "investigational" "DrugBank" casefold
           aspirin_drug aspirin_drug_ops aspirin_drug_item).
  - vm_compute. reflexivity.
  - vm_compute. apply list_elem_of_here.
  - vm_compute. reflexivity.
Defined.

Lemma identity_trade_names_distinct_witness : NoDup [Some "Bufferin"].
Proof.
  apply (identity_trade_names_distinct lower "chemidplus" "withdrawn"
           "approved" "investigational" "DrugBank" casefold
           aspirin_drug aspirin_drug_ops aspirin_drug_item).
  - vm_compute. reflexivity.
  - vm_compute. apply list_elem_of_here.
  - vm_compute. reflexivity.
Defined.

Lemma approval_status_ignores_group_order_witness :
  approval_status
    (_load_approval_status "withdrawn" "approved" "investigational"
       [Some "approved"; Some "withdrawn"] (initial_params "DrugBank"))
  = Some "withdrawn" ∧
  _load_approval_status "withdrawn" "approved" "investigational"
    [Some "approved"; Some "withdrawn"] (initial_params "DrugBank")
  = _load_approval_status "withdrawn" "approved" "investigational"
      [Some "withdrawn"; Some "approved"; Some "approved"] (initial_params "DrugBank").
Proof.
  destruct (approval_status_ignores_group_order "withdrawn" "approved"
              "investigational" [Some "approved"; Some "withdrawn"]
              [Some "withdrawn"; Some "approved"; Some "approved"]
              (initial_params "DrugBank"))
    as (Heq & Hw & _).
  - intros g. rewrite !elem_of_cons, !elem_of_nil. tauto.
  - split; [apply Hw; apply list_elem_of_further, list_elem_of_here|exact Heq].
Defined.

End DrugBankMoreFacts.

(** ** More about the Wikidata transform *)

Module WikidataMoreFacts.

Import PyStr Wikidata WikidataMore Examples MoreExamples.

(** *** The dict of items *)

Lemma dict_get_None {V} k (d : list (string * V)) :
  dict_get k d = None ↔ k ∉ d.*1.
Proof.
  induction d as [|[k' v'] d IH]; cbn.
  - split; [intros _; apply not_elem_of_nil|done].
  - destruct (decide (k' = k)) as [->|Hne].
    + split; [done|]. intros Hk. destruct Hk. apply list_elem_of_here.
    + rewrite IH, not_elem_of_cons.
      split; [intros ?; split; [congruence|done]|by intros [_ ?]].
Qed.

Lemma dict_get_set {V} k (v : V) d : dict_get k (dict_set k v d) = Some v.
Proof.
  induction d as [|[k' v'] d IH]; cbn.
  - by rewrite decide_True.
  - destruct (decide (k' = k)) as [->|Hne]; cbn.
    + by rewrite decide_True.
    + by rewrite decide_False.
Qed.

Lemma dict_set_keys {V} k (v : V) d :
  (dict_set k v d).*1 = if bool_decide (k ∈ d.*1) then d.*1 else (d.*1 ++ [k])%list.
Proof.
  induction d as [|[k' v'] d IH]; cbn.
  - by rewrite bool_decide_eq_false_2 by apply not_elem_of_nil.
  - destruct (decide (k' = k)) as [->|Hne]; cbn.
    + by rewrite bool_decide_eq_true_2 by apply list_elem_of_here.
    + rewrite IH. case_bool_decide as Hin.
      * by rewrite bool_decide_eq_true_2 by by apply list_elem_of_further.
      * rewrite bool_decide_eq_false_2; [done|].
        intros [?|?]%elem_of_cons; [by destruct Hne|done].
Qed.

Lemma identities_lookups {A} (g : A → Lookup) (l : list A) :
  identities ((λ a, PutLookup (g a)) <$> l) = [].
Proof. by induction l. Qed.

Lemma same_identity_refl i : same_identity i i.
Proof. by repeat split. Qed.

Lemma same_identity_alias i aliases :
  same_identity i (set_fields (<["aliases" := aliases]> (fields i)) i).
Proof.
  split; [done|]. split; [done|]. intros attr Hattr. cbn.
  by rewrite lookup_insert_ne.
Qed.

Lemma identities_app ops ops' :
  identities (ops ++ ops') = (identities ops ++ identities ops')%list.
Proof. apply omap_app. Qed.

Section Schema.

Variable IDENTIFIER_PREFIXES : list (string * string).
Variable SourceIDAfterNamespace : string -> option string.
Variable SourceName_members : list string.
Variables SourceName_CHEMIDPLUS SourceName_WIKIDATA NamespacePrefix_WIKIDATA : string.
Variable casefold : string -> string.

#[local] Abbreviation new_item :=
  (Wikidata.new_item IDENTIFIER_PREFIXES SourceIDAfterNamespace
     SourceName_members SourceName_CHEMIDPLUS SourceName_WIKIDATA).
#[local] Abbreviation classify_keys :=
  (Wikidata.classify_keys IDENTIFIER_PREFIXES SourceIDAfterNamespace
     SourceName_members SourceName_CHEMIDPLUS).
#[local] Abbreviation classify_key :=
  (Wikidata.classify_key IDENTIFIER_PREFIXES SourceIDAfterNamespace
     SourceName_members SourceName_CHEMIDPLUS).
#[local] Abbreviation transform_record :=
  (Wikidata.transform_record IDENTIFIER_PREFIXES SourceIDAfterNamespace
     SourceName_members SourceName_CHEMIDPLUS SourceName_WIKIDATA
     NamespacePrefix_WIKIDATA).
#[local] Abbreviation transform_records :=
  (Wikidata.transform_records IDENTIFIER_PREFIXES SourceIDAfterNamespace
     SourceName_members SourceName_CHEMIDPLUS SourceName_WIKIDATA
     NamespacePrefix_WIKIDATA).
#[local] Abbreviation _transform_data :=
  (Wikidata._transform_data IDENTIFIER_PREFIXES SourceIDAfterNamespace
     SourceName_members SourceName_CHEMIDPLUS SourceName_WIKIDATA
     NamespacePrefix_WIKIDATA casefold).
#[local] Abbreviation _load_therapy :=
  (Wikidata._load_therapy SourceName_WIKIDATA casefold).
#[local] Abbreviation cap_aliases := (Wikidata.cap_aliases casefold).
#[local] Abbreviation remap := (Wikidata.remap SourceName_CHEMIDPLUS).
#[local] Abbreviation entity := (WikidataMore.entity NamespacePrefix_WIKIDATA).

Lemma cap_aliases_concept_id item :
  concept_id (cap_aliases item) = concept_id item ∧ label (cap_aliases item) = label item.
Proof.
  unfold Wikidata.cap_aliases. destruct (fields item !! "aliases"); [|done].
  by destruct (20 <? _)%nat.
Qed.

Lemma load_therapy_identities item :
  identities (_load_therapy item) = [cap_aliases item].
Proof.
  unfold Wikidata._load_therapy. cbn [identities omap list_omap].
  change (omap ?f ?l) with (identities l). rewrite identities_app.
  destruct (fields (cap_aliases item) !! "aliases");
    [rewrite identities_lookups|]; by destruct (label (cap_aliases item)).
Qed.

Lemma transform_data_identities (items : list (string * Item)) :
  identities (items ≫= (λ kv, _load_therapy kv.2)) = cap_aliases <$> items.*2.
Proof.
  induction items as [|[k i] items IH]; [done|].
  cbn [mbind list_bind]. rewrite identities_app, load_therapy_identities, IH. done.
Qed.

(** What a record does to the keys of the dict, and to the label and
    the two identifier lists of the items in it. *)
Lemma transform_record_keys (items : list (string * Item)) record items' :
  keyed items →
  transform_record items record = Some items' →
  ∃ it, record !! "item" = Some it ∧
    items'.*1 = (if bool_decide (entity it ∈ items.*1) then items.*1
                 else (items.*1 ++ [entity it])%list) ∧
    keyed items' ∧
    (∀ k i', (k, i') ∈ items' →
       (∃ i, (k, i) ∈ items ∧ same_identity i i') ∨
       (k = entity it ∧ (entity it ∉ items.*1) ∧
        ∃ i, new_item (entity it) record = Some i ∧ same_identity i i')).
Proof.
  intros Hkeyed. unfold Wikidata.transform_record.
  destruct (record !! "item") as [it|]; [|done]. cbn [mbind option_bind].
  cbv zeta. fold (entity it). set (cid := entity it).
  destruct (dict_get cid items) as [old|] eqn:Hget; cbn [mbind option_bind].
  - (* the entity has an item *)
    assert (Hin : cid ∈ items.*1).
    { apply AdapterFacts.dict_get_Some in Hget. apply list_elem_of_fmap. by exists (cid, old). }
    intros H. exists it. split; [done|]. rewrite bool_decide_eq_true_2 by done.
    destruct (record !! "alias") as [alias|].
    + rewrite Hget in H. cbn in H. injection H as <-.
      rewrite dict_set_keys, bool_decide_eq_true_2 by done.
      split; [done|]. split.
      * intros k i [[= -> ->]|?]%AdapterFacts.dict_set_elem; [|by apply Hkeyed].
        cbn. by apply (Hkeyed cid old), AdapterFacts.dict_get_Some.
      * intros k i' [[= -> ->]|?]%AdapterFacts.dict_set_elem.
        -- left. exists old. split; [by apply AdapterFacts.dict_get_Some|].
           apply same_identity_alias.
        -- left. exists i'. split; [done|apply same_identity_refl].
    + injection H as <-. split; [done|]. split; [done|].
      intros k i' ?. left. exists i'. split; [done|apply same_identity_refl].
  - (* a new entity *)
    assert (Hnin : cid ∉ items.*1) by by apply dict_get_None.
    destruct (new_item cid record) as [item|] eqn:Hnew; [|done].
    cbn [mbind option_bind].
    assert (Hcid : concept_id item = cid).
    { unfold Wikidata.new_item in Hnew.
      destruct (classify_keys _ record [] []) as [[o x]|]; [|done].
      by injection Hnew as <-. }
    intros H. exists it. split; [done|]. rewrite bool_decide_eq_false_2 by done.
    destruct (record !! "alias") as [alias|].
    + rewrite dict_get_set in H. cbn in H. injection H as <-.
      rewrite dict_set_keys, (dict_set_keys cid item items).
      rewrite (bool_decide_eq_false_2 (cid ∈ items.*1)) by done.
      rewrite bool_decide_eq_true_2
        by (apply elem_of_app; right; apply list_elem_of_here).
      split; [done|]. split.
      * intros k i [[= -> ->]|[[= -> ->]|?]%AdapterFacts.dict_set_elem]%AdapterFacts.dict_set_elem;
          [done|done|by apply Hkeyed].
      * intros k i' [[= -> ->]|[[= -> ->]|?]%AdapterFacts.dict_set_elem]%AdapterFacts.dict_set_elem.
        -- right. split; [done|]. split; [done|]. exists item. split; [done|].
           apply same_identity_alias.
        -- right. split; [done|]. split; [done|]. exists item.
           split; [done|apply same_identity_refl].
        -- left. exists i'. split; [done|apply same_identity_refl].
    + injection H as <-. rewrite dict_set_keys, bool_decide_eq_false_2 by done.
      split; [done|]. split.
      * intros k i [[= -> ->]|?]%AdapterFacts.dict_set_elem; [done|by apply Hkeyed].
      * intros k i' [[= -> ->]|?]%AdapterFacts.dict_set_elem.
        -- right. split; [done|]. split; [done|]. exists item.
           split; [done|apply same_identity_refl].
        -- left. exists i'. split; [done|apply same_identity_refl].
Qed.

Lemma transform_records_keys records : ∀ items items',
  NoDup items.*1 → keyed items →
  transform_records items records = Some items' →
  NoDup items'.*1 ∧ keyed items' ∧
  ∀ cid, cid ∈ items'.*1 ↔
         cid ∈ items.*1 ∨
         ∃ record it, record ∈ records ∧ record !! "item" = Some it ∧ cid = entity it.
Proof.
  induction records as [|record rest IH]; intros items items' Hnd Hkeyed;
    cbn [Wikidata.transform_records].
  - intros [= <-]. split; [done|]. split; [done|]. intros cid. split; [by left|].
    by intros [?|(r & it & ?%elem_of_nil & _)].
  - destruct (transform_record items record) as [items1|] eqn:H1; [|done].
    cbn [mbind option_bind]. intros Hrest.
    destruct (transform_record_keys _ _ _ Hkeyed H1) as (it & Hit & Hkeys & Hkeyed1 & _).
    assert (Hnd1 : NoDup items1.*1).
    { rewrite Hkeys. case_bool_decide as Hin; [done|].
      apply NoDup_app. split; [done|]. split; [|apply NoDup_singleton].
      by intros x Hx ->%list_elem_of_singleton. }
    destruct (IH _ _ Hnd1 Hkeyed1 Hrest) as (Hnd' & Hkeyed' & Hiff).
    split; [done|]. split; [done|]. intros cid. rewrite Hiff, Hkeys. split.
    + intros [Hin|(r & it' & Hr & ? & ?)].
      * case_bool_decide; [by left|].
        apply elem_of_app in Hin as [?| ->%list_elem_of_singleton]; [by left|].
        right. exists record, it. split; [apply list_elem_of_here|done].
      * right. exists r, it'. split; [by apply list_elem_of_further|done].
    + intros [Hin|(r & it' & [->|Hr]%elem_of_cons & Hit' & ->)].
      * left. case_bool_decide; [done|]. apply elem_of_app. by left.
      * left. rewrite Hit in Hit'. injection Hit' as <-.
        case_bool_decide; [done|]. apply elem_of_app. right. apply list_elem_of_here.
      * right. by exists r, it'.
Qed.

Lemma keyed_keys (items : list (string * Item)) : keyed items → concept_id <$> items.*2 = items.*1.
Proof.
  induction items as [|[k i] items IH]; intros Hk; [done|]. cbn. f_equal.
  - by apply (Hk k i), list_elem_of_here.
  - apply IH. intros k' i' ?. by apply Hk, list_elem_of_further.
Qed.

(** X20.  The Wikidata transform puts one identity item per entity:
    the concept ids of the identity items are pairwise distinct, and
    they are exactly the prefixed last path segments of the "item"
    values of the records. *)
Theorem one_identity_item_per_entity records ops :
  _transform_data records = Some ops →
  NoDup (concept_id <$> identities ops) ∧
  ∀ cid, cid ∈ concept_id <$> identities ops ↔
         ∃ record it, record ∈ records ∧ record !! "item" = Some it ∧
                      cid = NamespacePrefix_WIKIDATA ++ ":" ++ last_field (split "/" it).
Proof.
  unfold Wikidata._transform_data.
  destruct (transform_records [] records) as [items|] eqn:Hitems; [|done].
  cbn [mbind option_bind]. intros [= <-].
  destruct (transform_records_keys records [] items) as (Hnd & Hkeyed & Hiff);
    [apply NoDup_nil_2|by intros ? ? ?%elem_of_nil|done|].
  assert (Hids : concept_id <$> identities (items ≫= (λ kv, _load_therapy kv.2))
                 = items.*1).
  { rewrite transform_data_identities, <- list_fmap_compose.
    rewrite <- (keyed_keys items Hkeyed). apply list_fmap_ext.
    intros ? i _. apply cap_aliases_concept_id. }
  rewrite Hids. split; [done|]. intros cid. rewrite Hiff. split.
  - by intros [?%elem_of_nil|?].
  - by right.
Qed.

(** *** The first record of an entity *)

Lemma same_identity_trans i1 i2 i3 :
  same_identity i1 i2 → same_identity i2 i3 → same_identity i1 i3.
Proof.
  intros (Hc1 & Hl1 & Hf1) (Hc2 & Hl2 & Hf2).
  split; [congruence|]. split; [congruence|].
  intros attr Hattr. by rewrite Hf2, Hf1.
Qed.

Lemma transform_records_app records1 : ∀ records2 items items',
  transform_records items (records1 ++ records2) = Some items' →
  ∃ items1, transform_records items records1 = Some items1 ∧
            transform_records items1 records2 = Some items'.
Proof.
  induction records1 as [|r records1 IH]; intros records2 items items';
    cbn [app Wikidata.transform_records].
  - intros H. by exists items.
  - destruct (transform_record items r) as [items0|]; [|done].
    cbn [mbind option_bind]. apply IH.
Qed.

Lemma transform_records_same_identity records cid item0 : ∀ items items',
  keyed items → cid ∈ items.*1 →
  (∀ i, (cid, i) ∈ items → same_identity item0 i) →
  transform_records items records = Some items' →
  ∀ i, (cid, i) ∈ items' → same_identity item0 i.
Proof.
  induction records as [|record rest IH]; intros items items' Hkeyed Hin Hsame;
    cbn [Wikidata.transform_records].
  - by intros [= <-].
  - destruct (transform_record items record) as [items1|] eqn:H1; [|done].
    cbn [mbind option_bind].
    destruct (transform_record_keys _ _ _ Hkeyed H1)
      as (it & Hit & Hkeys & Hkeyed1 & Hfrom).
    apply IH; [done| |].
    + rewrite Hkeys. case_bool_decide; [done|]. apply elem_of_app. by left.
    + intros i [(i0 & Hi0 & Hs)|(Hcid & Hnin & _)]%Hfrom.
      * eapply same_identity_trans; [by apply Hsame|done].
      * by rewrite <- Hcid in Hnin.
Qed.

(** X21.  The first record of an entity decides its label and its
    identifiers: the identity item put for the entity has the
    "itemLabel" of that record, or no label when the record has none,
    and the two identifier lists that the key loop builds from that
    record; the later records of the entity can only add aliases. *)
Theorem first_record_of_entity_decides pre record post it ops i :
  record !! "item" = Some it →
  (∀ r it', r ∈ pre → r !! "item" = Some it' → entity it' ≠ entity it) →
  _transform_data (pre ++ record :: post) = Some ops →
  PutIdentity i ∈ ops → concept_id i = entity it →
  label i = record !! "itemLabel" ∧
  ∃ other_ids xrefs,
    classify_keys (IDENTIFIER_PREFIXES.*1) record [] [] = Some (other_ids, xrefs) ∧
    fields i !! "other_identifiers" = Some other_ids ∧
    fields i !! "xrefs" = Some xrefs.
Proof.
  intros Hit Hpre. unfold Wikidata._transform_data.
  destruct (transform_records [] (pre ++ record :: post)) as [items|] eqn:Hitems;
    [|done].
  cbn [mbind option_bind]. intros [= <-] ([k item] & Hi & Hkv)%list_elem_of_bind Hcid.
  apply AdapterFacts.wikidata_identity_item in Hi as ->. cbn [snd] in *.
  destruct (cap_aliases_concept_id item) as [Hc Hl]. rewrite Hc in Hcid. rewrite Hl.
  rewrite !AdapterFacts.cap_aliases_other by done.
  (* the dict after the records before, and after the first record *)
  apply transform_records_app in Hitems as (items1 & H1 & H2).
  cbn [Wikidata.transform_records] in H2.
  destruct (transform_record items1 record) as [items2|] eqn:Hrec; [|done].
  cbn [mbind option_bind] in H2.
  destruct (transform_records_keys pre [] items1) as (Hnd1 & Hkeyed1 & Hiff1);
    [apply NoDup_nil_2|by intros ? ? ?%elem_of_nil|done|].
  assert (Hnew : entity it ∉ items1.*1).
  { intros [?%elem_of_nil|(r & it' & Hr & Hit' & Heq)]%Hiff1; [done|].
    by apply (Hpre r it' Hr Hit'). }
  destruct (transform_record_keys _ _ _ Hkeyed1 Hrec)
    as (it0 & Hit0 & Hkeys2 & Hkeyed2 & Hfrom).
  rewrite Hit in Hit0. injection Hit0 as <-.
  rewrite bool_decide_eq_false_2 in Hkeys2 by done.
  destruct (transform_records_keys post items2 items) as (_ & Hkeyed & _);
    [|done|done|].
  { rewrite Hkeys2. apply NoDup_app. split; [done|]. split; [|apply NoDup_singleton].
    by intros x Hx ->%list_elem_of_singleton. }
  assert (k = entity it) as -> by (by rewrite <- (Hkeyed k item Hkv)).
  (* the item that the first record created *)
  assert (Hcreated : ∃ item0, new_item (entity it) record = Some item0).
  { unfold Wikidata.transform_record in Hrec. rewrite Hit in Hrec.
    cbn [mbind option_bind] in Hrec. cbv zeta in Hrec. fold (entity it) in Hrec.
    rewrite (proj2 (dict_get_None _ _) Hnew) in Hrec.
    destruct (new_item (entity it) record) as [item0|]; [by eexists|done]. }
  destruct Hcreated as [item0 Hitem0].
  assert (Hsame : same_identity item0 item).
  { apply (transform_records_same_identity post (entity it) item0 items2 items);
      [done| | |done|done].
    - rewrite Hkeys2. apply elem_of_app. right. apply list_elem_of_here.
    - intros i' [(i0 & Hi0 & _)|(_ & _ & i0 & Hi0 & Hs)]%Hfrom.
      + destruct Hnew. apply list_elem_of_fmap. by exists (entity it, i0).
      + rewrite Hitem0 in Hi0. by injection Hi0 as <-. }
  destruct Hsame as (_ & Hlabel & Hfields).
  rewrite Hlabel, !Hfields by done.
  destruct (AdapterFacts.new_item_fields _ _ _ _ _ _ _ _ Hitem0)
    as (o & x & Hck & Ho & Hx).
  split.
  - unfold Wikidata.new_item in Hitem0. rewrite Hck in Hitem0.
    by injection Hitem0 as <-.
  - by exists o, x.
Qed.

(** *** When the transform raises *)

Section Registry.

(** The dict [IDENTIFIER_PREFIXES] has an entry for every key after the
    renaming of casRegistry, and [SourceIDAfterNamespace] has a member
    for every normalizer source among them but chembl. *)
Hypothesis prefixes_closed : ∀ k,
  k ∈ IDENTIFIER_PREFIXES.*1 → is_Some (dict_get (remap k) IDENTIFIER_PREFIXES).
Hypothesis after_namespace_closed : ∀ k,
  k ∈ IDENTIFIER_PREFIXES.*1 → upper (remap k) ∈ SourceName_members →
  remap k ≠ "chembl" → is_Some (SourceIDAfterNamespace (upper (remap k))).

Lemma classify_key_total k v :
  k ∈ IDENTIFIER_PREFIXES.*1 → is_Some (classify_key k v).
Proof.
  intros Hk. unfold Wikidata.classify_key, Wikidata.normalizer_srcs.
  destruct (prefixes_closed k Hk) as [prefix Hp]. fold (remap k). rewrite Hp.
  cbn [mbind option_bind]. case_bool_decide as Hsrc; [|by eexists].
  case_bool_decide as Hc; cbn [negb]; [by eexists|].
  destruct (after_namespace_closed k Hk Hsrc Hc) as [infix ->]. by eexists.
Qed.

Lemma classify_keys_total keys record : ∀ o x,
  (∀ k, k ∈ keys → k ∈ IDENTIFIER_PREFIXES.*1) →
  is_Some (classify_keys keys record o x).
Proof.
  induction keys as [|k keys IH]; intros o x Hkeys; cbn [Wikidata.classify_keys].
  - by eexists.
  - assert (Hrest : ∀ k', k' ∈ keys → k' ∈ IDENTIFIER_PREFIXES.*1).
    { intros k' ?. by apply Hkeys, list_elem_of_further. }
    destruct (record !! k) as [v|]; [|by apply IH].
    destruct (classify_key_total k v) as [[s|s] ->];
      [apply Hkeys, list_elem_of_here|..]; cbn [mbind option_bind]; by apply IH.
Qed.

Lemma transform_record_total items record :
  is_Some (record !! "item") → is_Some (transform_record items record).
Proof.
  intros [it Hit]. unfold Wikidata.transform_record. rewrite Hit.
  cbn [mbind option_bind]. cbv zeta. fold (entity it). set (cid := entity it).
  destruct (dict_get cid items) as [old|] eqn:Hget; cbn [mbind option_bind].
  - destruct (record !! "alias"); [|by eexists]. rewrite Hget. by eexists.
  - unfold Wikidata.new_item.
    destruct (classify_keys_total (IDENTIFIER_PREFIXES.*1) record [] [])
      as [[o x] ->]; [done|]. cbn [mbind option_bind].
    destruct (record !! "alias"); [|by eexists]. rewrite dict_get_set. by eexists.
Qed.

Lemma transform_records_total records : ∀ items,
  (∀ record, record ∈ records → is_Some (record !! "item")) →
  is_Some (transform_records items records).
Proof.
  induction records as [|record rest IH]; intros items Hall;
    cbn [Wikidata.transform_records].
  - by eexists.
  - destruct (transform_record_total items record) as [items1 ->];
      [apply Hall, list_elem_of_here|]. cbn [mbind option_bind].
    apply IH. intros r ?. by apply Hall, list_elem_of_further.
Qed.

End Registry.

Lemma transform_records_item records : ∀ items items' record,
  transform_records items records = Some items' → record ∈ records →
  is_Some (record !! "item").
Proof.
  induction records as [|r rest IH]; intros items items' record;
    cbn [Wikidata.transform_records].
  - by intros _ ?%elem_of_nil.
  - destruct (transform_record items r) as [items1|] eqn:H1; [|done].
    cbn [mbind option_bind]. intros Hrest [->|Hin]%elem_of_cons; [|by eapply IH].
    unfold Wikidata.transform_record in H1. by destruct (r !! "item").
Qed.

(** X22.  With a registry that has a prefix for every identifier key
    and a member of [SourceIDAfterNamespace] for every normalizer
    source, the transform raises exactly when some record has no
    "item" key. *)
Theorem transform_raises_iff_item_is_missing records :
  (∀ k, k ∈ IDENTIFIER_PREFIXES.*1 →
        is_Some (dict_get (remap k) IDENTIFIER_PREFIXES)) →
  (∀ k, k ∈ IDENTIFIER_PREFIXES.*1 → upper (remap k) ∈ SourceName_members →
        remap k ≠ "chembl" → is_Some (SourceIDAfterNamespace (upper (remap k)))) →
  _transform_data records = None ↔ ∃ record, record ∈ records ∧ record !! "item" = None.
Proof.
  intros H1 H2. unfold Wikidata._transform_data. split.
  - destruct (transform_records [] records) as [items|] eqn:Hitems; [done|].
    intros _.
    destruct (Forall_Exists_dec (λ r : gmap string string, is_Some (r !! "item"))
                (λ r, r !! "item" = None)
                (λ r, match r !! "item" as o
                            return {is_Some o} + {o = None} with
                      | Some it => left (ex_intro _ it eq_refl)
                      | None => right eq_refl
                      end) records) as [Hall|Hex].
    + destruct (transform_records_total H1 H2 records []) as [items Hsome];
        [by apply Forall_forall|congruence].
    + apply Exists_exists in Hex as (record & ? & ?). by exists record.
  - intros (record & Hr & Hit).
    destruct (transform_records [] records) as [items|] eqn:Hitems; [|done].
    destruct (transform_records_item _ _ _ _ Hitems Hr) as [it Hsome]. congruence.
Qed.

End Schema.

(** *** [_sqlite_str] *)

Lemma double_quotes_undone s :
  replace_from "''" "'" 0 (replace_from "'" "''" 0 s) = s.
Proof.
  induction s as [|c s IH]; [done|].
  cbn [replace_from]. unfold startswith at 1. cbn [strip_prefix].
  destruct (Ascii.eqb "'" c) eqn:Hc.
  - apply Ascii.eqb_eq in Hc as <-.
    rewrite !RxNormMoreFacts.append_cons, RxNormMoreFacts.append_empty.
    cbn [replace_from String.length Nat.sub]. unfold startswith. cbn [strip_prefix].
    rewrite !Ascii.eqb_refl.
    rewrite RxNormMoreFacts.append_cons, RxNormMoreFacts.append_empty. by rewrite IH.
  - cbn [replace_from]. unfold startswith at 1. cbn [strip_prefix]. rewrite Hc.
    by rewrite IH.
Qed.

(** X23.  [_sqlite_str] only doubles the single quotes: replacing every
    pair of quotes by one quote gives the string back, so no two strings
    are sanitized to the same text; the test for NULL changes
    nothing. *)
Theorem sqlite_str_is_reversible s :
  replace "''" "'" (_sqlite_str s) = s ∧
  _sqlite_str s = replace "'" "''" s ∧
  ∀ s', _sqlite_str s = _sqlite_str s' → s = s'.
Proof.
  assert (Hdef : ∀ t, _sqlite_str t = replace "'" "''" t).
  { intros t. unfold _sqlite_str. case_bool_decide as Hn; [by subst t|done]. }
  assert (Hback : ∀ t, replace "''" "'" (_sqlite_str t) = t).
  { intros t. rewrite Hdef. apply double_quotes_undone. }
  split; [done|]. split; [done|].
  intros s' Heq. by rewrite <- (Hback s), Heq, Hback.
Qed.

(** *** Concrete runs *)

Lemma demo_prefixes_closed k :
  k ∈ demo_IDENTIFIER_PREFIXES.*1 →
  is_Some (dict_get (remap "ChemIDplus" k) demo_IDENTIFIER_PREFIXES).
Proof.
  intros Hk. cbn in Hk.
  repeat (apply elem_of_cons in Hk as [->|Hk]; [vm_compute; by eexists|]).
  by apply elem_of_nil in Hk.
Qed.

Lemma demo_after_namespace_closed k :
  k ∈ demo_IDENTIFIER_PREFIXES.*1 →
  upper (remap "ChemIDplus" k) ∈ demo_SourceName_members →
  remap "ChemIDplus" k ≠ "chembl" →
  is_Some (demo_SourceIDAfterNamespace (upper (remap "ChemIDplus" k))).
Proof.
  intros Hk. cbn in Hk.
  repeat (apply elem_of_cons in Hk as [->|Hk];
          [intros Hin Hne;
           first [vm_compute; by eexists
                 |exfalso; by apply Hne
                 |exfalso; revert Hin; apply (bool_decide_unpack (¬ _));
                  vm_compute; exact I]|]).
  by apply elem_of_nil in Hk.
Qed.

Lemma one_identity_item_per_entity_witness :
  NoDup (concept_id <$> identities reordered_ops) ∧
  ∀ cid, cid ∈ concept_id <$> identities reordered_ops ↔
         ∃ record it, record ∈ reordered_records ∧ record !! "item" = Some it ∧
                      cid = "wikidata" ++ ":" ++ last_field (split "/" it).
Proof.
  apply (one_identity_item_per_entity demo_IDENTIFIER_PREFIXES
           demo_SourceIDAfterNamespace demo_SourceName_members "ChemIDplus"
           "Wikidata" "wikidata" casefold reordered_records reordered_ops).
  vm_compute. reflexivity.
Defined.

Lemma first_record_of_entity_decides_witness :
  label reordered_aspirin_item = aspirin_first_record !! "itemLabel" ∧
  ∃ other_ids xrefs,
    classify_keys demo_IDENTIFIER_PREFIXES demo_SourceIDAfterNamespace
      demo_SourceName_members "ChemIDplus" (demo_IDENTIFIER_PREFIXES.*1)
      aspirin_first_record [] [] = Some (other_ids, xrefs) ∧
    fields reordered_aspirin_item !! "other_identifiers" = Some other_ids ∧
    fields reordered_aspirin_item !! "xrefs" = Some xrefs.
Proof.
  apply (first_record_of_entity_decides demo_IDENTIFIER_PREFIXES
           demo_SourceIDAfterNamespace demo_SourceName_members "ChemIDplus"
           "Wikidata" "wikidata" casefold [water_record] aspirin_first_record
           [aspirin_second_record] "http://www.wikidata.org/entity/Q18216"
           reordered_ops reordered_aspirin_item).
  - vm_compute. reflexivity.
  - intros r it' ->%list_elem_of_singleton Hit'. vm_compute in Hit'.
    injection Hit' as <-. vm_compute. discriminate.
  - vm_compute. reflexivity.
  - apply (list_elem_of_lookup_2 _ 2). vm_compute. reflexivity.
  - vm_compute. reflexivity.
Defined.

Lemma transform_raises_iff_item_is_missing_witness :
  demo_wikidata_transform [water_record; ∅] = None.
Proof.
  apply (transform_raises_iff_item_is_missing demo_IDENTIFIER_PREFIXES
           demo_SourceIDAfterNamespace demo_SourceName_members "ChemIDplus"
           "Wikidata" "wikidata" casefold [water_record; ∅]
           demo_prefixes_closed demo_after_namespace_closed).
  exists ∅. split; [apply list_elem_of_further, list_elem_of_here|done].
Defined.

End WikidataMoreFacts.

(** ** More about the backfill job *)

Module BackfillMoreFacts.

Import PyStr Backfill BackfillMore Examples MoreExamples.

(** *** The two derived lists *)

Lemma filter_partition_Permutation {A} (f : A → bool) l :
  (List.filter f l ++ List.filter (λ a, negb (f a)) l)%list ≡ₚ l.
Proof.
  induction l as [|a l IH]; [done|]. cbn. destruct (f a); cbn.
  - by f_equiv.
  - rewrite <- Permutation_middle. by f_equiv.
Qed.

Lemma filter_sublist {A} (f : A → bool) l : sublist (List.filter f l) l.
Proof.
  induction l as [|a l IH]; cbn; [done|].
  destruct (f a); [by apply sublist_skip|by apply sublist_cons].
Qed.

(** X24.  The job neither drops, invents nor repeats an identifier: the
    two lists it derives for a record hold, taken together, exactly the
    identifiers of the stored "other_identifiers" and "xrefs" lists,
    each as often as it is stored, and each derived list keeps the
    stored order. *)
Theorem reclassify_keeps_every_identifier srcs r o x :
  reclassify srcs r = Ok (o, x) →
  ∃ ids1 ids2,
    legacy_ids r "other_identifiers" = AvS <$> ids1 ∧
    legacy_ids r "xrefs" = AvS <$> ids2 ∧
    (o ++ x)%list ≡ₚ (ids1 ++ ids2)%list ∧
    sublist o (ids1 ++ ids2)%list ∧ sublist x (ids1 ++ ids2)%list.
Proof.
  intros (ids1 & ids2 & H1 & H2 & -> & ->)%BackfillFacts.reclassify_Ok.
  exists ids1, ids2. split; [done|]. split; [done|].
  split; [apply filter_partition_Permutation|].
  split; apply filter_sublist.
Qed.

(** *** When the job raises *)

Lemma add_xrefs_other_ids_readable srcs r attr o x :
  (∃ ox, _add_xrefs_other_ids srcs r attr o x = Ok ox) ↔ readable (attrs r !! attr).
Proof.
  unfold _add_xrefs_other_ids, readable.
  destruct (attrs r !! attr) as [[s|n| |prev]|].
  - split; [by intros [? [=]]|done].
  - split; [by intros [? [=]]|done].
  - split; [done|by eexists].
  - split.
    + intros [[o' x'] H]. by eapply BackfillFacts.classify_ids_Ok.
    + intros [ids ->]. rewrite BackfillFacts.classify_ids_strings. by eexists.
  - split; [done|by eexists].
Qed.

Lemma reclassify_readable srcs r :
  (∃ ox, reclassify srcs r = Ok ox) ↔
  readable (attrs r !! "other_identifiers") ∧ readable (attrs r !! "xrefs").
Proof.
  unfold reclassify. split.
  - intros [ox H].
    destruct (_add_xrefs_other_ids srcs r "other_identifiers" [] [])
      as [[o1 x1]| |] eqn:H1; cbn in H; [|done..].
    split; eapply add_xrefs_other_ids_readable; by eexists.
  - intros [[[o1 x1] H1]%(add_xrefs_other_ids_readable srcs r _ [] []) H2].
    rewrite H1. cbn. by apply add_xrefs_other_ids_readable.
Qed.

(** X25.  Over a table with distinct keys and with fuel for one page
    per item, the job returns exactly when every record it reaches
    (not of ChEMBL, with ##identity in its [label_and_type]) has
    identifier attributes it can read: each of "other_identifiers" and
    "xrefs" absent, a null marker, or a list of strings.  A string, a
    number or a list with another kind of element makes it raise. *)
Theorem job_returns_iff_identifiers_readable page_size srcs fuel db :
  (0 < page_size)%nat →
  NoDup (key_of <$> therapies db) →
  (length (therapies db) < fuel)%nat →
  (∃ db', update_xrefs_other_ids page_size srcs fuel db = Ok db') ↔
  ∀ r, r ∈ therapies db → is_processed r = true →
       readable (attrs r !! "other_identifiers") ∧ readable (attrs r !! "xrefs").
Proof.
  intros Hps Hnd Hfuel.
  destruct (BackfillFacts.job_spec page_size srcs fuel db Hps Hnd) as [Hpartial Htotal].
  split.
  - intros [db' Hrun] r Hr Hp.
    destruct (Hpartial db' Hrun) as (_ & _ & Hc).
    apply (proj1 (reclassify_readable srcs r)).
    by apply (proj1 (Forall_forall _ _) Hc r Hr).
  - intros Hall. apply Htotal; [done|]. apply Forall_forall.
    intros r Hr Hp. apply (proj2 (reclassify_readable srcs r)). by apply Hall.
Qed.

(** *** What a run changes *)

Lemma requests_for_key srcs r k e :
  (k, e) ∈ requests_for srcs r → k = key_of r.
Proof.
  unfold requests_for. destruct (is_processed r); [|by intros ?%elem_of_nil].
  destruct (reclassify srcs r) as [[o x]| |]; [|by intros ?%elem_of_nil..].
  unfold update_requests.
  intros [[= -> _]|Hin]%elem_of_cons; [done|].
  destruct x, o; cbn in Hin;
    repeat (apply elem_of_cons in Hin as [[= -> _]|Hin]; [done|]);
    by apply elem_of_nil in Hin.
Qed.

(** X26.  Over a table with distinct keys, a run that returns creates
    no item and deletes none (the keys of the table are as before, in
    the same order), and a record the loop does not reach (a ChEMBL
    record, or one without ##identity in its [label_and_type]) is
    stored exactly as before and is the target of no new request. *)
Theorem job_touches_only_reached_records page_size srcs fuel db db' :
  (0 < page_size)%nat →
  NoDup (key_of <$> therapies db) →
  update_xrefs_other_ids page_size srcs fuel db = Ok db' →
  key_of <$> therapies db' = key_of <$> therapies db ∧
  ∀ r, r ∈ therapies db → is_processed r = false →
       stored (key_of r) (therapies db') = Some r ∧
       ∀ e, (key_of r, e) ∈ requests db' → (key_of r, e) ∈ requests db.
Proof.
  intros Hps Hnd Hrun.
  destruct (proj1 (BackfillFacts.job_spec page_size srcs fuel db Hps Hnd) db' Hrun)
    as (Ht & Hq & _).
  split.
  - rewrite Ht, <- list_fmap_compose. apply list_fmap_ext.
    intros ? r _. apply BackfillFacts.key_of_migrate.
  - intros r Hr Hp. split.
    + rewrite (BackfillFacts.job_stored page_size srcs fuel db db' r) by done.
      by rewrite BackfillFacts.migrate_unprocessed.
    + intros e. rewrite Hq. intros [?|Hin]%elem_of_app; [done|].
      apply list_elem_of_bind in Hin as (r' & Hin & Hr').
      pose proof (requests_for_key _ _ _ _ Hin) as Hk.
      assert (r' = r) as ->.
      { pose proof (BackfillFacts.stored_elem _ _ _ Hnd Hr eq_refl) as H1.
        pose proof (BackfillFacts.stored_elem _ _ _ Hnd Hr' (eq_sym Hk)) as H2.
        congruence. }
      rewrite BackfillFacts.requests_for_unprocessed in Hin by done.
      by apply elem_of_nil in Hin.
Qed.

(** X27.  The outcome of the job does not depend on how the scan is
    paged: over a table with distinct keys, two runs that return, with
    any two page sizes, end with the same table and the same sequence
    of update requests. *)
Theorem job_independent_of_page_size page_size1 page_size2 srcs fuel1 fuel2 db db1 db2 :
  (0 < page_size1)%nat → (0 < page_size2)%nat →
  NoDup (key_of <$> therapies db) →
  update_xrefs_other_ids page_size1 srcs fuel1 db = Ok db1 →
  update_xrefs_other_ids page_size2 srcs fuel2 db = Ok db2 →
  db1 = db2.
Proof.
  intros Hp1 Hp2 Hnd H1 H2.
  destruct (proj1 (BackfillFacts.job_spec page_size1 srcs fuel1 db Hp1 Hnd) db1 H1)
    as (Ht1 & Hq1 & _).
  destruct (proj1 (BackfillFacts.job_spec page_size2 srcs fuel2 db Hp2 Hnd) db2 H2)
    as (Ht2 & Hq2 & _).
  destruct db1, db2. cbn in *. congruence.
Qed.

(** *** Concrete runs *)

Lemma reclassify_keeps_every_identifier_witness :
  ∃ ids1 ids2,
    legacy_ids wikidata_stored "other_identifiers" = AvS <$> ids1 ∧
    legacy_ids wikidata_stored "xrefs" = AvS <$> ids2 ∧
    (["chembl:CHEMBL25"] ++ ["pubchem.compound:2244"])%list ≡ₚ (ids1 ++ ids2)%list ∧
    sublist ["chembl:CHEMBL25"] (ids1 ++ ids2)%list ∧
    sublist ["pubchem.compound:2244"] (ids1 ++ ids2)%list.
Proof.
  apply (reclassify_keeps_every_identifier demo_normalizer_srcs wikidata_stored).
  vm_compute. reflexivity.
Defined.

Lemma job_returns_iff_identifiers_readable_witness :
  (∃ db', update_xrefs_other_ids 2 demo_normalizer_srcs 10 demo_db = Ok db') ↔
  ∀ r, r ∈ therapies demo_db → is_processed r = true →
       readable (attrs r !! "other_identifiers") ∧ readable (attrs r !! "xrefs").
Proof.
  apply (job_returns_iff_identifiers_readable 2 demo_normalizer_srcs 10 demo_db).
  - lia.
  - exact BackfillFacts.demo_table_keys.
  - vm_compute. lia.
Defined.

Lemma job_touches_only_reached_records_witness :
  key_of <$> therapies first_run_db = key_of <$> therapies demo_db ∧
  ∀ r, r ∈ therapies demo_db → is_processed r = false →
       stored (key_of r) (therapies first_run_db) = Some r ∧
       ∀ e, (key_of r, e) ∈ requests first_run_db → (key_of r, e) ∈ requests demo_db.
Proof.
  apply (job_touches_only_reached_records 2 demo_normalizer_srcs 10 demo_db first_run_db).
  - lia.
  - exact BackfillFacts.demo_table_keys.
  - vm_compute. reflexivity.
Defined.

Lemma job_independent_of_page_size_witness : first_run_db = one_per_page_db.
Proof.
  apply (job_independent_of_page_size 2 1 demo_normalizer_srcs 10 10 demo_db).
  - lia.
  - lia.
  - exact BackfillFacts.demo_table_keys.
  - vm_compute. reflexivity.
  - vm_compute. reflexivity.
Defined.

End BackfillMoreFacts.

(** ** Uniqueness within the stored lists *)

Module UniquenessFacts.

Import PyStr.

(** *** RxNorm: every list of a loaded record *)

Section RxNormLists.

Import RxNorm RxNormFiles.

Variables (XS AS : list string) (NP : string -> option string).
Variables (src presc : string) (drug_forms : list string).

#[local] Abbreviation pass1 := (RxNorm.pass1 XS AS NP presc drug_forms).
#[local] Abbreviation _add_str_field := (RxNorm._add_str_field presc).
#[local] Abbreviation _add_xref_assoc := (RxNorm._add_xref_assoc XS AS NP).

Lemma new_record_distinct cid : lists_distinct (new_record cid).
Proof. intros field l. cbn. by rewrite lookup_empty. Qed.

Lemma add_term_distinct r field term :
  lists_distinct r → lists_distinct (add_term r field term).
Proof.
  intros Hr other l. cbn. destruct (decide (other = field)) as [->|Hne].
  - apply AdapterFacts.add_term_to_field_NoDup. apply Hr.
  - rewrite RxNormMoreFacts.add_term_to_field_other by done. apply Hr.
Qed.

Lemma add_terms_distinct field terms : ∀ r,
  lists_distinct r → lists_distinct (foldl (λ r tn, add_term r field tn) r terms).
Proof.
  induction terms as [|tn terms IH]; intros r Hr; [done|].
  cbn. by apply IH, add_term_distinct.
Qed.

Lemma add_str_field_distinct r row pin sbdfs :
  lists_distinct r → lists_distinct (_add_str_field r row pin drug_forms sbdfs).1.1.
Proof.
  intros Hr. unfold RxNorm._add_str_field.
  repeat (match goal with |- context [if ?b then _ else _] => destruct b end);
    try destruct (first_drug_form _ _); cbn [fst];
    try (by apply add_term_distinct); done.
Qed.

Lemma add_xref_assoc_distinct r row r' :
  _add_xref_assoc r row = Some r' → lists_distinct r → lists_distinct r'.
Proof.
  unfold RxNorm._add_xref_assoc.
  repeat (match goal with |- context [if ?b then _ else _] => destruct b end);
    try destruct (NP _); cbn [mbind option_bind]; try done;
    repeat case_bool_decide; intros [= <-] Hr; try done;
    by apply add_term_distinct.
Qed.

Lemma pass1_distinct rows t :
  pass1 empty_tables rows = Some t →
  ∀ cid r, (cid, r) ∈ records t → lists_distinct r.
Proof.
  intros Hp.
  eapply (RxNormMoreFacts.pass1_records_invariant XS AS NP presc drug_forms
            lists_distinct rows); [| | | |exact Hp].
  - intros row r r' pin sbdfs prefix _ _ _ _ _ HI Hx.
    eapply add_xref_assoc_distinct; [exact Hx|]. apply add_str_field_distinct.
    destruct HI as [?| ->]; [done|apply new_record_distinct].
  - done.
  - split; [apply NoDup_nil_2|]. by intros ? ? ?%elem_of_nil.
  - by intros ? ? ?%elem_of_nil.
Qed.

Lemma add_brands_distinct brands ls : ∀ r,
  lists_distinct r →
  lists_distinct
    (foldl (λ r label, foldl (λ r tn, add_term r "trade_names" tn) r
                             (brands_of_label brands label)) r ls).
Proof.
  induction ls as [|x ls IH]; intros r Hr; [done|].
  cbn [foldl]. by apply IH, add_terms_distinct.
Qed.

Lemma get_trade_names_distinct record pin brands sbdfs record' :
  _get_trade_names record pin brands sbdfs = Some record' →
  lists_distinct record → lists_distinct record'.
Proof.
  unfold _get_trade_names. destruct (label record) as [l|]; [|done].
  cbn [mbind option_bind]. intros H Hr. revert H.
  match goal with |- context [foldl ?f record (?x :: ?ls)] =>
    pose proof (add_brands_distinct brands (x :: ls) record Hr) as H1;
    set (record1 := foldl f record (x :: ls)) in *
  end.
  destruct (sbdfs !! lower l) as [tns|]; intros [= <-]; [|done].
  by apply add_terms_distinct.
Qed.

Lemma pass2_loaded_distinct t rs ops r' :
  pass2 src t rs = Some ops → LoadTherapy r' ∈ ops →
  (∀ cid r, (cid, r) ∈ rs → lists_distinct r) → lists_distinct r'.
Proof.
  revert ops. induction rs as [|[cid r] rs IH]; intros ops; cbn [pass2].
  - by intros [= <-] ?%elem_of_nil.
  - destruct (pass2_record src t r) as [ops1|] eqn:H1; [|done].
    cbn [mbind option_bind].
    destruct (pass2 src t rs) as [ops2|]; [|done]. cbn [mbind option_bind].
    intros [= <-] [Hop|Hop]%elem_of_app Hrs.
    + unfold pass2_record in H1. destruct (label r) as [l|] eqn:Hl;
        [|injection H1 as <-; by apply elem_of_nil in Hop].
      destruct (_get_trade_names r _ _ _) as [r1|] eqn:Hg; [|done].
      cbn [mbind option_bind] in H1. injection H1 as <-.
      apply elem_of_app in Hop as [Hop|Hop].
      * by apply list_elem_of_fmap in Hop as (? & [=] & _).
      * apply list_elem_of_singleton in Hop. injection Hop as ->.
        intros field l'. cbn [fields set_PIN].
        eapply (get_trade_names_distinct _ _ _ _ _ Hg), (Hrs cid r).
        apply list_elem_of_here.
    + eapply IH; [done|done|]. intros c r0 Hin.
      by apply (Hrs c r0), list_elem_of_further.
Qed.

Lemma transform_data_distinct rows ops r :
  RxNorm._transform_data XS AS NP src presc drug_forms rows = Some ops →
  LoadTherapy r ∈ ops → lists_distinct r.
Proof.
  unfold RxNorm._transform_data.
  destruct (pass1 empty_tables rows) as [t|] eqn:Hp; [|done].
  cbn [mbind option_bind]. intros Hops Hr.
  eapply pass2_loaded_distinct; [exact Hops|exact Hr|].
  by apply (pass1_distinct rows).
Qed.

End RxNormLists.

(** *** DrugBank: the identity item of a drug of the file *)

Section DrugBankLists.

Import DrugBank DrugBankXml.

Variable NamespacePrefix : string -> string.
Variable casRegistry_prefix : string.
Variables WITHDRAWN APPROVED INVESTIGATIONAL : string.
Variable SourceName_DRUGBANK : string.
Variable casefold : string -> string.

#[local] Abbreviation transform_drug :=
  (DrugBankXml.transform_drug NamespacePrefix casRegistry_prefix
     WITHDRAWN APPROVED INVESTIGATIONAL SourceName_DRUGBANK casefold).
#[local] Abbreviation _transform_data :=
  (DrugBankXml._transform_data NamespacePrefix casRegistry_prefix
     WITHDRAWN APPROVED INVESTIGATIONAL SourceName_DRUGBANK casefold).

Lemma transform_data_put root : ∀ ops op,
  _transform_data root = Some ops → op ∈ ops →
  ∃ drug ops', drug ∈ root ∧ transform_drug drug = Some ops' ∧ op ∈ ops'.
Proof.
  induction root as [|drug rest IH]; intros ops op; cbn [DrugBankXml._transform_data].
  - by intros [= <-] ?%elem_of_nil.
  - destruct (transform_drug drug) as [ops1|] eqn:H1; [|done].
    cbn [mbind option_bind].
    destruct (_transform_data rest) as [ops2|]; [|done]. cbn [mbind option_bind].
    intros [= <-] [Hop|Hop]%elem_of_app.
    + exists drug, ops1. split; [apply list_elem_of_here|done].
    + destruct (IH _ _ eq_refl Hop) as (d & ops' & Hd & Ht & Hin).
      exists d, ops'. split; [by apply list_elem_of_further|done].
Qed.

End DrugBankLists.

(** *** Wikidata: the aliases of an identity item *)

Lemma wikidata_aliases_NoDup prefixes after_namespace members chemidplus wikidata
    wikidata_prefix casefold records ops i l :
  Wikidata._transform_data prefixes after_namespace members chemidplus
    wikidata wikidata_prefix casefold records = Some ops →
  Wikidata.PutIdentity i ∈ ops →
  Wikidata.fields i !! "aliases" = Some l → NoDup l.
Proof.
  unfold Wikidata._transform_data.
  destruct (Wikidata.transform_records _ _ _ _ _ _ [] records) as [items|]; [|done].
  cbn [mbind option_bind]. intros [= <-] (kv & Hi & _)%list_elem_of_bind.
  apply AdapterFacts.wikidata_identity_item in Hi as ->.
  rewrite AdapterFacts.cap_aliases_lookup.
  destruct (Wikidata.fields kv.2 !! "aliases") as [l0|]; [|done].
  destruct (20 <? _)%nat; [done|]. intros [= <-]. apply NoDup_elements.
Qed.

(** C9 (counterexample).  DrugBank, a drug with the two English
    synonyms "Aspirin" and "ASPIRIN": the identity item that the
    transform puts has both among its aliases, and the two are equal
    after case folding.  A drug that lists the secondary id "BTD00024"
    twice: the identity item has it twice among its aliases. *)
Lemma C9_case_variants_both_stored :
  MoreExamples.stored_list MoreExamples.case_variant_drug "aliases"
  = Some [Some "Aspirin"; Some "ASPIRIN"] ∧
  casefold "Aspirin" = casefold "ASPIRIN" ∧
  "Aspirin" ≠ "ASPIRIN" ∧
  MoreExamples.stored_list MoreExamples.repeated_id_drug "aliases"
  = Some [Some "BTD00024"; Some "BTD00024"].
Proof.
  split; [vm_compute; reflexivity|]. split; [reflexivity|].
  split; [discriminate|vm_compute; reflexivity].
Qed.

(** C9 (amended).  Uniqueness in the stored lists is by exact string,
    and holds where the adapter looks at the list before it appends.
    RxNorm: no list of a record that [_transform_data] hands to the
    loader holds the same string twice.  DrugBank: the "trade_names" of
    an identity item that [_transform_data] puts has no repeated
    entry, and an entry that stands twice in its "aliases" is the text
    of a secondary <drugbank-id> of the drug, which [_load_drugbank_id]
    appends without a look at the list.  Wikidata: the "aliases" of an
    identity item that [_transform_data] puts has no repeated
    string. *)
Theorem C9_exact_string_uniqueness :
  (∀ XREF_SOURCES ASSOC_WITH_SOURCES NamespacePrefix SourceName_RXNORM
     RXNORM_PRESCRIBABLE drug_forms rows ops r field l,
     RxNorm._transform_data XREF_SOURCES ASSOC_WITH_SOURCES NamespacePrefix
       SourceName_RXNORM RXNORM_PRESCRIBABLE drug_forms rows = Some ops →
     RxNorm.LoadTherapy r ∈ ops →
     RxNorm.fields r !! field = Some l → NoDup l) ∧
  (∀ NamespacePrefix casRegistry_prefix WITHDRAWN APPROVED INVESTIGATIONAL
     SourceName_DRUGBANK casefold root ops item,
     DrugBankXml._transform_data NamespacePrefix casRegistry_prefix WITHDRAWN
       APPROVED INVESTIGATIONAL SourceName_DRUGBANK casefold root = Some ops →
     DrugBankXml.PutIdentity item ∈ ops →
     (∀ l, DrugBank.fields item !! "trade_names" = Some l → NoDup l) ∧
     ∃ drug, drug ∈ root ∧
       ∀ l i j x,
         DrugBank.fields item !! "aliases" = Some l →
         (i < j)%nat → l !! i = Some x → l !! j = Some x →
         DrugBankXml.drugbank_id false x ∈ drug) ∧
  (∀ prefixes after_namespace members chemidplus wikidata wikidata_prefix
     casefold records ops i l,
     Wikidata._transform_data prefixes after_namespace members chemidplus
       wikidata wikidata_prefix casefold records = Some ops →
     Wikidata.PutIdentity i ∈ ops →
     Wikidata.fields i !! "aliases" = Some l → NoDup l).
Proof.
  split; [|split].
  - intros XS AS NP src presc drug_forms rows ops r field l Hops Hr.
    by apply (transform_data_distinct XS AS NP src presc drug_forms rows ops r).
  - intros NP cas W A I src casefold root ops item Hops Hitem.
    destruct (transform_data_put _ _ _ _ _ _ _ _ _ _ Hops Hitem)
      as (drug & ops' & Hdrug & Ht & Hin).
    split.
    + intros l. by apply (DrugBankMoreFacts.identity_trade_names_NoDup
                            NP cas W A I src casefold drug ops' item).
    + exists drug. split; [done|]. intros l i j x Hl.
      by apply (DrugBankMoreFacts.identity_aliases_repeats
                  NP cas W A I src casefold drug ops' item l Ht Hin Hl).
  - exact wikidata_aliases_NoDup.
Qed.

Lemma C9_exact_string_uniqueness_witness :
  (∀ field l, RxNorm.fields MoreExamples.prescribable_record !! field = Some l →
     NoDup l) ∧
  NoDup [Some "Bufferin"] ∧
  (∀ i j x, (i < j)%nat →
     [Some "BTD00024"; Some "BTD00024"] !! i = Some x →
     [Some "BTD00024"; Some "BTD00024"] !! j = Some x →
     DrugBankXml.drugbank_id false x ∈ MoreExamples.repeated_id_drug) ∧
  (∀ l, Wikidata.fields Examples.aspirin_item !! "aliases" = Some l → NoDup l).
Proof.
  destruct C9_exact_string_uniqueness as (HR & HD & HW).
  split; [|split; [|split]].
  - intros field l.
    apply (HR Examples.demo_XREF_SOURCES Examples.demo_ASSOC_WITH_SOURCES
             Examples.demo_NamespacePrefix "RxNorm" "rxnorm_prescribable" []
             MoreExamples.prescribable_rows
             (default [] (Examples.demo_transform MoreExamples.prescribable_rows))).
    + vm_compute. reflexivity.
    + apply (list_elem_of_lookup_2 _ 0). vm_compute. reflexivity.
  - destruct (HD lower "chemidplus" "withdrawn" "approved" "investigational"
                "DrugBank" casefold [MoreExamples.aspirin_drug]
                MoreExamples.aspirin_drug_ops MoreExamples.aspirin_drug_item)
      as [Htn _].
    + vm_compute. reflexivity.
    + apply (list_elem_of_lookup_2 _ 0). vm_compute. reflexivity.
    + apply Htn. vm_compute. reflexivity.
  - destruct (HD lower "chemidplus" "withdrawn" "approved" "investigational"
                "DrugBank" casefold [MoreExamples.repeated_id_drug]
                (default [] (MoreExamples.demo_transform_drug
                               MoreExamples.repeated_id_drug))
                (default (DrugBank.initial_params "")
                   (head (default [] (MoreExamples.demo_transform_drug
                                        MoreExamples.repeated_id_drug))
                    ≫= λ op, match op with
                             | DrugBankXml.PutIdentity item => Some item
                             | _ => None
                             end)))
      as [_ (drug & Hdrug & Hal)].
    + vm_compute. reflexivity.
    + apply (list_elem_of_lookup_2 _ 0). vm_compute. reflexivity.
    + apply list_elem_of_singleton in Hdrug as ->.
      intros i j x. apply Hal. vm_compute. reflexivity.
  - intros l.
    apply (HW Examples.demo_IDENTIFIER_PREFIXES Examples.demo_SourceIDAfterNamespace
             Examples.demo_SourceName_members "ChemIDplus" "Wikidata" "wikidata"
             casefold Examples.wikidata_records
             (default [] (Examples.demo_wikidata_transform Examples.wikidata_records))).
    + vm_compute. reflexivity.
    + apply (list_elem_of_lookup_2 _ 0). vm_compute. reflexivity.
Defined.

End UniquenessFacts.
